(* ===== verification/_CoqProject ===== *)
-Q . S2P
Prelude.v
JsNum.v
Regex.v
Dom.v
Navigation.v
NavSpec.v
Observer.v
Counter.v
Timers.v
Reveal.v
SmoothScroll.v
Css.v
Particles.v
ParticlesLife.v
PageTimers.v
Validator.v
Jest.v
Page.v
JestDom.v
