(* ===== verification/Prelude.v ===== *)
(** * A verification development for the Profile-test page scripts

    The repository renders one static profile page.  [src/js/main.js], an
    IIFE, attaches five browser behaviours to it: its [init] calls
    [initNavigation], [initScrollAnimations], [initCounters],
    [initParticles] and [initSmoothScroll], at once or on
    [DOMContentLoaded].  A Node script, [src/tests/validate-html.js], checks
    [index.html] against sixteen regular expressions.  The behaviours share
    the document; the reveal animator and the counters share the pattern of
    a one-shot [IntersectionObserver]; the reveal animator and the particle
    spawner share the browser's timers.

    ** Files, in dependency order

    - [Prelude.v] (this file): the notation scope [profile_scope], the
      tactics [qdec] and [decide_by_eval], the hint databases [profile] and
      [profile_rw], and lemmas on [Q], [Qfloor], folds, [filter] and [NoDup].
    - [JsNum.v]: [parseInt(s, 10)] and [parseInt(s)] (radix 16 after a
      [0x] prefix) as [string -> option Z] ([None] is [NaN]) and
      [String(n)]; WebIDL's conversion of a Number to [long] ([to_long],
      [number_to_long]), through which [setTimeout] reads its timeout;
      numbers that the code only compares or
      scales are exact rationals [Q] (IEEE rounding is not modelled).
    - [Regex.v]: the ECMAScript regular-expression engine for the fragment
      the validator uses.  The backtracking matcher of ECMA-262 22.2 is a
      continuation-passing function, RepeatMatcher's greedy loop with its
      empty-iteration check carries fuel [S (length s)].  It is proved
      equivalent to the language of the pattern ([matcher_spec],
      [regex_test_spec]); its state-returning form gives the global match
      of [String.prototype.match].
    - [Dom.v]: the DOM as a store [gmap nat node] of elements (tag,
      attributes, [classList] with the DOMTokenList algorithms, text,
      parent, offsets) and the document order; [getElementById],
      [querySelectorAll], [appendChild], [removeChild]; the layout
      equivalence with [Proper] instances for the queries; class lists
      duplicate-free ([classlists_ok]) and kept so by every mutation.
    - [Navigation.v] ([initNavigation], lines 12-73): the handlers as
      functions on documents, dispatched in registration order by
      [nav_handle]; the menu invariant by rule induction ([nav_reach]).
    - [NavSpec.v]: the menu as a two-state machine and the refinement of it
      by the handlers over any sequence of events.
    - [Observer.v]: [IntersectionObserver] after the W3C algorithm, with the
      geometry left free, and the one-shot callback of lines 91-106 and
      157-162 over any client action.
    - [Counter.v] ([initCounters] and [animateCounter], lines 118-170):
      [easeOutCubic], the per-frame [step] with exact timestamps, runs fed
      successive frames, the fallback and the observer path.
    - [Timers.v]: [setTimeout]/[setInterval] as a list of timers with due
      times and sequence numbers, one turn of the event loop firing the
      earliest.  It holds generic termination and liveness lemmas by a
      potential ([run_until_done], [run_until_fires]).
    - [Reveal.v] ([initScrollAnimations], lines 78-113): the observer
      callback's timers, with [data-delay] read through setTimeout's
      WebIDL [long] conversion, so that a delay of 2^31 ms or more wraps.
    - [SmoothScroll.v] ([initSmoothScroll], lines 223-241): the click
      listener proved against an interface of the selector engine
      ([engine_laws]), implemented by [id_engine].
    - [Particles.v] and [ParticlesLife.v] ([initParticles], lines
      175-218): [createParticle] with [Math.random()] as a stream, the
      removal callback, due after the duration in whole milliseconds (the
      [long] of [duration * 1000]), and the interval; the reachable states of the event
      loop ([rtc particle_step]) and the invariant that each live particle
      has exactly one pending removal, and that it is removed within 25 s.
    - [PageTimers.v]: the reveal timers and the particle timers as one kind
      of task on the one document, and the theorem that the order in which
      the browser interleaves them does not change the final state; it
      rests on the frame lemmas of [Dom.v] (a class-list update commutes
      with [appendChild] of another node and with [removeChild]).
    - [Validator.v] ([validate]): the sixteen checks as patterns of
      [Regex.v], the PASS/FAIL lines, the summary and the exit code.
    - [Page.v] ([init] and the [readyState] test, lines 246-258): the five
      initialisers composed on one document, a menu-link click running
      both of its listeners, class lists kept duplicate-free by every
      handler, and the document lifecycle under which [init] runs once.
    - [Jest.v] ([src/tests/profile.test.js]): the tests on the texts of
      the page (the [lang] test, the CSS block with its global match of
      [/@media/g], the JavaScript block) with [toContain], [toMatch] and
      length comparisons; what [main.js] must contain for the JavaScript
      block to pass, and how many [@media] the stylesheet needs.
    - [Css.v]: the selector engine behind the suite's [querySelector]
      calls, a model of the browser library (after Selectors 4 and CSS
      Syntax) and not of code of the repository: a parser and a printer
      of the selectors the suite uses, right-to-left matching with the
      descendant combinator, the document- and element-scoped queries, its
      agreement with the selector model of [Dom.v] on the selectors of
      [main.js], and the interface of [SmoothScroll.v] it implements.  Its
      lemmas support the theorems of [JestDom.v].
    - [JestDom.v] ([src/tests/profile.test.js], lines 9-344): every test on
      the document, over any document of [Dom.v], and what passing them
      gives the script: the menu invariant of [Navigation.v] (given two
      class facts the tests leave unchecked), three counters with positive
      targets unless a value is hexadecimal; and, for every page whose
      three counters are written [0x...], a passing test while every
      counter animates to 0, since the test's [parseInt] infers the radix
      and the script's reads decimal.

    ** What the theorems show

    Invariants by induction on the reachable states (the menu; the
    particle removals; the lifecycle; class lists); termination and
    liveness by fuel bounded by a potential (the counter's frames, the
    reveal timers, the particle removals, with the fuel given by the
    potential of the state); the exact output of handlers on every branch,
    errors included (a [SyntaxError] from [querySelector], the validator's
    failures); bounds on machine-width integers (the 32-bit timeout) and
    on random ranges; equivalence of the backtracking regex matcher with
    the language of its pattern; refinement of an abstract menu by the
    navigation handlers; commutation of the two kinds of page timers, so
    that any interleaving of them is equivalent to one fixed order;
    characterisations of where the code departs from its description,
    stated for every input (the wrapped [data-delay] timeout, the counter
    texts of the two paths, a target queued twice in one batch, the
    hexadecimal counters the test accepts); composition of the test suite
    with the script (the tests establish the hypotheses of the script's
    theorems, or show where they do not).

    ** Fuel and bounds

    [repeat0] gets [S (length s)] iterations, and each further one consumes
    input.  The counter's [run_frames] takes the frames given.  The timer
    loops take as many turns as the potential of the state: the number of
    pending timers for the reveal animator, whose timers set no timers, and
    the weighted count of [potential] for the spawner, whose interval sets
    itself again.
    [parse_selector] takes one more step than its input has characters,
    each step consuming one; the ancestor chain of [Css.v], like
    [is_ancestor], follows at most as many [parentNode] links as the
    document has elements, the length of any chain in a tree.

    ** Not modelled

    - jsdom's parsing of [index.html], which is not among the sources: the
      DOM tests of the Jest suite are modelled over any document, the
      document being a parameter.
    - Selectors outside the fragment the suite uses (other combinators,
      selector lists, pseudo-classes, escapes): [Css.v] rejects them.
    - The markup and the stylesheet themselves, which enter only as
      hypotheses (the closed menu at load, the elements present).
    - Layout and painting: [offsetTop], [scrollY] and intersections are
      inputs, and the [IntersectionObserver] geometry is a free function.
    - Floating-point rounding of [Math.random()], [Math.pow] and the
      timestamps, modelled as exact rationals; and non-ASCII case mapping
      in the regex engine, which the patterns, all ASCII, never reach.
    - The due times of the page timers in [PageTimers.v]: the theorem
      there holds for every interleaving, so the timer list that would
      choose one is not needed; the loops of [Timers] for each kind of
      timer alone are modelled in [Reveal.v] and [Particles.v]. *)

From stdpp Require Export base list strings gmap.
From Stdlib Require Export QArith Qround Qminmax Lqa ZArith.

Declare Scope profile_scope.
Delimit Scope profile_scope with profile.
Open Scope profile_scope.

(** [set_solver] and [naive_solver] clear hypotheses that may be absent. *)
#[export] Set Warnings "-clear-no-such-hyp".

Create HintDb profile.
Create Rewrite HintDb profile_rw.

(** ** Order on [Q] as stdpp decisions *)

#[export] Instance Qlt_decision : RelDecision Qlt.
Proof.
  intros x y. destruct (Qlt_le_dec x y) as [H|H]; [left; exact H|right].
  by apply Qle_not_lt.
Defined.

#[export] Instance Qle_decision : RelDecision Qle.
Proof.
  intros x y. destruct (Qlt_le_dec y x) as [H|H]; [right|left; exact H].
  by apply Qlt_not_le.
Defined.

#[export] Instance Qeq_decision : RelDecision Qeq.
Proof. intros x y. destruct (Qeq_dec x y); [left|right]; done. Defined.

(** Keep the comparisons folded under [simpl]; [vm_compute] still runs them. *)
Arguments Qlt_decision : simpl never.
Arguments Qle_decision : simpl never.
Arguments Qeq_decision : simpl never.

(** JavaScript's [a < b] and [a <= b] on numbers, as booleans. *)
Notation "x <q? y" := (bool_decide (Qlt x y)) (at level 70, no associativity) : profile_scope.
Notation "x <=q? y" := (bool_decide (Qle x y)) (at level 70, no associativity) : profile_scope.

(** Integers seen as JavaScript numbers. *)
Notation "'zq' z" := (inject_Z z) (at level 9, z at level 9) : profile_scope.

(** ** Tactics *)

(** Case on every [Q] comparison decided in the goal, and close what is
    arithmetic. *)
Ltac qdec :=
  repeat match goal with
  | |- context [bool_decide (Qlt ?x ?y)] => destruct (bool_decide_reflect (Qlt x y))
  | |- context [bool_decide (Qle ?x ?y)] => destruct (bool_decide_reflect (Qle x y))
  end.

(** The last element of a list satisfying a boolean test. *)
Definition last_such {A} (p : A -> bool) (l : list A) : option A :=
  foldl (fun acc x => if p x then Some x else acc) None l.

(** ** Generic lemmas on [Q] *)

Lemma Q_cube_mono (a b : Q) : 0 <= a -> a <= b -> a * a * a <= b * b * b.
Proof.
  intros Ha Hab. assert (a * a <= b * b) by nra.
  apply Qmult_le_compat_nonneg; split; nra.
Qed.

Lemma Q_cube_nonneg (a : Q) : 0 <= a -> 0 <= a * a * a.
Proof. intros. repeat apply Qmult_le_0_compat; lra. Qed.

Lemma Q_cube_le_1 (a : Q) : 0 <= a -> a <= 1 -> a * a * a <= 1.
Proof.
  intros H0 H1. apply (Qle_trans _ (1 * 1 * 1)); [|apply Qle_refl].
  by apply Q_cube_mono.
Qed.

(** [Qfloor] is monotone and exact on integers. *)
Lemma Qfloor_le_Z (x : Q) (z : Z) : x <= zq z -> (Qfloor x <= z)%Z.
Proof. intros H. rewrite <- (Qfloor_Z z). by apply Qfloor_resp_le. Qed.

Lemma Qfloor_ge_Z (x : Q) (z : Z) : zq z <= x -> (z <= Qfloor x)%Z.
Proof. intros H. rewrite <- (Qfloor_Z z). by apply Qfloor_resp_le. Qed.

Lemma Qfloor_lt_Z (x : Q) (z : Z) : x < zq z -> (Qfloor x < z)%Z.
Proof. intros H. pose proof (Qfloor_le x). rewrite Zlt_Qlt. lra. Qed.

Lemma Qfloor_minus_1 (x : Q) : Qfloor (x - 1) = (Qfloor x - 1)%Z.
Proof.
  pose proof (Qfloor_le x). pose proof (Qfloor_le (x - 1)).
  pose proof (Qlt_floor x). pose proof (Qlt_floor (x - 1)).
  rewrite inject_Z_plus in *. change (zq 1) with 1 in *.
  assert (A : (Qfloor x + - 1 <= Qfloor (x - 1))%Z).
  { apply Qfloor_ge_Z. rewrite inject_Z_plus. change (zq (-1)) with (-1). lra. }
  assert (B : (Qfloor (x - 1) + 1 <= Qfloor x)%Z).
  { apply Qfloor_ge_Z. rewrite inject_Z_plus. change (zq 1) with 1. lra. }
  lia.
Qed.

Lemma Qfloor_eq_Z (x : Q) (z : Z) : x == zq z -> Qfloor x = z.
Proof. intros H. rewrite (Qfloor_comp _ _ H). apply Qfloor_Z. Qed.

Lemma inject_Z_nonneg (z : Z) : (0 <= z)%Z -> 0 <= zq z.
Proof. intros. change 0 with (zq 0). by rewrite <- Zle_Qle. Qed.

#[export] Hint Resolve Q_cube_nonneg Q_cube_le_1 inject_Z_nonneg : profile.

(** ** Generic lemmas on lists *)

Lemma foldl_last_such {A} (p : A -> bool) (o : option A) (l : list A) :
  foldl (fun acc x => if p x then Some x else acc) o l =
  match last_such p l with Some x => Some x | None => o end.
Proof.
  unfold last_such. revert o. induction l as [|y l IH]; intros o; [done|].
  simpl. rewrite (IH (if p y then Some y else o)), (IH (if p y then Some y else None)).
  destruct (foldl _ None l), (p y); done.
Qed.

Lemma last_such_app {A} (p : A -> bool) (l1 l2 : list A) :
  last_such p (l1 ++ l2) =
  match last_such p l2 with Some x => Some x | None => last_such p l1 end.
Proof. unfold last_such at 1. rewrite foldl_app. apply foldl_last_such. Qed.

(** A property kept by every step of a left fold holds at its end. *)
Lemma foldl_invariant {A B} (P : B -> Prop) (f : B -> A -> B) (l : list A) (b : B) :
  P b -> (forall b a, a ∈ l -> P b -> P (f b a)) -> P (foldl f b l).
Proof.
  revert b. induction l as [|x l IH]; intros b Hb Hf; [done|]. simpl.
  apply IH; [apply Hf; [by left|done]|]. intros b' a Ha. apply Hf. by right.
Qed.

(** The position of the last element satisfying the test. *)
Lemma last_such_split {A} (p : A -> bool) (l : list A) (x : A) :
  last_such p l = Some x ->
  exists pre post, l = pre ++ x :: post /\ p x = true /\ Forall (fun y => p y = false) post.
Proof.
  induction l as [|y l IH] using rev_ind; [done|].
  rewrite last_such_app. simpl. unfold last_such at 1. simpl.
  destruct (p y) eqn:Ey; simpl.
  - intros [= ->]. exists l, []. by rewrite Ey.
  - intros H. destruct (IH H) as (pre & post & -> & Hx & Hpost).
    exists pre, (post ++ [y]). rewrite <- app_assoc. split_and!; [done|done|].
    apply Forall_app. split; [done|]. by constructor.
Qed.

(** Two elements of a list with the same key are equal when the keys are
    distinct. *)
Lemma NoDup_fmap_inj_in {A B} (f : A -> B) (l : list A) (x y : A) :
  NoDup (f <$> l) -> x ∈ l -> y ∈ l -> f x = f y -> x = y.
Proof.
  induction l as [|z l IH]; intros Hnd Hx Hy Hf; [by apply elem_of_nil in Hx|].
  simpl in Hnd. apply NoDup_cons in Hnd as [Hz Hnd].
  apply elem_of_cons in Hx as [->|Hx]; apply elem_of_cons in Hy as [->|Hy]; [done| | |by apply IH].
  - destruct Hz. rewrite Hf. by apply list_elem_of_fmap_2.
  - destruct Hz. rewrite <- Hf. by apply list_elem_of_fmap_2.
Qed.

(** A filter that every element passes keeps the list. *)
Lemma filter_all {A} (P : A -> Prop) `{!forall x, Decision (P x)} (l : list A) :
  (forall x, x ∈ l -> P x) -> filter P l = l.
Proof.
  induction l as [|x l IH]; intros Hl; [done|].
  rewrite filter_cons_True by (apply Hl; by left). f_equal. apply IH. intros y Hy. apply Hl. by right.
Qed.

Lemma Forall2_in_l {A B} (P : A -> B -> Prop) (l : list A) (k : list B) (x : A) :
  Forall2 P l k -> x ∈ l -> exists y, y ∈ k /\ P x y.
Proof.
  induction 1 as [|a b l k Hab _ IH]; intros Hx; [by apply elem_of_nil in Hx|].
  apply elem_of_cons in Hx as [->|Hx]; [exists b; split; [by left|done]|].
  destruct (IH Hx) as (y & Hy & HP). exists y. split; [by right|done].
Qed.

(** Removing one element keeps a list without duplicates. *)
Lemma NoDup_app_drop {A} (a b : list A) (x : A) :
  NoDup (a ++ (x :: b)) -> NoDup (a ++ b) /\ (x ∉ a) /\ (x ∉ b).
Proof.
  intros H. apply NoDup_app in H as (Ha & Hdis & Hb). apply NoDup_cons in Hb as [Hx Hb].
  split_and!; [apply NoDup_app; split_and!; [done| |done]|..].
  - intros y Hy Hy'. apply (Hdis y Hy). by right.
  - intros Hxa. apply (Hdis x Hxa). by left.
  - done.
Qed.

Lemma head_filter_find {A} (f : A -> bool) (l : list A) : head (filter (fun x => f x = true) l) = List.find f l.
Proof. induction l as [|x l IH]; [done|]. rewrite filter_cons. simpl. by destruct (f x). Qed.

(** ** Generic lemmas on strings *)

Lemma string_append_empty (s : string) : s +:+ "" = s.
Proof. induction s as [|c s IH]; [done|]. change (String c (s +:+ "") = String c s). by rewrite IH. Qed.

Lemma string_app_cons (c : Ascii.ascii) (s1 s2 : string) : String c s1 +:+ s2 = String c (s1 +:+ s2).
Proof. done. Qed.

Lemma string_app_nil_l (s : string) : "" +:+ s = s.
Proof. done. Qed.

Lemma string_app_assoc (s1 s2 s3 : string) : s1 +:+ (s2 +:+ s3) = (s1 +:+ s2) +:+ s3.
Proof.
  induction s1 as [|c s1 IH]; [done|].
  change (String c (s1 +:+ s2 +:+ s3) = String c ((s1 +:+ s2) +:+ s3)). by rewrite IH.
Qed.

Lemma string_length_app (s1 s2 : string) : String.length (s1 +:+ s2) = (String.length s1 + String.length s2)%nat.
Proof.
  induction s1 as [|c s1 IH]; [done|].
  change (S (String.length (s1 +:+ s2)) = S (String.length s1 + String.length s2))%nat. by rewrite IH.
Qed.

(** Right-nest appends and expose the leading characters of literals
    ([String.append] does not unfold under [simpl]). *)
Ltac string_norm :=
  repeat first [rewrite <- string_app_assoc | rewrite string_app_cons | rewrite string_app_nil_l].

(** Prove a decidable proposition about concrete data by evaluation. *)
Ltac decide_by_eval := refine (bool_decide_unpack _ _); vm_compute; first [exact I | reflexivity].
