(* ===== verification/JsNum.v ===== *)
(** * JavaScript conversions used by [src/js/main.js]

    [String(b)] for the boolean written to [aria-expanded], [parseInt(s, 10)]
    as used on the [data-count] and [data-delay] attributes, [parseInt(s)]
    without a radix as the Jest suite reads [data-count], and the decimal
    spelling [String(n)] of an integer-valued number assigned to
    [textContent].  A number that [parseInt] can return is an integer or
    [NaN]: it is modelled as [option Z] ([None] is [NaN]).  The model is
    exact for safe integers (magnitude below 2^53); above that JavaScript
    rounds, and from 10^21 on [String] switches to exponent notation, which
    is not modelled.  The sign of [-0] is not kept; [String(-0)] is "0", as
    here. *)

From S2P Require Import Prelude.
From Stdlib Require Import Ascii String Decimal DecimalString DecimalN.

(** [String(b)] on a boolean. *)
Definition js_bool_to_string (b : bool) : string :=
  if b then "true" else "false".

(** [ToString] of a string or null, as [parseInt] and [querySelector] apply
    it to what [getAttribute] returns: null is "null". *)
Definition attr_string (o : option string) : string :=
  match o with Some s => s | None => "null" end.

(** A number produced by [parseInt] or [Math.floor] of such a number. *)
Abbreviation jsint := (option Z).

(** ** [parseInt(string, 10)] (ECMAScript 19.2.5) *)

(** StrWhiteSpaceChar and LineTerminator among the 8-bit code units: TAB,
    LF, VT, FF, CR, SPACE and NO-BREAK SPACE. *)
Definition is_js_space (c : ascii) : bool :=
  match nat_of_ascii c with
  | 9%nat | 10%nat | 11%nat | 12%nat | 13%nat | 32%nat | 160%nat => true
  | _ => false
  end.

(** Step 2: [TrimString(inputString, start)]. *)
Fixpoint trim_start (s : string) : string :=
  match s with
  | String c s' => if is_js_space c then trim_start s' else s
  | EmptyString => EmptyString
  end.

(** A radix-10 digit as the constructor of [Decimal.uint] it contributes. *)
Definition digit_ctor (c : ascii) : option (uint -> uint) :=
  match c with
  | "0"%char => Some D0 | "1"%char => Some D1 | "2"%char => Some D2
  | "3"%char => Some D3 | "4"%char => Some D4 | "5"%char => Some D5
  | "6"%char => Some D6 | "7"%char => Some D7 | "8"%char => Some D8
  | "9"%char => Some D9 | _ => None
  end.

(** Steps 11 and 12: the longest prefix of radix-10 digits, and the rest. *)
Fixpoint read_digits (s : string) : uint * string :=
  match s with
  | String c s' =>
      match digit_ctor c with
      | Some k => let '(u, r) := read_digits s' in (k u, r)
      | None => (Nil, s)
      end
  | EmptyString => (Nil, EmptyString)
  end.

(** Steps 3 to 5: the sign. *)
Definition split_sign (s : string) : Z * string :=
  match s with
  | String "-"%char r => ((-1)%Z, r)
  | String "+"%char r => (1%Z, r)
  | _ => (1%Z, s)
  end.

(** [parseInt(s, 10)]: [NaN] when no digit follows the optional sign. *)
Definition parseInt10 (s : string) : jsint :=
  let '(sign, s2) := split_sign (trim_start s) in
  match read_digits s2 with
  | (Nil, _) => None
  | (u, _) => Some (sign * Z.of_N (N.of_uint u))%Z
  end.

(** ** [parseInt(string)] without a radix (ECMAScript 19.2.5) *)

(** A radix-16 digit and its value. *)
Definition hex_digit (c : ascii) : option N :=
  let n := nat_of_ascii c in
  if (48 <=? n)%nat && (n <=? 57)%nat then Some (N.of_nat (n - 48))
  else if (97 <=? n)%nat && (n <=? 102)%nat then Some (N.of_nat (n - 87))
  else if (65 <=? n)%nat && (n <=? 70)%nat then Some (N.of_nat (n - 55))
  else None.

(** Step 11 for [R = 16]: the values of the longest prefix of digits. *)
Fixpoint hex_digits (s : string) : list N :=
  match s with
  | String c s' => match hex_digit c with Some v => v :: hex_digits s' | None => [] end
  | EmptyString => []
  end.

Definition hex_value (ds : list N) : N := foldl (fun acc v => 16 * acc + v)%N 0%N ds.

(** The radix is [ToInt32(undefined) = 0]: steps 8 to 10 strip a leading
    ["0x"] or ["0X"] and read hexadecimal, and read decimal otherwise. *)
Definition parseInt (s : string) : jsint :=
  let '(sign, s2) := split_sign (trim_start s) in
  let decimal := match read_digits s2 with
                 | (Nil, _) => None
                 | (u, _) => Some (sign * Z.of_N (N.of_uint u))%Z
                 end in
  match s2 with
  | String "0" (String x r) =>
      if (Ascii.eqb x "x" || Ascii.eqb x "X")%bool then
        match hex_digits r with
        | [] => None
        | ds => Some (sign * Z.of_N (hex_value ds))%Z
        end
      else decimal
  | _ => decimal
  end.

(** The string after the sign starts with ["0x"] or ["0X"]. *)
Definition hex_prefixed (s : string) : bool :=
  match (split_sign (trim_start s)).2 with
  | String "0" (String x _) => (Ascii.eqb x "x" || Ascii.eqb x "X")%bool
  | _ => false
  end.

(** ** [String(n)] on an integer-valued number *)

Definition js_int_to_string (z : Z) : string :=
  match z with
  | Z0 => "0"
  | Zpos p => NilEmpty.string_of_uint (Pos.to_uint p)
  | Zneg p => String "-" (NilEmpty.string_of_uint (Pos.to_uint p))
  end.

Definition js_num_to_string (n : jsint) : string :=
  match n with
  | Some z => js_int_to_string z
  | None => "NaN"
  end.

(** ** WebIDL [long]

    [setTimeout] takes its timeout as a WebIDL [long] (ConvertToInt with
    bit length 32, signed).  On an integer or [NaN]: [NaN] is 0, the
    integer wraps modulo 2^32 and the upper half of the range is
    negative. *)
Definition to_long (n : jsint) : Z :=
  match n with
  | None => 0
  | Some z => let m := (z mod 2 ^ 32)%Z in if (m <? 2 ^ 31)%Z then m else (m - 2 ^ 32)%Z
  end.

(** A finite Number is first truncated toward 0. *)
Definition js_trunc (q : Q) : Z :=
  if Qle_bool 0 q then Qfloor q else (- Qfloor (- q))%Z.

Definition number_to_long (q : Q) : Z := to_long (Some (js_trunc q)).

(** ** Lemmas *)

Lemma read_digits_uint (u : uint) (rest : string) :
  match rest with String c _ => digit_ctor c = None | EmptyString => True end ->
  read_digits (NilEmpty.string_of_uint u +:+ rest) = (u, rest).
Proof.
  intros Hrest. induction u; simpl;
    try (rewrite IHu; reflexivity).
  destruct rest as [|c r]; simpl; [done|]. by rewrite Hrest.
Qed.

Lemma pos_to_uint_nonempty (p : positive) : Pos.to_uint p <> Nil.
Proof.
  intros H. pose proof (Unsigned.of_to (Npos p)) as E.
  change (N.of_uint (Pos.to_uint p) = Npos p) in E. rewrite H in E. discriminate.
Qed.

Lemma pos_of_to_uint (p : positive) : Z.of_N (N.of_uint (Pos.to_uint p)) = Zpos p.
Proof.
  pose proof (Unsigned.of_to (Npos p)) as E.
  change (N.of_uint (Pos.to_uint p) = Npos p) in E. by rewrite E.
Qed.

Lemma parseInt10_uint (u : uint) (rest : string) :
  u <> Nil ->
  match rest with String c _ => digit_ctor c = None | EmptyString => True end ->
  parseInt10 (NilEmpty.string_of_uint u +:+ rest) = Some (Z.of_N (N.of_uint u)).
Proof.
  intros Hu Hrest.
  destruct u; [done|..]; unfold parseInt10; simpl;
    rewrite (read_digits_uint _ rest Hrest); simpl; by rewrite ?Z.mul_1_l.
Qed.

(** [parseInt] reads back the decimal spelling of an integer, and stops at
    the first character that is not a digit. *)
Lemma parseInt10_int_prefix (z : Z) (rest : string) :
  match rest with String c _ => digit_ctor c = None | EmptyString => True end ->
  parseInt10 (js_int_to_string z +:+ rest) = Some z.
Proof.
  intros Hrest. destruct z as [|p|p].
  - exact (parseInt10_uint (D0 Nil) rest ltac:(done) Hrest).
  - rewrite <- pos_of_to_uint at 2.
    exact (parseInt10_uint _ rest (pos_to_uint_nonempty p) Hrest).
  - unfold parseInt10. simpl. rewrite (read_digits_uint _ rest Hrest).
    destruct (Pos.to_uint p) eqn:E; try (by destruct (pos_to_uint_nonempty p));
      rewrite <- E, pos_of_to_uint; done.
Qed.

#[export] Hint Resolve pos_to_uint_nonempty : profile.

(** Without a hexadecimal prefix, [parseInt(s)] and [parseInt(s, 10)]
    agree. *)
Lemma parseInt_decimal (s : string) : hex_prefixed s = false -> parseInt s = parseInt10 s.
Proof.
  unfold hex_prefixed, parseInt, parseInt10. destruct (split_sign (trim_start s)) as [sign s2]. cbn [snd].
  intros H. destruct s2 as [|c [|x r]]; [done|by destruct c as [[] [] [] [] [] [] [] []]|].
  destruct c as [[] [] [] [] [] [] [] []]; try done. by rewrite H.
Qed.

(** [parseInt(String(n), 10)] is [n]. *)
Lemma parseInt10_int_to_string (z : Z) : parseInt10 (js_int_to_string z) = Some z.
Proof. rewrite <- (string_append_empty (js_int_to_string z)). by apply parseInt10_int_prefix. Qed.

Lemma js_int_to_string_nonempty (z : Z) : js_int_to_string z <> EmptyString.
Proof.
  destruct z as [|p|p]; [done| |done]. simpl.
  destruct (Pos.to_uint p) eqn:E; [by destruct (pos_to_uint_nonempty p)|done..].
Qed.

Lemma to_long_small (z : Z) : (0 <= z < 2 ^ 31)%Z -> to_long (Some z) = z.
Proof.
  intros Hz. unfold to_long. rewrite Z.mod_small by lia.
  destruct (Z.ltb_spec z (2 ^ 31)); lia.
Qed.

Lemma to_long_range (n : jsint) : (- 2 ^ 31 <= to_long n < 2 ^ 31)%Z.
Proof.
  destruct n as [z|]; simpl; [|lia].
  pose proof (Z.mod_pos_bound z (2 ^ 32) ltac:(lia)).
  destruct (Z.ltb_spec (z mod 2 ^ 32) (2 ^ 31)); lia.
Qed.

(** A non-negative Number below 2^31 becomes its floor. *)
Lemma number_to_long_small (q : Q) : 0 <= q -> q < 2147483648 -> number_to_long q = Qfloor q.
Proof.
  intros H0 H1. unfold number_to_long, js_trunc.
  replace (Qle_bool 0 q) with true by (symmetry; by apply Qle_bool_iff).
  apply to_long_small. split; [apply Qfloor_ge_Z; exact H0|apply (Qfloor_lt_Z q 2147483648); exact H1].
Qed.

(** On ["0x" ++ h], [parseInt] without a radix reads the hexadecimal
    digits of [h] ... *)
Lemma parseInt_hex (h : string) :
  (0 < hex_value (hex_digits h))%N -> parseInt (String "0" (String "x" h)) = Some (Z.of_N (hex_value (hex_digits h))).
Proof.
  intros H. unfold parseInt. simpl.
  destruct (hex_digits h) as [|x ds]; [done|]. f_equal. lia.
Qed.

(** ... while [parseInt(_, 10)] stops at the [x] and reads 0. *)
Lemma parseInt10_hex (h : string) : parseInt10 (String "0" (String "x" h)) = Some 0%Z.
Proof. reflexivity. Qed.
