(* ===== verification/Regex.v ===== *)
(** * ECMAScript regular expressions: the fragment the validator uses

    The sixteen patterns of [validate] (src/tests/validate-html.js, lines
    24-39) are literals with the flag [i] built from pattern characters,
    the negated classes of [>] and of the double quote, [.] and the greedy
    quantifiers [+] and [*]; the Jest suite (src/tests/profile.test.js)
    adds patterns without [i] and the class escape [\s].  [test] runs the
    engine of ECMA-262 22.2: this file models that engine for the
    fragment, as the standard writes it, and proves it against a
    relational semantics.  A [regexp] is a pattern with its [i] flag.

    - A string is its list of UTF-16 code units ([N]); [code_units] reads
      an ASCII Rocq string.
    - [canonicalize ic] is Canonicalize (22.2.2.7.3) without [u]: the
      identity without [i]; with [i], on ASCII it maps [a-z] to [A-Z] and
      it keeps every other unit.  The standard maps a unit at or above 128 with toUppercase, but
      never to a unit below 128, so a non-ASCII unit never compares equal to
      an ASCII one; every class and character of the patterns is ASCII, so
      the comparisons the patterns make are those of the standard.
    - [matcher r s k] is the Matcher of [r] (22.2.2) on the state whose
      remaining input is [s], with continuation [k].  Without captures the
      state is the rest of the input.  [Star] and [Plus] are RepeatMatcher
      with min 0 and 1, max infinity and greedy, including its test that
      stops an iteration of [*] that consumed nothing.  [repeat0] carries
      fuel, and [S (length s)] is enough because every further iteration
      consumes input.
    - [regex_test] is [RegExp.prototype.test] without the flags [g] and
      [y]: RegExpBuiltinExec ([test_from]) tries the matcher at
      [lastIndex = 0, 1, ..., length], the last try being on the empty
      rest.
    - [matcher_st] is the same matcher returning the MatchResult, the rest
      of the input or failure; [search] is RegExpBuiltinExec giving the
      match, and [string_match_g] is [String.prototype.match] with a
      global RegExp (22.2.6.8): the matches from left to right, [lastIndex]
      moving one further after an empty match.  For a literal pattern the
      matches are the leftmost occurrences, as many as any disjoint ones
      ([match_all_lit], [match_all_lit_complete]).
    - [matches r w] is the language of [r].  [matcher_spec] shows the
      backtracking matcher equivalent to it, and [regex_test_spec] shows
      [test] true exactly when a substring of the input is in the language. *)

From S2P Require Import Prelude.
From Stdlib Require Import Ascii.

Module Regex.

Definition code_units (s : string) : list N := N_of_ascii <$> String.list_ascii_of_string s.

(** Canonicalize (ECMA-262 22.2.2.7.3) with [rer.[[IgnoreCase]]] [ic] and
    [rer.[[Unicode]]] false, on ASCII. *)
Definition canonicalize (ic : bool) (x : N) : N :=
  if ic && (97 <=? x)%N && (x <=? 122)%N then (x - 32)%N else x.

(** LineTerminator (12.3): LF, CR, LS and PS. *)
Definition line_terminator (x : N) : bool := bool_decide (x ∈ [10; 13; 8232; 8233]%N).

(** The units of [\s] (22.2.2.9): WhiteSpace (TAB, VT, FF, ZWNBSP and
    the space separators) and LineTerminator.  None is a letter, so
    Canonicalize leaves the class as it is. *)
Definition is_space (x : N) : bool :=
  bool_decide (x ∈ [9; 10; 11; 12; 13; 32; 160; 5760; 8192; 8193; 8194; 8195; 8196; 8197; 8198; 8199;
                    8200; 8201; 8202; 8232; 8233; 8239; 8287; 12288; 65279]%N).

Inductive regex :=
  | Empty                       (** the empty alternative *)
  | Char (c : N)                (** a pattern character or an escaped one *)
  | NotClass (cs : list N)      (** [[^...]] *)
  | Dot                         (** [.] *)
  | Space                       (** [\s] *)
  | Seq (r1 r2 : regex)         (** a term after an alternative *)
  | Star (r : regex)            (** [r*] *)
  | Plus (r : regex).           (** [r+] *)

(** CharacterSetMatcher (22.2.2.7.1): one code unit that passes [test]. *)
Definition char_matcher (test : N -> bool) (s : list N) (k : list N -> bool) : bool :=
  match s with
  | x :: s' => test x && k s'
  | [] => false
  end.

(** RepeatMatcher with min 0, max infinity, greedy: one more iteration
    first, that must consume input (step 2.b), and the continuation
    otherwise. *)
Fixpoint repeat0 (m : list N -> (list N -> bool) -> bool) (fuel : nat) (s : list N) (k : list N -> bool) : bool :=
  match fuel with
  | O => false
  | S f => m s (fun s' => negb (length s' =? length s)%nat && repeat0 m f s' k) || k s
  end.

Section Flags.
Context (ic : bool).

(** CompilePattern's matchers (22.2.2). *)
Fixpoint matcher (r : regex) : list N -> (list N -> bool) -> bool :=
  match r with
  | Empty => fun s k => k s
  | Char c => char_matcher (fun x => canonicalize ic x =? canonicalize ic c)%N
  | NotClass cs => char_matcher (fun x => negb (existsb (fun a => canonicalize ic a =? canonicalize ic x)%N cs))
  | Dot => char_matcher (fun x => negb (line_terminator x))
  | Space => char_matcher is_space
  | Seq r1 r2 => fun s k => matcher r1 s (fun s' => matcher r2 s' k)
  | Star r1 => fun s k => repeat0 (matcher r1) (S (length s)) s k
  | Plus r1 => fun s k => matcher r1 s (fun s' => repeat0 (matcher r1) (S (length s')) s' k)
  end.

(** The same matchers with their MatchResult: the state after the match,
    here the rest of the input, or failure. *)
Definition char_matcher_st (test : N -> bool) (s : list N) (k : list N -> option (list N)) : option (list N) :=
  match s with
  | x :: s' => if test x then k s' else None
  | [] => None
  end.

Fixpoint repeat0_st (m : list N -> (list N -> option (list N)) -> option (list N)) (fuel : nat) (s : list N)
    (k : list N -> option (list N)) : option (list N) :=
  match fuel with
  | O => None
  | S f =>
      match m s (fun s' => if (length s' =? length s)%nat then None else repeat0_st m f s' k) with
      | Some q => Some q
      | None => k s
      end
  end.

Fixpoint matcher_st (r : regex) : list N -> (list N -> option (list N)) -> option (list N) :=
  match r with
  | Empty => fun s k => k s
  | Char c => char_matcher_st (fun x => canonicalize ic x =? canonicalize ic c)%N
  | NotClass cs => char_matcher_st (fun x => negb (existsb (fun a => canonicalize ic a =? canonicalize ic x)%N cs))
  | Dot => char_matcher_st (fun x => negb (line_terminator x))
  | Space => char_matcher_st is_space
  | Seq r1 r2 => fun s k => matcher_st r1 s (fun s' => matcher_st r2 s' k)
  | Star r1 => fun s k => repeat0_st (matcher_st r1) (S (length s)) s k
  | Plus r1 => fun s k => matcher_st r1 s (fun s' => repeat0_st (matcher_st r1) (S (length s')) s' k)
  end.

(** RegExpBuiltinExec's loop (22.2.7.2): a match at [lastIndex], or the
    next index while it is at most the length. *)
Fixpoint test_from (r : regex) (s : list N) : bool :=
  matcher r s (fun _ => true) ||
  match s with
  | [] => false
  | _ :: s' => test_from r s'
  end.

(** ** The language of a pattern *)

Inductive matches : regex -> list N -> Prop :=
  | m_empty : matches Empty []
  | m_char c x : canonicalize ic x = canonicalize ic c -> matches (Char c) [x]
  | m_notclass cs x : Forall (fun a => canonicalize ic a <> canonicalize ic x) cs -> matches (NotClass cs) [x]
  | m_dot x : line_terminator x = false -> matches Dot [x]
  | m_space x : is_space x = true -> matches Space [x]
  | m_seq r1 r2 w1 w2 : matches r1 w1 -> matches r2 w2 -> matches (Seq r1 r2) (w1 ++ w2)
  | m_star_nil r : matches (Star r) []
  | m_star_cons r w1 w2 : matches r w1 -> matches (Star r) w2 -> matches (Star r) (w1 ++ w2)
  | m_plus r w1 w2 : matches r w1 -> matches (Star r) w2 -> matches (Plus r) (w1 ++ w2).

End Flags.

(** A RegExp object: its pattern and its [i] flag. *)
Record regexp := RegExp {
  re_source : regex;
  re_ignoreCase : bool
}.

(** [rx.test(s)]. *)
Definition regex_test (rx : regexp) (s : list N) : bool := test_from (re_ignoreCase rx) (re_source rx) s.

(** RegExpBuiltinExec from the start of [s]: the first index where the
    matcher succeeds, as the text before the match, the match and the
    rest.  The patterns have no assertions, so matching at an index of the
    input is matching its suffix. *)
Fixpoint search (ic : bool) (r : regex) (s : list N) : option (list N * list N * list N) :=
  match matcher_st ic r s Some with
  | Some rest => Some ([], take (length s - length rest) s, rest)
  | None =>
      match s with
      | [] => None
      | x :: s' => '(pre, w, post) ← search ic r s'; Some (x :: pre, w, post)
      end
  end.

(** The loop of RegExp.prototype[@@match] with the flag [g] (22.2.6.8):
    [lastIndex] moves to the end of each match, one further after an empty
    one; past the end of the input the search fails. *)
Fixpoint match_all (ic : bool) (r : regex) (fuel : nat) (s : list N) : list (list N) :=
  match fuel with
  | O => []
  | S f =>
      match search ic r s with
      | None => []
      | Some (_, w, post) =>
          w :: match w, post with
               | [], [] => []
               | [], _ :: post' => match_all ic r f post'
               | _, _ => match_all ic r f post
               end
      end
  end.

(** [s.match(rx)] for a global [rx]: [null] when nothing matches, the
    matches otherwise; each step consumes input, so the length of [s]
    bounds the steps. *)
Definition string_match_g (rx : regexp) (s : list N) : option (list (list N)) :=
  match match_all (re_ignoreCase rx) (re_source rx) (S (length s)) s with
  | [] => None
  | ms => Some ms
  end.

Definition re_matches (rx : regexp) (w : list N) : Prop := matches (re_ignoreCase rx) (re_source rx) w.

(** A literal string as a sequence of pattern characters. *)
Definition lits (s : string) : regex := foldr (fun c r => Seq (Char c) r) Empty (code_units s).

(** The terms of a pattern, in order. *)
Definition cat (rs : list regex) : regex := foldr Seq Empty rs.

(** [k] occurrences of [w] in [s], one after the other without
    overlapping. *)
Inductive occurs_n (w : list N) : nat -> list N -> Prop :=
  | occ_0 s : occurs_n w 0 s
  | occ_S k pre post : occurs_n w k post -> occurs_n w (S k) (pre ++ w ++ post).

#[export] Hint Constructors matches : profile.

(** ** The matcher and the language *)

Section Lemmas.
Context (ic : bool).

(** Iterations that consume nothing can be dropped. *)
Lemma star_nonempty (r : regex) (w : list N) :
  matches ic (Star r) w -> w = [] \/ exists w1 w2, w1 <> [] /\ matches ic r w1 /\ matches ic (Star r) w2 /\ w = w1 ++ w2.
Proof.
  intros H. remember (Star r) as e eqn:He. induction H; try discriminate; injection He as ->; [by left|].
  destruct w1 as [|x w1]; [by apply IHmatches2|]. right. by exists (x :: w1), w2.
Qed.

Lemma char_matcher_spec (test : N -> bool) (s : list N) (k : list N -> bool) :
  char_matcher test s k = true <-> exists x q, s = x :: q /\ test x = true /\ k q = true.
Proof. destruct s as [|x q]; simpl; [naive_solver|]. rewrite andb_true_iff. naive_solver. Qed.

Lemma notclass_test (cs : list N) (x : N) :
  negb (existsb (fun a => canonicalize ic a =? canonicalize ic x)%N cs) = true <->
  Forall (fun a => canonicalize ic a <> canonicalize ic x) cs.
Proof.
  induction cs as [|a cs IH]; simpl; [split; by constructor|].
  rewrite negb_orb, andb_true_iff, Forall_cons, IH, negb_true_iff, N.eqb_neq. done.
Qed.

(** The rest of the input after one unit that passes the test. *)
Lemma char_matches (test : N -> bool) (P : list N -> Prop) (s : list N) (k : list N -> bool) :
  (forall p, P p <-> exists x, p = [x] /\ test x = true) ->
  char_matcher test s k = true <-> exists p q, s = p ++ q /\ P p /\ k q = true.
Proof.
  intros HP. rewrite char_matcher_spec. setoid_rewrite HP. split.
  - intros (x & q & -> & Ht & Hk). exists [x], q. naive_solver.
  - intros (p & q & -> & (x & -> & Ht) & Hk). naive_solver.
Qed.

Section Repeat.
Context (r : regex) (m : list N -> (list N -> bool) -> bool).

Lemma repeat0_sound :
  (forall s k, m s k = true -> exists p q, s = p ++ q /\ matches ic r p /\ k q = true) ->
  forall fuel s k, repeat0 m fuel s k = true -> exists p q, s = p ++ q /\ matches ic (Star r) p /\ k q = true.
Proof.
  intros Hm fuel. induction fuel as [|f IH]; intros s k H; [done|]. simpl in H.
  apply orb_true_iff in H as [H|H]; [|exists [], s; eauto with profile].
  apply Hm in H as (p & q & -> & Hp & Hq). apply andb_true_iff in Hq as [_ Hq].
  apply IH in Hq as (p' & q' & -> & Hp' & Hk). exists (p ++ p'), q'. rewrite app_assoc. eauto with profile.
Qed.

(** Fuel above the length of the input is enough. *)
Lemma repeat0_complete :
  (forall p q k, matches ic r p -> k q = true -> m (p ++ q) k = true) ->
  forall fuel p q k, matches ic (Star r) p -> k q = true -> (length (p ++ q) < fuel)%nat ->
  repeat0 m fuel (p ++ q) k = true.
Proof.
  intros Hm fuel. induction fuel as [|f IH]; intros p q k Hp Hk Hl; [lia|]. simpl.
  destruct (star_nonempty r p Hp) as [->|(p1 & p2 & Hne & H1 & H2 & ->)]; [simpl; by rewrite Hk, orb_true_r|].
  destruct p1 as [|x p1]; [done|].
  apply orb_true_iff. left. rewrite <- app_assoc. apply Hm; [done|]. apply andb_true_iff.
  rewrite negb_true_iff, Nat.eqb_neq. split; [|apply IH; [done|done|]]; rewrite ?length_app in *; simpl in *; rewrite ?length_app in *; lia.
Qed.

End Repeat.

(** The backtracking matcher ic of ECMA-262 succeeds exactly when a prefix
    of the input is in the language and the continuation accepts the
    rest. *)
Lemma matcher_spec (r : regex) (s : list N) (k : list N -> bool) :
  matcher ic r s k = true <-> exists p q, s = p ++ q /\ matches ic r p /\ k q = true.
Proof.
  revert s k. induction r as [|c|cs| | |r1 IH1 r2 IH2|r IH|r IH]; intros s k; cbn [matcher].
  - split; [exists [], s; eauto with profile|]. intros (p & q & -> & Hp & Hk). by inversion Hp; subst.
  - apply char_matches. intros p. split; [intros Hp; inversion Hp; subst; eexists; by rewrite N.eqb_eq|].
    intros (x & -> & Hx). constructor. by apply N.eqb_eq.
  - apply char_matches. intros p. split; [intros Hp; inversion Hp; subst; eexists; by rewrite notclass_test|].
    intros (x & -> & Hx). constructor. by apply notclass_test.
  - apply char_matches. intros p. split; [intros Hp; inversion Hp; subst; eexists; by rewrite negb_true_iff|].
    intros (x & -> & Hx). constructor. by apply negb_true_iff.
  - apply char_matches. intros p. split; [intros Hp; inversion Hp; subst; eexists; by split|].
    intros (x & -> & Hx). by constructor.
  - rewrite IH1. setoid_rewrite IH2. split.
    + intros (p & q & -> & Hp & p' & q' & -> & Hp' & Hk). exists (p ++ p'), q'. rewrite app_assoc. eauto with profile.
    + intros (p & q & -> & Hp & Hk). inversion Hp; subst. exists w1, (w2 ++ q). rewrite app_assoc. split_and!; [done|done|]. by exists w2, q.
  - split; [apply (repeat0_sound r); intros; by apply IH|]. intros (p & q & -> & Hp & Hk).
    apply (repeat0_complete r); [intros; apply IH; eauto|done|done|lia].
  - rewrite IH. split.
    + intros (p & q & -> & Hp & Hk). apply (repeat0_sound r) in Hk as (p' & q' & -> & Hp' & Hk); [|intros; by apply IH].
      exists (p ++ p'), q'. rewrite app_assoc. eauto with profile.
    + intros (p & q & -> & Hp & Hk). inversion Hp; subst. exists w1, (w2 ++ q). rewrite app_assoc.
      split_and!; [done|done|]. apply (repeat0_complete r); [intros; apply IH; eauto|done|done|lia].
Qed.

(** [test] finds a match exactly when some substring of the input is in
    the language of the pattern. *)
Lemma test_from_spec (r : regex) (s : list N) :
  test_from ic r s = true <-> exists pre w post, s = pre ++ w ++ post /\ matches ic r w.
Proof.
  induction s as [|x s IH]; simpl; rewrite orb_true_iff, matcher_spec.
  - split; [intros [(p & q & E & Hp & _)|?]; [by exists [], p, q|done]|].
    intros (pre & w & post & E & Hw). symmetry in E. apply app_eq_nil in E as [-> E]. left. by exists w, post.
  - rewrite IH. split.
    + intros [(p & q & E & Hp & _)|(pre & w & post & -> & Hw)]; [by exists [], p, q|by exists (x :: pre), w, post].
    + intros (pre & w & post & E & Hw). destruct pre as [|y pre]; [left; by exists w, post|].
      injection E as -> ->. right. eauto.
Qed.

Lemma matches_full (r : regex) (w : list N) : matches ic r w <-> matcher ic r w (fun q => bool_decide (q = [])) = true.
Proof.
  rewrite matcher_spec. split; [intros; exists w, []; rewrite app_nil_r; by rewrite bool_decide_eq_true_2|].
  intros (p & q & -> & Hp & Hq). apply bool_decide_eq_true_1 in Hq as ->. by rewrite app_nil_r.
Qed.

#[export] Instance matches_dec (r : regex) (w : list N) : Decision (matches ic r w).
Proof.
  destruct (matcher ic r w (fun q => bool_decide (q = []))) eqn:E; [left|right]; rewrite matches_full; congruence.
Defined.

(** A literal matches ic the strings equal to it up to case. *)
Lemma matches_lits (s : string) (w : list N) :
  matches ic (lits s) w <-> Forall2 (fun x c => canonicalize ic x = canonicalize ic c) w (code_units s).
Proof.
  unfold lits. generalize (code_units s) as l. intros l. revert w.
  induction l as [|c l IH]; intros w; simpl.
  - split; [intros Hw; inversion Hw; constructor|intros Hw; apply Forall2_nil_inv_r in Hw as ->; constructor].
  - split.
    + intros Hw. inversion Hw as [| | | | |? ? w1 w2 H1 H2| | |]; subst. inversion H1; subst.
      constructor; [done|]. by apply IH.
    + intros Hw. apply Forall2_cons_inv_r in Hw as (x & w' & Hx & Hw & ->).
      change (x :: w') with ([x] ++ w'). constructor; [by constructor|by apply IH].
Qed.

(** ** Inversion of the language on each construct *)

Lemma matches_empty (w : list N) : matches ic Empty w <-> w = [].
Proof. split; [by inversion 1|intros ->; constructor]. Qed.

Lemma matches_seq (r1 r2 : regex) (w : list N) :
  matches ic (Seq r1 r2) w <-> exists w1 w2, w = w1 ++ w2 /\ matches ic r1 w1 /\ matches ic r2 w2.
Proof. split; [inversion 1; subst; eauto|intros (w1 & w2 & -> & H1 & H2); by constructor]. Qed.

Lemma matches_char (c : N) (w : list N) :
  matches ic (Char c) w <-> Forall2 (fun x c => canonicalize ic x = canonicalize ic c) w [c].
Proof.
  split; [inversion 1; subst; by repeat constructor|].
  intros Hw. apply Forall2_cons_inv_r in Hw as (x & w' & Hx & Hw & ->).
  apply Forall2_nil_inv_r in Hw as ->. by constructor.
Qed.

Lemma matches_dot (w : list N) : matches ic Dot w <-> exists x, w = [x] /\ line_terminator x = false.
Proof. split; [inversion 1; subst; eauto|intros (x & -> & Hx); by constructor]. Qed.

Lemma matches_space (w : list N) : matches ic Space w <-> exists x, w = [x] /\ is_space x = true.
Proof. split; [inversion 1; subst; eauto|intros (x & -> & Hx); by constructor]. Qed.

Lemma matches_notclass (cs : list N) (w : list N) :
  matches ic (NotClass cs) w <-> exists x, w = [x] /\ Forall (fun a => canonicalize ic a <> canonicalize ic x) cs.
Proof. split; [inversion 1; subst; eauto|intros (x & -> & Hx); by constructor]. Qed.

(** A pattern that matches ic single units: its [*] matches ic the runs of
    such units and its [+] the nonempty runs. *)
Section OneUnit.
Context (r : regex) (P : N -> Prop) (HP : forall w, matches ic r w <-> exists x, w = [x] /\ P x).

Lemma matches_star_unit (w : list N) : matches ic (Star r) w <-> Forall P w.
Proof.
  split.
  - intros H. remember (Star r) as e eqn:He. induction H; try discriminate; injection He as ->; [constructor|].
    apply HP in H as (x & -> & Hx). constructor; [done|]. by apply IHmatches2.
  - induction w as [|x w IH]; intros Hw; [constructor|]. apply Forall_cons in Hw as [Hx Hw].
    change (x :: w) with ([x] ++ w). constructor; [apply HP; eauto|by apply IH].
Qed.

Lemma matches_plus_unit (w : list N) : matches ic (Plus r) w <-> w <> [] /\ Forall P w.
Proof.
  split.
  - inversion 1 as [| | | | | | | |? w1 w2 H1 H2]; subst. apply HP in H1 as (x & -> & Hx).
    split; [done|]. constructor; [done|]. by apply matches_star_unit.
  - intros [Hne Hw]. destruct w as [|x w]; [done|]. apply Forall_cons in Hw as [Hx Hw].
    change (x :: w) with ([x] ++ w). constructor; [apply HP; eauto|by apply matches_star_unit].
Qed.

End OneUnit.

End Lemmas.

(** [rx.test(s)] finds a match exactly when some substring of [s] is in
    the language of [rx]. *)
Lemma regex_test_spec (rx : regexp) (s : list N) :
  regex_test rx s = true <-> exists pre w post, s = pre ++ w ++ post /\ re_matches rx w.
Proof. apply test_from_spec. Qed.

(** ** Global matching of a literal *)

Section Literal.
Context (cs : list N) (Hcs : cs <> []).

Abbreviation lit := (foldr (fun c r => Seq (Char c) r) Empty cs).

Lemma matcher_st_lit (s : list N) (k : list N -> option (list N)) :
  matcher_st false lit s k = if bool_decide (cs `prefix_of` s) then k (drop (length cs) s) else None.
Proof.
  clear Hcs. revert s. induction cs as [|c cs' IH]; intros s; cbn [foldr matcher_st].
  - rewrite bool_decide_eq_true_2 by apply prefix_nil. done.
  - destruct s as [|x s]; cbn [char_matcher_st].
    + rewrite bool_decide_eq_false_2; [done|apply prefix_nil_not].
    + unfold canonicalize. cbn [andb]. rewrite IH. destruct (N.eqb_spec x c) as [->|Hne].
      * cbn [length drop]. case_bool_decide as H1; case_bool_decide as H2; try done.
        -- by destruct H2; apply prefix_cons.
        -- by destruct H1; apply prefix_cons_inv_2 in H2.
      * rewrite bool_decide_eq_false_2; [done|]. intros Hp%prefix_cons_inv_1. congruence.
Qed.

Lemma search_lit_sound (s pre w post : list N) :
  search false lit s = Some (pre, w, post) -> s = pre ++ cs ++ post /\ w = cs.
Proof.
  revert pre. induction s as [|x s IH]; intros pre; cbn [search]; rewrite matcher_st_lit; case_bool_decide as Hp.
  - apply prefix_nil_inv in Hp as ->. done.
  - done.
  - destruct Hp as [t ->]. rewrite drop_app_length, length_app, Nat.add_sub, take_app_length. by intros [= <- <- <-].
  - destruct (search false lit s) as [[[pre' w'] post']|]; [|done]. intros [= <- <- <-].
    destruct (IH pre' eq_refl) as [-> ->]. done.
Qed.

Lemma search_unfold (ic : bool) (r : regex) (s : list N) :
  search ic r s =
  match matcher_st ic r s Some with
  | Some rest => Some ([], take (length s - length rest) s, rest)
  | None => match s with [] => None | x :: s' => '(pre, w, post) ← search ic r s'; Some (x :: pre, w, post) end
  end.
Proof. by destruct s. Qed.

(** The search finds the leftmost occurrence. *)
Lemma search_lit_leftmost (pre post : list N) :
  exists pre' post', search false lit (pre ++ cs ++ post) = Some (pre', cs, post') /\ (length pre' <= length pre)%nat.
Proof.
  induction pre as [|x pre IH]; rewrite search_unfold; cbn [app].
  - rewrite matcher_st_lit, bool_decide_eq_true_2 by (by exists post).
    rewrite drop_app_length, length_app, Nat.add_sub, take_app_length. eexists [], post. split; [done|simpl; lia].
  - rewrite matcher_st_lit. case_bool_decide as Hp.
    + destruct Hp as [t Ht]. rewrite Ht, drop_app_length, length_app, Nat.add_sub, take_app_length.
      eexists [], t. split; [done|simpl; lia].
    + destruct IH as (pre' & post' & -> & Hl). eexists (x :: pre'), post'. split; [done|simpl; lia].
Qed.

Lemma occurs_n_app_l (k : nat) (m s : list N) : occurs_n cs k s -> occurs_n cs k (m ++ s).
Proof.
  induction 1 as [|k pre post Hp _]; [constructor|]. rewrite app_assoc. by constructor.
Qed.

Lemma occurs_n_le (k j : nat) (s : list N) : occurs_n cs k s -> (j <= k)%nat -> occurs_n cs j s.
Proof.
  intros H. revert j. induction H as [|k pre post _ IH]; intros [|j] Hj; try constructor; [lia|]. apply IH. lia.
Qed.

Lemma match_all_lit (fuel : nat) (s : list N) (ms : list (list N)) :
  match_all false lit fuel s = ms -> Forall (fun w => w = cs) ms /\ occurs_n cs (length ms) s.
Proof.
  revert s ms. induction fuel as [|f IH]; intros s ms <-; [split; constructor|]. cbn [match_all].
  destruct (search false lit s) as [[[pre w] post]|] eqn:E; [|split; constructor].
  apply search_lit_sound in E as [-> ->]. destruct cs as [|c cs']; [done|].
  destruct (IH post _ eq_refl) as [Hf Ho]. split; [by constructor|]. cbn [length]. by apply occ_S.
Qed.

Lemma match_all_step (f : nat) (s pre post : list N) :
  search false lit s = Some (pre, cs, post) -> match_all false lit (S f) s = cs :: match_all false lit f post.
Proof. intros E. cbn [match_all]. rewrite E. by destruct cs. Qed.

Lemma match_all_lit_complete (fuel k : nat) (s : list N) :
  occurs_n cs k s -> (length s < fuel)%nat -> (k <= length (match_all false lit fuel s))%nat.
Proof.
  assert (Hc : (1 <= length cs)%nat) by (destruct cs; [done|simpl; lia]).
  revert k s. induction fuel as [|f IH]; intros k s Ho Hl; [lia|]. destruct Ho as [|k pre post Ho]; [lia|].
  destruct (search_lit_leftmost pre post) as (pre' & post' & E & Hle).
  pose proof (search_lit_sound _ _ _ _ E) as [Heq _]. rewrite (match_all_step f _ _ _ E). cbn [length].
  apply le_n_S. rewrite !length_app in Hl.
  destruct (app_eq_app pre (cs ++ post) pre' (cs ++ post')) as (m & [[-> Hm]|[-> Hm]]); [congruence| |].
  - assert (Hpost : post' = drop (length cs) (m ++ cs) ++ post).
    { rewrite app_assoc in Hm. apply (f_equal (drop (length cs))) in Hm.
      rewrite drop_app_length in Hm. rewrite Hm, drop_app_le; [done|rewrite length_app; lia]. }
    apply IH; [rewrite Hpost; by apply occurs_n_app_l|].
    apply (f_equal length) in Heq. repeat rewrite length_app in Heq. repeat rewrite length_app in Hl. lia.
  - rewrite length_app in Hle. assert (m = []) as -> by (destruct m; [done|simpl in Hle; lia]).
    rewrite app_nil_l in Hm. apply app_inv_head in Hm as ->. apply IH; [done|lia].
Qed.

End Literal.

End Regex.
