(* ===== verification/Dom.v ===== *)
(** * The DOM as the page scripts see it

    An element is a record of the fields [main.js] reads or writes (tag
    name, attributes, [classList], [textContent], [parentNode] and the
    layout offsets [offsetTop]/[offsetHeight]); a document is a store
    [gmap nat node] of elements under their handles, with the connected
    elements in document order.  [classList] follows the DOMTokenList
    algorithms: an ordered set of tokens where [add] appends a missing token,
    [remove] deletes it and [toggle] does one or the other and returns
    whether the token is now present.  [getElementById] returns the first
    element in document order with the id, and [querySelectorAll] the
    elements matching one of the simple selectors the script uses, in
    document order. *)

From S2P Require Import Prelude.

(** ** DOMTokenList *)

Module ClassList.

Definition contains (c : string) (l : list string) : bool := bool_decide (c ∈ l).

Definition add (c : string) (l : list string) : list string :=
  if contains c l then l else l ++ [c].

Definition remove (c : string) (l : list string) : list string :=
  filter (fun x => x ≠ c) l.

(** [toggle(c)]: the new list and the value the call returns. *)
Definition toggle (c : string) (l : list string) : list string * bool :=
  if contains c l then (remove c l, false) else (l ++ [c], true).

End ClassList.

(** ** Elements and documents *)

Record node := mkNode {
  tagName : string;
  attributes : gmap string string;
  classList : list string;
  textContent : string;
  parentNode : option nat;
  offsetTop : Z;
  offsetHeight : Z
}.

Record document := mkDocument {
  nodes : gmap nat node;
  order : list nat
}.

Definition with_classList (f : list string -> list string) (n : node) : node :=
  mkNode (tagName n) (attributes n) (f (classList n)) (textContent n)
         (parentNode n) (offsetTop n) (offsetHeight n).

Definition with_attributes (f : gmap string string -> gmap string string) (n : node) : node :=
  mkNode (tagName n) (f (attributes n)) (classList n) (textContent n)
         (parentNode n) (offsetTop n) (offsetHeight n).

Definition with_textContent (s : string) (n : node) : node :=
  mkNode (tagName n) (attributes n) (classList n) s
         (parentNode n) (offsetTop n) (offsetHeight n).

(** A fresh element as the markup declares it. *)
Definition element (tag : string) (attrs : list (string * string)) (parent : option nat)
    (top height : Z) : node :=
  mkNode tag (list_to_map attrs) [] "" parent top height.

(** Apply an update to one element; a missing handle is left alone. *)
Definition modify (f : node -> node) (e : nat) (d : document) : document :=
  mkDocument (alter f e (nodes d)) (order d).

(** ** Reading an element *)

Definition getAttribute (d : document) (e : nat) (a : string) : option string :=
  nd ← nodes d !! e; attributes nd !! a.

Definition hasClass (d : document) (e : nat) (c : string) : bool :=
  match nodes d !! e with
  | Some nd => ClassList.contains c (classList nd)
  | None => false
  end.

Definition textOf (d : document) (e : nat) : option string :=
  textContent <$> nodes d !! e.

(** ** Writing an element *)

Definition classList_add (e : nat) (c : string) (d : document) : document :=
  modify (with_classList (ClassList.add c)) e d.

Definition classList_remove (e : nat) (c : string) (d : document) : document :=
  modify (with_classList (ClassList.remove c)) e d.

(** [e.classList.toggle(c)]: the new document and the returned boolean. *)
Definition classList_toggle (e : nat) (c : string) (d : document) : document * bool :=
  (modify (with_classList (fun l => (ClassList.toggle c l).1)) e d,
   negb (hasClass d e c)).

Definition setAttribute (e : nat) (a v : string) (d : document) : document :=
  modify (with_attributes (insert a v)) e d.

Definition setTextContent (e : nat) (s : string) (d : document) : document :=
  modify (with_textContent s) e d.

(** ** Queries *)

Definition getElementById (d : document) (id : string) : option nat :=
  List.find (fun e => bool_decide (getAttribute d e "id" = Some id)) (order d).

(** The attribute part of the selectors of [main.js]: [[a]] and [[a^="p"]]. *)
Inductive attr_test :=
  | AttrPresent
  | AttrPrefix (p : string).

Record selector := Sel {
  sel_tag : option string;
  sel_attr : option (string * attr_test)
}.

Definition attr_test_holds (t : attr_test) (v : string) : bool :=
  match t with
  | AttrPresent => true
  | AttrPrefix p => String.prefix p v
  end.

Definition matches (d : document) (s : selector) (e : nat) : bool :=
  match nodes d !! e with
  | None => false
  | Some nd =>
      match sel_tag s with Some t => bool_decide (tagName nd = t) | None => true end &&
      match sel_attr s with
      | Some (a, t) =>
          match attributes nd !! a with Some v => attr_test_holds t v | None => false end
      | None => true
      end
  end.

(** Whether [anc] is a proper ancestor of [e], following at most [fuel]
    [parentNode] links. *)
Fixpoint is_ancestor (fuel : nat) (d : document) (anc e : nat) : bool :=
  match fuel with
  | O => false
  | S f =>
      match nodes d !! e ≫= parentNode with
      | Some p => bool_decide (p = anc) || is_ancestor f d anc p
      | None => false
      end
  end.

(** [document.querySelectorAll(sel)] *)
Definition querySelectorAll (d : document) (s : selector) : list nat :=
  filter (fun e => matches d s e = true) (order d).

(** [root.querySelectorAll(sel)]: the matching descendants of [root]; a
    parent chain is never longer than the number of elements. *)
Definition querySelectorAll_in (d : document) (root : nat) (s : selector) : list nat :=
  filter (fun e => matches d s e && is_ancestor (length (order d)) d root e = true) (order d).

(** ** Tree mutation *)

(** [x] is [root] or one of its descendants. *)
Definition in_subtree (d : document) (root x : nat) : bool :=
  bool_decide (x = root) || is_ancestor (length (order d)) d root x.

(** On the reversed document order: [p] goes just before the first element
    that passes [test], that is just after the last one in document order. *)
Fixpoint insert_after_last_rev (test : nat -> bool) (p : nat) (l : list nat) : list nat :=
  match l with
  | [] => [p]
  | x :: l' => if test x then p :: x :: l' else x :: insert_after_last_rev test p l'
  end.

(** [parent.appendChild(child)] for a new node [nd]: it becomes the last
    child of [parent], right after [parent]'s subtree in tree order. *)
Definition appendChild (parent child : nat) (nd : node) (d : document) : document :=
  mkDocument
    (<[child := mkNode (tagName nd) (attributes nd) (classList nd) (textContent nd) (Some parent)
                  (offsetTop nd) (offsetHeight nd)]> (nodes d))
    (rev (insert_after_last_rev (in_subtree d parent) child (rev (order d)))).

(** [parent.removeChild(child)]: [child] and its subtree leave the
    document; [None] is the [NotFoundError] thrown when [child] is not a
    child of [parent]. *)
Definition removeChild (parent child : nat) (d : document) : option document :=
  match nodes d !! child with
  | Some nd =>
      if bool_decide (parentNode nd = Some parent)
      then Some (mkDocument (filter (fun kv : nat * node => in_subtree d child kv.1 = false) (nodes d))
                            (filter (fun x => in_subtree d child x = false) (order d)))
      else None
  | None => None
  end.

(** No element of [d] has [p] as its parent. *)
Definition childless (d : document) (p : nat) : Prop :=
  forall y nd, nodes d !! y = Some nd -> parentNode nd <> Some p.

(** Every parent an element names is an element of the document. *)
Definition parents_exist (d : document) : Prop :=
  forall y nd k, nodes d !! y = Some nd -> parentNode nd = Some k -> is_Some (nodes d !! k).

(** Every class list is duplicate-free, as a DOMTokenList's ordered set
    of tokens is. *)
Definition classlists_ok (d : document) : Prop :=
  map_Forall (fun _ nd => NoDup (classList nd)) (nodes d).

(** ** Layout equivalence

    Two documents have the same layout when they agree on everything but
    class lists and text: tags, attributes, parents, offsets and document
    order.  Class-list and text updates preserve it, and every query above
    respects it. *)

Definition skeleton (nd : node) : string * gmap string string * option nat * Z * Z :=
  (tagName nd, attributes nd, parentNode nd, offsetTop nd, offsetHeight nd).

Definition same_layout (d d' : document) : Prop :=
  skeleton <$> nodes d = skeleton <$> nodes d' /\ order d = order d'.

Definition tag_of (d : document) (x : nat) : option string := tagName <$> nodes d !! x.

(** ** DOMTokenList lemmas *)

Lemma ClassList_contains_add (c c' : string) (l : list string) :
  ClassList.contains c' (ClassList.add c l) = bool_decide (c' = c) || ClassList.contains c' l.
Proof.
  unfold ClassList.add, ClassList.contains. destruct (bool_decide_reflect (c ∈ l));
    repeat case_bool_decide; set_solver.
Qed.

Lemma ClassList_contains_remove (c c' : string) (l : list string) :
  ClassList.contains c' (ClassList.remove c l) = negb (bool_decide (c' = c)) && ClassList.contains c' l.
Proof.
  unfold ClassList.remove, ClassList.contains. repeat case_bool_decide; subst;
    rewrite ?list_elem_of_filter in *; naive_solver.
Qed.

Lemma ClassList_contains_toggle (c c' : string) (l : list string) :
  ClassList.contains c' (ClassList.toggle c l).1 =
  if bool_decide (c' = c) then negb (ClassList.contains c l) else ClassList.contains c' l.
Proof.
  unfold ClassList.toggle. destruct (ClassList.contains c l) eqn:E; simpl.
  - rewrite ClassList_contains_remove. by case_bool_decide; subst; rewrite ?E.
  - unfold ClassList.contains in *. repeat case_bool_decide; subst; set_solver.
Qed.

Lemma ClassList_toggle_result (c : string) (l : list string) :
  (ClassList.toggle c l).2 = negb (ClassList.contains c l).
Proof. unfold ClassList.toggle. by destruct (ClassList.contains c l). Qed.

Lemma ClassList_add_NoDup (c : string) (l : list string) : NoDup l -> NoDup (ClassList.add c l).
Proof.
  unfold ClassList.add, ClassList.contains. case_bool_decide; [done|].
  intros. apply NoDup_app. split_and!; [done| |apply NoDup_singleton]. set_solver.
Qed.

Lemma ClassList_remove_NoDup (c : string) (l : list string) : NoDup l -> NoDup (ClassList.remove c l).
Proof. apply NoDup_filter. Qed.

(** ** Frame lemmas *)

Lemma modify_order (f : node -> node) (e : nat) (d : document) :
  order (modify f e d) = order d.
Proof. done. Qed.

Lemma lookup_modify_eq (f : node -> node) (e : nat) (d : document) :
  nodes (modify f e d) !! e = f <$> nodes d !! e.
Proof. apply lookup_alter_eq. Qed.

Lemma lookup_modify_ne (f : node -> node) (e e' : nat) (d : document) :
  e ≠ e' -> nodes (modify f e d) !! e' = nodes d !! e'.
Proof. apply lookup_alter_ne. Qed.

(** A class-list update leaves attributes, text and layout alone. *)
Lemma getAttribute_classList (f : list string -> list string) (e e' : nat) (a : string) (d : document) :
  getAttribute (modify (with_classList f) e d) e' a = getAttribute d e' a.
Proof.
  unfold getAttribute. destruct (decide (e = e')) as [->|Hne].
  - rewrite lookup_modify_eq. by destruct (nodes d !! e').
  - by rewrite lookup_modify_ne.
Qed.

Lemma hasClass_classList_update (f : list string -> list string) (e e' : nat) (c : string) (d : document) :
  hasClass (modify (with_classList f) e d) e' c =
  if decide (e = e') then
    match nodes d !! e with Some nd => ClassList.contains c (f (classList nd)) | None => false end
  else hasClass d e' c.
Proof.
  unfold hasClass. case_decide as H.
  - subst. rewrite lookup_modify_eq. by destruct (nodes d !! e').
  - by rewrite lookup_modify_ne.
Qed.

Lemma hasClass_attributes (f : gmap string string -> gmap string string) (e e' : nat) (c : string) (d : document) :
  hasClass (modify (with_attributes f) e d) e' c = hasClass d e' c.
Proof.
  unfold hasClass. destruct (decide (e = e')) as [->|Hne].
  - rewrite lookup_modify_eq. by destruct (nodes d !! e').
  - by rewrite lookup_modify_ne.
Qed.

Lemma getAttribute_setAttribute (e e' : nat) (a a' v : string) (d : document) :
  getAttribute (setAttribute e a v d) e' a' =
  if decide (e = e' /\ a = a' /\ is_Some (nodes d !! e)) then Some v else getAttribute d e' a'.
Proof.
  unfold getAttribute, setAttribute. destruct (decide (e = e')) as [->|Hne].
  - rewrite lookup_modify_eq. destruct (nodes d !! e') as [nd|] eqn:E; simpl.
    + destruct (decide (a = a')) as [->|Ha].
      * rewrite lookup_insert_eq. case_decide; naive_solver.
      * rewrite lookup_insert_ne by done. case_decide; naive_solver.
    + case_decide; naive_solver.
  - rewrite lookup_modify_ne by done. case_decide; naive_solver.
Qed.

(** Updates of one element leave the queries' structure alone. *)
Lemma nodes_modify_dom (f : node -> node) (e : nat) (d : document) (e' : nat) :
  is_Some (nodes (modify f e d) !! e') <-> is_Some (nodes d !! e').
Proof.
  destruct (decide (e = e')) as [->|Hne].
  - rewrite lookup_modify_eq. by rewrite fmap_is_Some.
  - by rewrite lookup_modify_ne.
Qed.

#[export] Hint Rewrite getAttribute_classList hasClass_attributes modify_order : profile_rw.

#[export] Instance same_layout_equiv : Equivalence same_layout.
Proof.
  split.
  - by intros d.
  - intros d d' [H1 H2]. by split.
  - intros d1 d2 d3 [H1 H2] [H3 H4]. split; congruence.
Qed.

Lemma skeleton_lookup (d d' : document) (e : nat) :
  same_layout d d' -> skeleton <$> nodes d !! e = skeleton <$> nodes d' !! e.
Proof. intros [H _]. by rewrite <- !lookup_fmap, H. Qed.

(** Updates that keep the skeleton of the element they touch. *)
Lemma modify_same_layout (f : node -> node) (e : nat) (d : document) :
  (forall nd, skeleton (f nd) = skeleton nd) -> same_layout (modify f e d) d.
Proof.
  intros Hf. split; [|done]. apply map_eq. intros i. rewrite !lookup_fmap.
  destruct (decide (e = i)) as [->|Hne].
  - rewrite lookup_modify_eq. destruct (nodes d !! i); simpl; by rewrite ?Hf.
  - by rewrite lookup_modify_ne.
Qed.

Lemma classList_add_layout (e : nat) (c : string) (d : document) :
  same_layout (classList_add e c d) d.
Proof. by apply modify_same_layout. Qed.

Lemma classList_remove_layout (e : nat) (c : string) (d : document) :
  same_layout (classList_remove e c d) d.
Proof. by apply modify_same_layout. Qed.

Lemma classList_toggle_layout (e : nat) (c : string) (d : document) :
  same_layout (classList_toggle e c d).1 d.
Proof. by apply modify_same_layout. Qed.

Lemma setTextContent_layout (e : nat) (s : string) (d : document) :
  same_layout (setTextContent e s d) d.
Proof. by apply modify_same_layout. Qed.

#[export] Hint Resolve classList_add_layout classList_remove_layout
  classList_toggle_layout setTextContent_layout : profile.

(** Case on the element [e] in two documents of the same layout. *)
Ltac skeleton_cases d d' e H :=
  let E := fresh "E" in
  pose proof (skeleton_lookup d d' e H) as E;
  destruct (nodes d !! e), (nodes d' !! e); simplify_eq/=; [|done..];
  try unfold skeleton in E; simplify_eq;
  repeat match goal with Hx : ?f _ = ?f _ |- _ => rewrite Hx; clear Hx end.

#[export] Instance getAttribute_proper : Proper (same_layout ==> eq ==> eq ==> eq) getAttribute.
Proof.
  intros d d' H e ? <- a ? <-. unfold getAttribute.
  skeleton_cases d d' e H. done.
Qed.

#[export] Instance matches_proper : Proper (same_layout ==> eq ==> eq ==> eq) matches.
Proof.
  intros d d' H s ? <- e ? <-. unfold matches.
  skeleton_cases d d' e H. done.
Qed.

Lemma parent_lookup (d d' : document) (e : nat) :
  same_layout d d' -> nodes d !! e ≫= parentNode = nodes d' !! e ≫= parentNode.
Proof. intros H. skeleton_cases d d' e H. simpl. congruence. Qed.

Lemma is_ancestor_layout (fuel : nat) (d d' : document) (anc e : nat) :
  same_layout d d' -> is_ancestor fuel d anc e = is_ancestor fuel d' anc e.
Proof.
  intros H. revert e. induction fuel as [|f IH]; intros e; [done|].
  simpl. rewrite (parent_lookup d d' e H).
  destruct (nodes d' !! e ≫= parentNode); [by rewrite IH|done].
Qed.

#[export] Instance querySelectorAll_in_proper :
  Proper (same_layout ==> eq ==> eq ==> eq) querySelectorAll_in.
Proof.
  intros d d' H r ? <- s ? <-. unfold querySelectorAll_in.
  destruct H as [H1 H2]. rewrite <- H2.
  apply list_filter_iff. intros e.
  by rewrite (matches_proper d d' (conj H1 H2) s s eq_refl e e eq_refl),
    (is_ancestor_layout _ d d' r e (conj H1 H2)).
Qed.

#[export] Instance getElementById_proper : Proper (same_layout ==> eq ==> eq) getElementById.
Proof.
  intros d d' H id ? <-. unfold getElementById. pose proof H as [_ H2].
  rewrite <- H2. clear H2. induction (order d) as [|x l IH]; [done|]. simpl.
  by rewrite (getAttribute_proper d d' H x x eq_refl "id" "id" eq_refl), IH.
Qed.

(** ** Class lists, one token at a time *)

Ltac class_cases :=
  repeat first [case_bool_decide | case_decide]; repeat case_match; simplify_eq/=;
  repeat match goal with |- context [ClassList.contains ?c ?l] => destruct (ClassList.contains c l) end;
  naive_solver.

Lemma hasClass_add (e x : nat) (c c' : string) (d : document) :
  hasClass (classList_add e c d) x c' =
  hasClass d x c' || bool_decide (e = x /\ c' = c /\ is_Some (nodes d !! e)).
Proof.
  unfold classList_add. rewrite hasClass_classList_update. unfold hasClass.
  destruct (decide (e = x)) as [->|Hne].
  - destruct (nodes d !! x); simpl; rewrite ?ClassList_contains_add; class_cases.
  - class_cases.
Qed.

Lemma hasClass_remove (e x : nat) (c c' : string) (d : document) :
  hasClass (classList_remove e c d) x c' =
  hasClass d x c' && negb (bool_decide (e = x /\ c' = c)).
Proof.
  unfold classList_remove. rewrite hasClass_classList_update. unfold hasClass.
  destruct (decide (e = x)) as [->|Hne].
  - destruct (nodes d !! x); simpl; rewrite ?ClassList_contains_remove; class_cases.
  - class_cases.
Qed.

Lemma hasClass_toggle (e x : nat) (c c' : string) (d : document) :
  hasClass (classList_toggle e c d).1 x c' =
  if bool_decide (e = x /\ c' = c /\ is_Some (nodes d !! e)) then negb (hasClass d x c')
  else hasClass d x c'.
Proof.
  unfold classList_toggle. simpl. rewrite hasClass_classList_update. unfold hasClass.
  destruct (decide (e = x)) as [->|Hne].
  - destruct (nodes d !! x); simpl; rewrite ?ClassList_contains_toggle; class_cases.
  - class_cases.
Qed.

Lemma getAttribute_text (e x : nat) (s a : string) (d : document) :
  getAttribute (setTextContent e s d) x a = getAttribute d x a.
Proof. apply getAttribute_proper; [apply setTextContent_layout|done..]. Qed.

#[export] Hint Rewrite hasClass_add hasClass_remove getAttribute_text : profile_rw.

(** ** Tags and existence *)

Lemma tag_of_layout (d d' : document) (x : nat) :
  same_layout d d' -> tag_of d x = tag_of d' x.
Proof. intros H. unfold tag_of. skeleton_cases d d' x H. done. Qed.

Lemma layout_is_Some (d d' : document) (x : nat) :
  same_layout d d' -> is_Some (nodes d !! x) <-> is_Some (nodes d' !! x).
Proof.
  intros H. pose proof (skeleton_lookup d d' x H) as E.
  rewrite <- !(fmap_is_Some skeleton), E. done.
Qed.

Lemma tag_of_setAttribute (e x : nat) (a v : string) (d : document) :
  tag_of (setAttribute e a v d) x = tag_of d x.
Proof.
  unfold tag_of, setAttribute. destruct (decide (e = x)) as [->|Hne].
  - rewrite lookup_modify_eq. by destruct (nodes d !! x).
  - by rewrite lookup_modify_ne.
Qed.

Lemma is_Some_setAttribute (e x : nat) (a v : string) (d : document) :
  is_Some (nodes (setAttribute e a v d) !! x) <-> is_Some (nodes d !! x).
Proof. apply nodes_modify_dom. Qed.

(** An element a query returns exists. *)
Lemma querySelectorAll_exists (d : document) (s : selector) (x : nat) :
  x ∈ querySelectorAll d s -> is_Some (nodes d !! x).
Proof.
  unfold querySelectorAll. rewrite list_elem_of_filter. intros [H _].
  unfold matches in H. destruct (nodes d !! x); [by eexists|done].
Qed.

Lemma querySelectorAll_in_exists (d : document) (r : nat) (s : selector) (x : nat) :
  x ∈ querySelectorAll_in d r s -> is_Some (nodes d !! x).
Proof.
  unfold querySelectorAll_in. rewrite list_elem_of_filter. intros [H _].
  unfold matches in H. destruct (nodes d !! x); [by eexists|done].
Qed.

Lemma querySelectorAll_in_tag (d : document) (r : nat) (t : string) (x : nat) :
  x ∈ querySelectorAll_in d r (Sel (Some t) None) -> tag_of d x = Some t.
Proof.
  unfold querySelectorAll_in, tag_of. rewrite list_elem_of_filter. intros [H _].
  unfold matches in H. simpl in H. destruct (nodes d !! x); simpl in *; [|done].
  apply andb_prop in H as [H _]. apply andb_prop in H as [H _].
  case_bool_decide; [by subst|done].
Qed.

Lemma getAttribute_layout (d d' : document) (e : nat) (a : string) :
  same_layout d d' -> getAttribute d e a = getAttribute d' e a.
Proof. intros H. by apply getAttribute_proper. Qed.

(** Close a goal about class membership after the [hasClass_*] rewrites:
    case on the decided propositions and on the remaining class atoms. *)
Ltac class_solver :=
  repeat (case_bool_decide || case_decide); destruct_and?; simplify_eq;
  repeat match goal with |- context [hasClass ?d ?x ?c] => destruct (hasClass d x c) end;
  naive_solver.

Lemma hasClass_setAttribute (e x : nat) (a v c : string) (d : document) :
  hasClass (setAttribute e a v d) x c = hasClass d x c.
Proof. apply hasClass_attributes. Qed.

Lemma tag_of_modify_classList (f : list string -> list string) (e x : nat) (d : document) :
  tag_of (modify (with_classList f) e d) x = tag_of d x.
Proof. apply tag_of_layout, modify_same_layout. done. Qed.

#[export] Hint Rewrite hasClass_setAttribute tag_of_setAttribute tag_of_modify_classList : profile_rw.

Lemma textOf_setTextContent (e x : nat) (s : string) (d : document) :
  textOf (setTextContent e s d) x = if decide (e = x) then (fun _ => s) <$> nodes d !! e else textOf d x.
Proof.
  unfold textOf, setTextContent. case_decide as H.
  - subst. rewrite lookup_modify_eq. by destruct (nodes d !! x).
  - by rewrite lookup_modify_ne.
Qed.

Lemma textOf_setTextContent_eq (e : nat) (s : string) (d : document) :
  is_Some (nodes d !! e) -> textOf (setTextContent e s d) e = Some s.
Proof.
  intros [nd E]. rewrite textOf_setTextContent, decide_True by done. by rewrite E.
Qed.

(** ** Appending and removing a leaf *)

Lemma is_ancestor_child (fuel : nat) (d : document) (anc x : nat) :
  is_ancestor fuel d anc x = true -> exists y nd, nodes d !! y = Some nd /\ parentNode nd = Some anc.
Proof.
  revert x. induction fuel as [|f IH]; intros x H; [done|]. simpl in H.
  destruct (nodes d !! x) as [nd|] eqn:Ex; [|done]. simpl in H.
  destruct (parentNode nd) as [q|] eqn:Eq; [|done].
  apply orb_true_iff in H as [H|H]; [|by apply IH in H].
  apply bool_decide_eq_true_1 in H. subst q. by exists x, nd.
Qed.

Lemma in_subtree_childless (d : document) (p x : nat) :
  childless d p -> in_subtree d p x = bool_decide (x = p).
Proof.
  intros Hc. unfold in_subtree. destruct (is_ancestor _ d p x) eqn:E; [|by rewrite orb_false_r].
  destruct (is_ancestor_child _ _ _ _ E) as (y & nd & Hy & Hp). by destruct (Hc y nd Hy).
Qed.

Lemma removeChild_leaf (d : document) (par p : nat) (nd : node) :
  nodes d !! p = Some nd -> parentNode nd = Some par -> childless d p ->
  exists d', removeChild par p d = Some d' /\ nodes d' = delete p (nodes d).
Proof.
  intros Hp Hpar Hc. unfold removeChild. rewrite Hp, bool_decide_eq_true_2 by done.
  eexists. split; [done|]. simpl. apply map_eq. intros i. rewrite map_lookup_filter.
  destruct (decide (i = p)) as [->|Hi].
  - rewrite lookup_delete_eq, Hp. simpl. rewrite in_subtree_childless by done.
    by rewrite option_guard_False by (rewrite bool_decide_eq_true_2; done).
  - rewrite lookup_delete_ne by done. destruct (nodes d !! i); simpl; [|done].
    rewrite in_subtree_childless by done.
    by rewrite option_guard_True by (by rewrite bool_decide_eq_false_2).
Qed.

(** [removeChild] adds no element. *)
Lemma removeChild_absent (par x k : nat) (d d' : document) :
  removeChild par x d = Some d' -> nodes d !! k = None -> nodes d' !! k = None.
Proof.
  unfold removeChild. intros Hr Hk. destruct (nodes d !! x); [|done].
  case_bool_decide; [|done]. injection Hr as <-. simpl. by rewrite map_lookup_filter, Hk.
Qed.

Lemma appendChild_nodes (par p : nat) (nd : node) (d : document) :
  nodes (appendChild par p nd d) =
  <[p := mkNode (tagName nd) (attributes nd) (classList nd) (textContent nd) (Some par) (offsetTop nd) (offsetHeight nd)]>
    (nodes d).
Proof. reflexivity. Qed.

Lemma getElementById_exists (d : document) (id : string) (e : nat) :
  getElementById d id = Some e -> is_Some (nodes d !! e).
Proof.
  unfold getElementById. intros H. apply find_some in H as [_ H].
  apply bool_decide_eq_true_1 in H. unfold getAttribute in H.
  destruct (nodes d !! e); [by eexists|done].
Qed.

(** ** Class lists stay duplicate-free *)

Lemma classlists_ok_modify (f : node -> node) (e : nat) (d : document) :
  (forall nd, NoDup (classList nd) -> NoDup (classList (f nd))) -> classlists_ok d -> classlists_ok (modify f e d).
Proof.
  intros Hf Hd i nd Hi. unfold modify in Hi. simpl in Hi. apply lookup_alter_Some in Hi as [(<- & nd0 & H0 & ->)|(_ & Hi)].
  - by apply Hf, (Hd e).
  - by apply (Hd i).
Qed.

Lemma classList_add_ok (e : nat) (c : string) (d : document) : classlists_ok d -> classlists_ok (classList_add e c d).
Proof. apply classlists_ok_modify. intros nd. apply ClassList_add_NoDup. Qed.

Lemma classList_remove_ok (e : nat) (c : string) (d : document) : classlists_ok d -> classlists_ok (classList_remove e c d).
Proof. apply classlists_ok_modify. intros nd. apply ClassList_remove_NoDup. Qed.

Lemma classList_toggle_ok (e : nat) (c : string) (d : document) : classlists_ok d -> classlists_ok (classList_toggle e c d).1.
Proof.
  apply classlists_ok_modify. intros nd H. simpl. unfold ClassList.toggle.
  destruct (ClassList.contains c (classList nd)) eqn:E; simpl; [by apply ClassList_remove_NoDup|].
  pose proof (ClassList_add_NoDup c _ H) as H'. unfold ClassList.add in H'. by rewrite E in H'.
Qed.

Lemma setAttribute_ok (e : nat) (a v : string) (d : document) : classlists_ok d -> classlists_ok (setAttribute e a v d).
Proof. by apply classlists_ok_modify. Qed.

Lemma setTextContent_ok (e : nat) (s : string) (d : document) : classlists_ok d -> classlists_ok (setTextContent e s d).
Proof. by apply classlists_ok_modify. Qed.

Lemma appendChild_ok (par p : nat) (nd : node) (d : document) :
  NoDup (classList nd) -> classlists_ok d -> classlists_ok (appendChild par p nd d).
Proof. intros Hn Hd. unfold classlists_ok. rewrite appendChild_nodes. by apply map_Forall_insert_2. Qed.

Lemma removeChild_ok (par x : nat) (d d' : document) :
  removeChild par x d = Some d' -> classlists_ok d -> classlists_ok d'.
Proof.
  unfold removeChild. intros Hr Hd. destruct (nodes d !! x); [|done]. case_bool_decide; [|done].
  injection Hr as <-. intros i nd Hi. apply map_lookup_filter_Some in Hi as [Hi _]. by apply (Hd i).
Qed.

#[export] Hint Resolve classList_add_ok classList_remove_ok classList_toggle_ok setAttribute_ok setTextContent_ok : profile.

(** ** Frame lemmas: updates that keep the skeleton commute with the tree
    mutations *)

Lemma in_subtree_layout (d d' : document) (root x : nat) :
  same_layout d d' -> in_subtree d root x = in_subtree d' root x.
Proof. intros H. unfold in_subtree. rewrite (proj2 H). by rewrite (is_ancestor_layout _ d d' _ _ H). Qed.

Lemma insert_after_last_rev_ext (t1 t2 : nat -> bool) (p : nat) (l : list nat) :
  (forall x, t1 x = t2 x) -> insert_after_last_rev t1 p l = insert_after_last_rev t2 p l.
Proof. intros H. induction l as [|x l IH]; simpl; [done|]. by rewrite H, IH. Qed.

Section Frame.
Context (f : node -> node) (Hf : forall nd, skeleton (f nd) = skeleton nd).

Lemma modify_parentNode (nd : node) : parentNode (f nd) = parentNode nd.
Proof. pose proof (Hf nd) as H. unfold skeleton in H. by simplify_eq. Qed.

Lemma appendChild_modify (e par p : nat) (nd : node) (d : document) :
  e ≠ p -> modify f e (appendChild par p nd d) = appendChild par p nd (modify f e d).
Proof.
  intros Hne. assert (Hl : same_layout (modify f e d) d) by (by apply modify_same_layout).
  unfold appendChild. rewrite modify_order. unfold modify at 1. cbn [nodes order]. f_equal.
  - by rewrite alter_insert_ne.
  - f_equal. apply insert_after_last_rev_ext. intros x. by apply in_subtree_layout.
Qed.

Lemma removeChild_modify (e par x : nat) (d : document) :
  removeChild par x (modify f e d) = modify f e <$> removeChild par x d.
Proof.
  assert (Hl : same_layout (modify f e d) d) by (by apply modify_same_layout).
  assert (Hin : forall y, in_subtree (modify f e d) x y = in_subtree d x y) by (intros; by apply in_subtree_layout).
  unfold removeChild. destruct (nodes d !! x) as [nd|] eqn:E.
  - assert (E' : nodes (modify f e d) !! x = Some (if decide (e = x) then f nd else nd)).
    { destruct (decide (e = x)) as [->|]; [by rewrite lookup_modify_eq, E|by rewrite lookup_modify_ne, E]. }
    rewrite E'. assert (Hp : parentNode (if decide (e = x) then f nd else nd) = parentNode nd)
      by (case_decide; [apply modify_parentNode|done]).
    rewrite Hp. case_bool_decide; [|done]. cbn [fmap option_fmap option_map].
    f_equal. refine (f_equal2 mkDocument _ _).
    + apply map_eq. intros i. rewrite map_lookup_filter. change (nodes (modify f e d)) with (alter f e (nodes d)).
      destruct (decide (e = i)) as [->|Hne].
      * rewrite !lookup_alter_eq. cbn [nodes]. rewrite map_lookup_filter. destruct (nodes d !! i); simpl; [|done].
        rewrite Hin. by case_guard.
      * rewrite !lookup_alter_ne by done. cbn [nodes]. rewrite map_lookup_filter. destruct (nodes d !! i); simpl; [|done]. by rewrite Hin.
    + apply list_filter_iff. intros y. by rewrite Hin.
  - assert (E' : nodes (modify f e d) !! x = None).
    { destruct (decide (e = x)) as [->|]; [by rewrite lookup_modify_eq, E|by rewrite lookup_modify_ne, E]. }
    by rewrite E'.
Qed.

End Frame.
