(* ===== verification/Navigation.v ===== *)
(** * Navigation controller: [initNavigation] of [src/js/main.js]

    [initNavigation] looks up [#navbar], [#nav-toggle] and [#nav-links],
    applies [handleScroll] once, registers the toggle's click handler and a
    close handler on every link of the list (only when both the toggle and
    the list exist), collects [section[id]], and registers [handleScroll]
    and then [highlightNav] on [scroll].  What the closures capture is the
    record [nav_env]; each handler is a function on the document; an event
    runs the handlers registered for it in registration order.  The menu's
    reachable states are a step relation, and the menu invariant is proved
    by induction on it. *)

From S2P Require Import Prelude JsNum Dom.

Module Navigation.

(** What the handlers registered by [initNavigation] capture. *)
Record nav_env := NavEnv {
  navbar : nat;
  (** [(navToggle, navLinks)] when both exist: the click handlers are
      registered only then (line 32). *)
  menu : option (nat * nat);
  (** [navLinks], possibly null, as read by [highlightNav]. *)
  navLinks : option nat;
  (** [navLinks.querySelectorAll('a')] at initialisation: the links that
      received the close handler. *)
  menu_links : list nat;
  (** [document.querySelectorAll('section[id]')] at initialisation. *)
  sections : list nat
}.

Definition sel_a : selector := Sel (Some "a") None.
Definition sel_section_id : selector := Sel (Some "section") (Some ("id", AttrPresent)).

(** [handleScroll] (lines 20-26). *)
Definition handleScroll (env : nav_env) (scrollY : Q) (d : document) : document :=
  if 50 <q? scrollY then classList_add (navbar env) "scrolled" d
  else classList_remove (navbar env) "scrolled" d.

(** The toggle's click handler (lines 33-37). *)
Definition toggle_click (navToggle navLinks : nat) (d : document) : document :=
  let '(d1, isOpen) := classList_toggle navLinks "open" d in
  let '(d2, _) := classList_toggle navToggle "active" d1 in
  setAttribute navToggle "aria-expanded" (js_bool_to_string isOpen) d2.

(** A link's close handler (lines 42-46). *)
Definition link_click (navToggle navLinks : nat) (d : document) : document :=
  setAttribute navToggle "aria-expanded" "false"
    (classList_remove navToggle "active" (classList_remove navLinks "open" d)).

(** ["#" + id] where [id] is [section.getAttribute('id')], possibly null. *)
Definition hash_of (id : option string) : string :=
  "#" +:+ match id with Some s => s | None => "null" end.

(** [scrollPos >= top && scrollPos < top + height] (line 60). *)
Definition section_in_view (d : document) (scrollPos : Q) (s : nat) : bool :=
  match nodes d !! s with
  | Some nd => (zq (offsetTop nd) <=q? scrollPos) && (scrollPos <q? zq (offsetTop nd + offsetHeight nd))
  | None => false
  end.

(** The inner loop (lines 62-67): clear [active] on a link, then set it if
    its [href] is ["#" + id]. *)
Definition mark_link (target : string) (d : document) (a : nat) : document :=
  let d' := classList_remove a "active" d in
  if bool_decide (getAttribute d' a "href" = Some target) then classList_add a "active" d' else d'.

Definition mark_links (target : string) (links : list nat) (d : document) : document :=
  foldl (mark_link target) d links.

(** [allLinks] (line 61), read at each scroll event. *)
Definition all_links (env : nav_env) (d : document) : list nat :=
  match navLinks env with
  | Some l => querySelectorAll_in d l sel_a
  | None => []
  end.

(** One iteration of the outer loop (lines 55-68). *)
Definition highlight_section (env : nav_env) (scrollPos : Q) (d : document) (s : nat) : document :=
  if section_in_view d scrollPos s
  then mark_links (hash_of (getAttribute d s "id")) (all_links env d) d
  else d.

(** [highlightNav] (lines 52-70). *)
Definition highlightNav (env : nav_env) (scrollY : Q) (d : document) : document :=
  foldl (highlight_section env (scrollY + 200)) d (sections env).

(** [initNavigation] (lines 12-73): [None] when [#navbar] is missing, in
    which case nothing is registered and the document is unchanged. *)
Definition initNavigation (scrollY : Q) (d : document) : option nav_env * document :=
  match getElementById d "navbar" with
  | None => (None, d)
  | Some nb =>
      let t := getElementById d "nav-toggle" in
      let l := getElementById d "nav-links" in
      let env0 := NavEnv nb None l [] [] in
      let d1 := handleScroll env0 scrollY d in
      let m := match t, l with Some t, Some l => Some (t, l) | _, _ => None end in
      let links := match m with Some (_, l) => querySelectorAll_in d1 l sel_a | None => [] end in
      (Some (NavEnv nb m l links (querySelectorAll d1 sel_section_id)), d1)
  end.

(** The events the registered handlers react to. *)
Inductive nav_event :=
  | Scroll (scrollY : Q)      (** a [scroll] event, with [window.scrollY] *)
  | ClickToggle               (** a click reaching [#nav-toggle] *)
  | ClickLink (a : nat).      (** a click reaching the link [a] *)

(** The handlers an event runs, in registration order. *)
Definition nav_handle (env : nav_env) (ev : nav_event) (d : document) : document :=
  match ev with
  | Scroll y => highlightNav env y (handleScroll env y d)
  | ClickToggle =>
      match menu env with Some (t, l) => toggle_click t l d | None => d end
  | ClickLink a =>
      match menu env with
      | Some (t, l) => if bool_decide (a ∈ menu_links env) then link_click t l d else d
      | None => d
      end
  end.

(** Reachable documents from [d0] under the registered handlers. *)
Inductive nav_reach (env : nav_env) (d0 : document) : document -> Prop :=
  | reach_init : nav_reach env d0 d0
  | reach_step d ev : nav_reach env d0 d -> nav_reach env d0 (nav_handle env ev d).

(** ** The menu's states *)

(** The menu invariant: both elements exist, the toggle is not a link (so
    [highlightNav] never writes its class), the list is [open] exactly when
    the toggle is [active], and [aria-expanded] spells that state. *)
Definition menu_inv (t l : nat) (d : document) : Prop :=
  is_Some (nodes d !! t) /\ is_Some (nodes d !! l) /\ tag_of d t ≠ Some "a" /\
  hasClass d l "open" = hasClass d t "active" /\
  getAttribute d t "aria-expanded" = Some (js_bool_to_string (hasClass d l "open")).

(** The closed menu, as the markup declares it and as a link click leaves it. *)
Definition menu_closed (t l : nat) (d : document) : Prop :=
  hasClass d l "open" = false /\ hasClass d t "active" = false /\
  getAttribute d t "aria-expanded" = Some "false".

Definition menu_opened (t l : nat) (d : document) : Prop :=
  hasClass d l "open" = true /\ hasClass d t "active" = true /\
  getAttribute d t "aria-expanded" = Some "true".

(** ** A small page: a navigation bar with a toggle and two links, and two
    sections of 600 pixels. *)

Definition demo_page : document :=
  mkDocument
    (list_to_map
       [(1%nat, element "nav" [("id", "navbar")] None 0 80);
        (2%nat, element "button" [("id", "nav-toggle"); ("aria-expanded", "false")] (Some 1%nat) 0 40);
        (3%nat, element "ul" [("id", "nav-links")] (Some 1%nat) 0 40);
        (4%nat, element "a" [("href", "#about")] (Some 3%nat) 0 20);
        (5%nat, element "a" [("href", "#skills")] (Some 3%nat) 0 20);
        (6%nat, element "section" [("id", "about")] None 0 600);
        (7%nat, element "section" [("id", "skills")] None 600 600)])
    [1%nat; 2%nat; 3%nat; 4%nat; 5%nat; 6%nat; 7%nat].

Definition demo_env : nav_env :=
  match (initNavigation 0 demo_page).1 with Some env => env | None => NavEnv 0 None None [] [] end.

(** ** Frame lemmas of the handlers *)

#[export] Instance section_in_view_proper :
  Proper (same_layout ==> eq ==> eq ==> eq) section_in_view.
Proof.
  intros d d' H p ? <- s ? <-. unfold section_in_view. skeleton_cases d d' s H. done.
Qed.

#[export] Instance all_links_proper : Proper (eq ==> same_layout ==> eq) all_links.
Proof.
  intros env ? <- d d' H. unfold all_links. destruct (navLinks env); [|done].
  by apply querySelectorAll_in_proper.
Qed.

Lemma mark_link_layout (tgt : string) (d : document) (a : nat) :
  same_layout (mark_link tgt d a) d.
Proof.
  unfold mark_link. case_bool_decide.
  - by rewrite classList_add_layout, classList_remove_layout.
  - apply classList_remove_layout.
Qed.

Lemma mark_links_layout (tgt : string) (links : list nat) (d : document) :
  same_layout (mark_links tgt links d) d.
Proof.
  apply (foldl_invariant (fun x => same_layout x d)); [done|].
  intros b a _ Hb. by rewrite mark_link_layout.
Qed.

Lemma highlight_section_layout (env : nav_env) (p : Q) (d : document) (s : nat) :
  same_layout (highlight_section env p d s) d.
Proof.
  unfold highlight_section. destruct (section_in_view d p s); [|done].
  apply mark_links_layout.
Qed.

Lemma highlightNav_layout (env : nav_env) (y : Q) (d : document) :
  same_layout (highlightNav env y d) d.
Proof.
  apply (foldl_invariant (fun x => same_layout x d)); [done|].
  intros b a _ Hb. by rewrite highlight_section_layout.
Qed.

Lemma handleScroll_layout (env : nav_env) (y : Q) (d : document) :
  same_layout (handleScroll env y d) d.
Proof. unfold handleScroll. case_bool_decide; auto with profile. Qed.

#[export] Hint Resolve mark_links_layout highlightNav_layout handleScroll_layout : profile.

(** What one pass of the inner loop leaves on a link. *)
Lemma mark_link_hasClass (tgt : string) (d : document) (a x : nat) (c : string) :
  hasClass (mark_link tgt d a) x c =
  if bool_decide (x = a /\ c = "active" /\ is_Some (nodes d !! a))
  then bool_decide (getAttribute d a "href" = Some tgt) else hasClass d x c.
Proof.
  unfold mark_link. rewrite (getAttribute_layout _ d a "href" (classList_remove_layout a "active" d)).
  assert (is_Some (nodes (classList_remove a "active" d) !! a) <-> is_Some (nodes d !! a))
    by apply layout_is_Some, classList_remove_layout.
  unfold hasClass at 2.
  case_bool_decide; rewrite ?hasClass_add, hasClass_remove; unfold hasClass;
    destruct (nodes d !! x) eqn:E; class_cases.
Qed.

(** The inner loop sets [active] on exactly the links whose [href] is the
    target, and touches nothing else. *)
Lemma mark_links_hasClass (tgt : string) (links : list nat) (d : document) (x : nat) (c : string) :
  hasClass (mark_links tgt links d) x c =
  if bool_decide (x ∈ links /\ c = "active" /\ is_Some (nodes d !! x))
  then bool_decide (getAttribute d x "href" = Some tgt) else hasClass d x c.
Proof.
  unfold mark_links. revert d. induction links as [|a links IH]; intros d; simpl.
  - done.
  - rewrite IH, mark_link_hasClass.
    rewrite (getAttribute_layout _ d x "href" (mark_link_layout tgt d a)).
    pose proof (layout_is_Some _ d x (mark_link_layout tgt d a)).
    repeat case_bool_decide; rewrite ?elem_of_cons in *; naive_solver.
Qed.

Lemma all_links_tag (env : nav_env) (d : document) (x : nat) :
  x ∈ all_links env d -> tag_of d x = Some "a".
Proof.
  unfold all_links. destruct (navLinks env); [apply querySelectorAll_in_tag|].
  intros H. by apply elem_of_nil in H.
Qed.

Lemma all_links_exists (env : nav_env) (d : document) (x : nat) :
  x ∈ all_links env d -> is_Some (nodes d !! x).
Proof.
  unfold all_links. destruct (navLinks env); [apply querySelectorAll_in_exists|].
  intros H. by apply elem_of_nil in H.
Qed.

(** [highlightNav] only writes the [active] class of [a] elements. *)
Lemma highlight_section_hasClass_other (env : nav_env) (p : Q) (d : document) (s x : nat) (c : string) :
  c ≠ "active" \/ tag_of d x ≠ Some "a" ->
  hasClass (highlight_section env p d s) x c = hasClass d x c.
Proof.
  intros Hx. unfold highlight_section. destruct (section_in_view d p s); [|done].
  rewrite mark_links_hasClass. rewrite bool_decide_eq_false_2; [done|].
  intros (Hin & -> & _). apply all_links_tag in Hin. naive_solver.
Qed.

Lemma highlightNav_hasClass_other (env : nav_env) (y : Q) (d : document) (x : nat) (c : string) :
  c ≠ "active" \/ tag_of d x ≠ Some "a" ->
  hasClass (highlightNav env y d) x c = hasClass d x c.
Proof.
  intros Hx.
  apply (foldl_invariant (fun d' => hasClass d' x c = hasClass d x c /\ same_layout d' d));
    [done|].
  intros d' s _ [H1 H2]. split.
  - rewrite highlight_section_hasClass_other; [done|]. by rewrite (tag_of_layout d' d x H2).
  - by rewrite highlight_section_layout.
Qed.

Lemma handleScroll_hasClass_other (env : nav_env) (y : Q) (d : document) (x : nat) (c : string) :
  c ≠ "scrolled" -> hasClass (handleScroll env y d) x c = hasClass d x c.
Proof.
  intros Hc. unfold handleScroll.
  case_bool_decide; autorewrite with profile_rw; class_solver.
Qed.

(** Sections out of view leave the document as it is. *)
Lemma highlight_sections_out_of_view (env : nav_env) (p : Q) (d d' : document) (post : list nat) :
  same_layout d' d ->
  Forall (fun s => section_in_view d p s = false) post ->
  foldl (highlight_section env p) d' post = d'.
Proof.
  intros Hl Hpost. revert d' Hl. induction Hpost as [|s post Hs _ IH]; intros d' Hl; [done|].
  simpl. unfold highlight_section at 2. rewrite (section_in_view_proper d' d Hl p p eq_refl s s eq_refl), Hs.
  by apply IH.
Qed.

(** ** The scroll handlers *)

(** C37: On every [scroll] event, the navigation bar carries [scrolled]
    exactly when [window.scrollY > 50]; [highlightNav], which runs next,
    does not touch that class. *)
Theorem scroll_event_scrolled (env : nav_env) (y : Q) (d : document) :
  is_Some (nodes d !! navbar env) ->
  hasClass (nav_handle env (Scroll y) d) (navbar env) "scrolled" = bool_decide (50 < y).
Proof.
  intros Hnb. simpl. rewrite highlightNav_hasClass_other by (left; done).
  unfold handleScroll. case_bool_decide; autorewrite with profile_rw;
    class_solver.
Qed.

(** C21: when a section contains [scrollY + 200], the links under
    [#nav-links] end up with [active] exactly when their [href] is ["#"]
    followed by the id of the last such section in document order; an
    earlier matching section is overwritten, not kept. *)
Theorem highlightNav_active (env : nav_env) (y : Q) (d : document) (s : nat) :
  last_such (section_in_view d (y + 200)) (sections env) = Some s ->
  forall a, a ∈ all_links env d ->
  hasClass (highlightNav env y d) a "active" =
  bool_decide (getAttribute d a "href" = Some (hash_of (getAttribute d s "id"))).
Proof.
  intros Hs a Ha. apply last_such_split in Hs as (pre & post & Hsec & Hin & Hpost).
  unfold highlightNav. rewrite Hsec, foldl_app. simpl.
  set (d1 := foldl (highlight_section env (y + 200)) d pre).
  assert (L1 : same_layout d1 d).
  { apply (foldl_invariant (fun x => same_layout x d)); [done|].
    intros b c _ Hb. by rewrite highlight_section_layout. }
  rewrite highlight_sections_out_of_view with (d := d); [|by rewrite highlight_section_layout|done].
  unfold highlight_section. rewrite (section_in_view_proper d1 d L1 _ _ eq_refl s s eq_refl), Hin.
  rewrite (all_links_proper env env eq_refl d1 d L1), (getAttribute_layout d1 d s "id" L1).
  rewrite mark_links_hasClass, bool_decide_eq_true_2.
  - by rewrite (getAttribute_layout d1 d a "href" L1).
  - split_and!; [done|done|]. apply (layout_is_Some d1 d a L1). by eapply all_links_exists.
Qed.

(** C26: when no section contains [scrollY + 200], [highlightNav] changes
    nothing, so the previous [active] link stays marked. *)
Theorem highlightNav_stale (env : nav_env) (y : Q) (d : document) :
  Forall (fun s => section_in_view d (y + 200) s = false) (sections env) ->
  highlightNav env y d = d.
Proof. intros H. by apply (highlight_sections_out_of_view env (y + 200) d d). Qed.

(** ** The menu *)

Lemma toggle_click_unfold (t l : nat) (d : document) :
  toggle_click t l d =
  setAttribute t "aria-expanded" (js_bool_to_string (negb (hasClass d l "open")))
    (classList_toggle t "active" (classList_toggle l "open" d).1).1.
Proof. reflexivity. Qed.

(** One click on the toggle flips [open], [active] and [aria-expanded]. *)
Lemma toggle_click_spec (t l : nat) (d : document) :
  t ≠ l -> is_Some (nodes d !! t) -> is_Some (nodes d !! l) ->
  hasClass (toggle_click t l d) l "open" = negb (hasClass d l "open") /\
  hasClass (toggle_click t l d) t "active" = negb (hasClass d t "active") /\
  getAttribute (toggle_click t l d) t "aria-expanded" =
    Some (js_bool_to_string (negb (hasClass d l "open"))).
Proof.
  intros Htl Ht Hl. rewrite toggle_click_unfold, !hasClass_setAttribute, getAttribute_setAttribute.
  pose proof (proj2 (layout_is_Some _ d t (classList_toggle_layout l "open" d)) Ht).
  pose proof (proj2 (layout_is_Some _ _ t (classList_toggle_layout t "active" (classList_toggle l "open" d).1)) H).
  rewrite !hasClass_toggle. split_and!; class_solver.
Qed.

(** A click on a menu link closes the menu. *)
Lemma link_click_spec (t l : nat) (d : document) :
  is_Some (nodes d !! t) -> menu_closed t l (link_click t l d).
Proof.
  intros Ht. unfold link_click, menu_closed.
  rewrite !hasClass_setAttribute, getAttribute_setAttribute, !hasClass_remove.
  pose proof (proj2 (layout_is_Some _ d t (classList_remove_layout l "open" d)) Ht).
  pose proof (proj2 (layout_is_Some _ _ t (classList_remove_layout t "active" (classList_remove l "open" d))) H).
  split_and!; class_solver.
Qed.

(** The click handlers keep the set of elements and their tags. *)
Lemma toggle_click_tags (t l x : nat) (d : document) :
  tag_of (toggle_click t l d) x = tag_of d x /\
  (is_Some (nodes (toggle_click t l d) !! x) <-> is_Some (nodes d !! x)).
Proof.
  rewrite toggle_click_unfold, tag_of_setAttribute, is_Some_setAttribute.
  split; [apply tag_of_layout|apply layout_is_Some]; by rewrite !classList_toggle_layout.
Qed.

Lemma link_click_tags (t l x : nat) (d : document) :
  tag_of (link_click t l d) x = tag_of d x /\
  (is_Some (nodes (link_click t l d) !! x) <-> is_Some (nodes d !! x)).
Proof.
  unfold link_click. rewrite tag_of_setAttribute, is_Some_setAttribute.
  split; [apply tag_of_layout|apply layout_is_Some]; by rewrite !classList_remove_layout.
Qed.

(** Every handler keeps the set of elements and their tags. *)
Lemma nav_handle_tags (env : nav_env) (ev : nav_event) (d : document) (x : nat) :
  tag_of (nav_handle env ev d) x = tag_of d x /\
  (is_Some (nodes (nav_handle env ev d) !! x) <-> is_Some (nodes d !! x)).
Proof.
  destruct ev as [y| |a]; simpl.
  - rewrite (tag_of_layout _ d x), (layout_is_Some _ d x); [done| |];
      by rewrite highlightNav_layout, handleScroll_layout.
  - destruct (menu env) as [[t l]|]; [apply toggle_click_tags|done].
  - destruct (menu env) as [[t l]|]; [|done].
    case_bool_decide; [apply link_click_tags|done].
Qed.

(** Starting from the markup's closed menu, a click on the toggle opens
    it ([open], [active], [aria-expanded="true"]) and a second click
    returns [aria-expanded] to "false" and removes both classes. *)
Theorem toggle_twice_closed (t l : nat) (d : document) :
  t ≠ l -> is_Some (nodes d !! t) -> is_Some (nodes d !! l) ->
  menu_closed t l d ->
  menu_opened t l (toggle_click t l d) /\ menu_closed t l (toggle_click t l (toggle_click t l d)).
Proof.
  intros Htl Ht Hl (H1 & H2 & H3).
  destruct (toggle_click_spec t l d Htl Ht Hl) as (E1 & E2 & E3).
  assert (Ht' : is_Some (nodes (toggle_click t l d) !! t)) by by apply toggle_click_tags.
  assert (Hl' : is_Some (nodes (toggle_click t l d) !! l)) by by apply toggle_click_tags.
  destruct (toggle_click_spec t l _ Htl Ht' Hl') as (F1 & F2 & F3).
  unfold menu_opened, menu_closed. rewrite F1, F2, F3, E1, E2, E3, H1, H2. by split_and!.
Qed.

(** Every handler keeps the menu invariant. *)
Lemma menu_inv_step (env : nav_env) (t l : nat) (d : document) (ev : nav_event) :
  menu env = Some (t, l) -> t ≠ l -> menu_inv t l d -> menu_inv t l (nav_handle env ev d).
Proof.
  intros Hm Htl (Ht & Hl & Htag & Hol & Har).
  pose proof (fun x => nav_handle_tags env ev d x) as Htags.
  unfold menu_inv. rewrite (proj1 (Htags t)), (proj2 (Htags t)), (proj2 (Htags l)).
  split_and!; [done|done|done| |].
  - destruct ev as [y| |a]; simpl; rewrite ?Hm.
    + rewrite !highlightNav_hasClass_other, !handleScroll_hasClass_other; try done.
      * right. by rewrite (tag_of_layout _ d t (handleScroll_layout env y d)).
      * by left.
    + destruct (toggle_click_spec t l d Htl Ht Hl) as (-> & -> & _). by rewrite Hol.
    + case_bool_decide; [|done]. by destruct (link_click_spec t l d Ht) as (-> & -> & _).
  - destruct ev as [y| |a]; simpl; rewrite ?Hm.
    + rewrite highlightNav_hasClass_other, handleScroll_hasClass_other by (by left || done).
      by rewrite (getAttribute_layout _ d t "aria-expanded"), Har by
        (by rewrite highlightNav_layout, handleScroll_layout).
    + destruct (toggle_click_spec t l d Htl Ht Hl) as (-> & _ & ->). done.
    + case_bool_decide; [|done]. by destruct (link_click_spec t l d Ht) as (-> & _ & ->).
Qed.

(** C1: in every document reachable from a page whose menu satisfies the
    invariant (closed, as the markup has it, or any consistent state), by
    any sequence of scroll events, toggle clicks and menu-link clicks, the
    list is [open] exactly when the toggle is [active], and
    [aria-expanded] is "true" exactly then. *)
Theorem nav_menu_invariant (env : nav_env) (d0 : document) (t l : nat) :
  menu env = Some (t, l) -> t ≠ l -> menu_inv t l d0 ->
  forall d, nav_reach env d0 d -> menu_inv t l d.
Proof.
  intros Hm Htl H0 d Hr. induction Hr as [|d ev Hr IH]; [done|]. by apply menu_inv_step.
Qed.

(** ** Witnesses on the small page *)

Lemma scroll_event_scrolled_witness :
  hasClass (nav_handle demo_env (Scroll 80) demo_page) (navbar demo_env) "scrolled" = true.
Proof.
  rewrite (scroll_event_scrolled demo_env 80 demo_page); [|decide_by_eval].
  vm_compute. reflexivity.
Defined.

Lemma highlightNav_active_witness :
  hasClass (highlightNav demo_env 500 demo_page) 5 "active" = true.
Proof.
  rewrite (highlightNav_active demo_env 500 demo_page 7); [| |decide_by_eval].
  - vm_compute. reflexivity.
  - vm_compute. reflexivity.
Defined.

(** After scrolling into the second section and then below every section,
    the second link is still marked. *)
Lemma highlightNav_stale_witness :
  let d1 := nav_handle demo_env (Scroll 500) demo_page in
  highlightNav demo_env 2000 d1 = d1 /\ hasClass d1 5 "active" = true.
Proof.
  split; [apply highlightNav_stale; decide_by_eval|vm_compute; reflexivity].
Defined.

Lemma toggle_twice_closed_witness :
  menu_opened 2 3 (toggle_click 2 3 demo_page) /\
  menu_closed 2 3 (toggle_click 2 3 (toggle_click 2 3 demo_page)).
Proof.
  apply toggle_twice_closed; [lia|decide_by_eval|decide_by_eval|].
  unfold menu_closed. decide_by_eval.
Defined.

Lemma nav_menu_invariant_witness :
  menu_inv 2 3 (nav_handle demo_env ClickToggle (nav_handle demo_env (Scroll 500) demo_page)).
Proof.
  apply (nav_menu_invariant demo_env demo_page 2 3).
  - vm_compute. reflexivity.
  - lia.
  - unfold menu_inv. decide_by_eval.
  - apply reach_step, reach_step, reach_init.
Defined.

End Navigation.
