(* ===== verification/NavSpec.v ===== *)
(** * The menu as an abstract machine, refined by the navigation handlers

    What the navigation promises its user is a two-state menu: a click on
    the toggle flips it, a click on a menu link closes it, a scroll leaves
    it alone, and the toggle's [active] class and [aria-expanded] show its
    state.  [menu_spec] is that machine over the events of [Navigation];
    [menu_abs] reads the abstract state off a document (the list's [open]
    class).  The refinement theorem runs any sequence of events through
    the registered handlers ([nav_run], the handlers of [initNavigation] in
    registration order) and through [menu_spec], and shows that they agree
    at every point, the concrete document staying consistent
    ([menu_inv]). *)

From S2P Require Import Prelude JsNum Dom Navigation.
Import Navigation.Navigation.

Module NavSpec.

(** The abstract menu: [true] is open. *)
Definition menu_spec (env : nav_env) (open : bool) (ev : nav_event) : bool :=
  match ev with
  | Scroll _ => open
  | ClickToggle => negb open
  | ClickLink a => if bool_decide (a ∈ menu_links env) then false else open
  end.

Definition spec_run (env : nav_env) (open : bool) (evs : list nav_event) : bool :=
  foldl (menu_spec env) open evs.

(** The abstraction of a document. *)
Definition menu_abs (l : nat) (d : document) : bool := hasClass d l "open".

(** The document after the handlers ran on each event in turn. *)
Definition nav_run (env : nav_env) (d : document) (evs : list nav_event) : document :=
  foldl (fun d ev => nav_handle env ev d) d evs.

(** ** Simulation *)

Lemma nav_handle_abs (env : nav_env) (t l : nat) (d : document) (ev : nav_event) :
  menu env = Some (t, l) -> t ≠ l -> menu_inv t l d ->
  menu_abs l (nav_handle env ev d) = menu_spec env (menu_abs l d) ev.
Proof.
  intros Hm Htl (Ht & Hl & Htag & Hol & Har). unfold menu_abs.
  destruct ev as [y| |a]; simpl; rewrite ?Hm.
  - by rewrite highlightNav_hasClass_other, handleScroll_hasClass_other by (by left || done).
  - by destruct (toggle_click_spec t l d Htl Ht Hl) as (-> & _ & _).
  - case_bool_decide; [|done]. by destruct (link_click_spec t l d Ht) as (-> & _ & _).
Qed.

(** C13: the navigation handlers refine the abstract menu: from a
    consistent menu, after any sequence of scroll events, toggle clicks and
    link clicks, the document's menu is consistent ([open] on the list iff
    [active] on the toggle iff [aria-expanded="true"]) and it is open
    exactly when the abstract machine, run on the same events from the
    same state, is open. *)
Theorem nav_refines_menu_spec (env : nav_env) (t l : nat) (d : document) (evs : list nav_event) :
  menu env = Some (t, l) -> t ≠ l -> menu_inv t l d ->
  menu_inv t l (nav_run env d evs) /\ menu_abs l (nav_run env d evs) = spec_run env (menu_abs l d) evs.
Proof.
  intros Hm Htl. revert d. induction evs as [|ev evs IH]; intros d H; [done|].
  change (nav_run env d (ev :: evs)) with (nav_run env (nav_handle env ev d) evs).
  destruct (IH _ (menu_inv_step env t l d ev Hm Htl H)) as [H1 H2]. split; [done|].
  rewrite H2. cbn [spec_run foldl]. by rewrite (nav_handle_abs env t l d ev Hm Htl H).
Qed.

Lemma nav_refines_menu_spec_witness :
  menu_inv 2 3 (nav_run demo_env demo_page [ClickToggle; Scroll 500; ClickLink 4]) /\
  menu_abs 3 (nav_run demo_env demo_page [ClickToggle; Scroll 500; ClickLink 4]) =
    spec_run demo_env (menu_abs 3 demo_page) [ClickToggle; Scroll 500; ClickLink 4].
Proof.
  apply nav_refines_menu_spec.
  - vm_compute. reflexivity.
  - lia.
  - unfold menu_inv. decide_by_eval.
Defined.

End NavSpec.
