(* ===== verification/Observer.v ===== *)
(** * [IntersectionObserver] and the one-shot callback of [main.js]

    Both [initScrollAnimations] (lines 90-112) and [initCounters] (lines
    155-169) create an observer whose callback walks its entries and, for
    each intersecting one, does its work on the target and then calls
    [observer.unobserve(target)].  The observer itself is the browser's: its
    slots are modelled after the W3C algorithm ([[ObservationTargets]], the
    [previousIsIntersecting] of each registration, [[QueuedEntries]]), with
    the geometry abstracted into which targets intersect at each update
    (the thresholds and root margins of the two observers decide that
    function, which is left free).  An update queues an entry for each
    observed target whose state changed (and for every fresh registration);
    a notification hands the whole queue to the callback.  The callback is
    defined once, over the client's action, in a Section; the at-most-once
    theorem is proved for any action. *)

From S2P Require Import Prelude.

Module Observer.

Record io_state := IOState {
  targets : list nat;               (** [[ObservationTargets]] *)
  previous : gmap nat bool;         (** [previousIsIntersecting]; none yet for a fresh registration *)
  queued : list (nat * bool)        (** [[QueuedEntries]]: (target, isIntersecting) *)
}.

Definition io_empty : io_state := IOState [] ∅ [].

(** [observe(target)]: nothing when already observed. *)
Definition observe (t : nat) (st : io_state) : io_state :=
  if bool_decide (t ∈ targets st) then st
  else IOState (targets st ++ [t]) (delete t (previous st)) (queued st).

(** [unobserve(target)]: the registration goes; queued entries stay. *)
Definition unobserve (t : nat) (st : io_state) : io_state :=
  IOState (filter (fun x => x ≠ t) (targets st)) (delete t (previous st)) (queued st).

(** "Update intersection observations" for one target, given whether it
    intersects now. *)
Definition update_one (vis : nat -> bool) (st : io_state) (t : nat) : io_state :=
  if bool_decide (previous st !! t = Some (vis t)) then st
  else IOState (targets st) (<[t := vis t]> (previous st)) (queued st ++ [(t, vis t)]).

Definition update (vis : nat -> bool) (st : io_state) : io_state :=
  foldl (update_one vis) st (targets st).

(** The events of the browser that concern one observer. *)
Inductive io_event :=
  | Update (vis : nat -> bool)    (** a rendering update *)
  | Notify.                       (** the queued notification task runs *)

Section OneShot.

(** What the client does with an intersecting target. *)
Context {S : Type} (act : nat -> S -> S).

(** One iteration of the callback's loop (lines 92-105 and 157-162): an
    intersecting entry runs the client's action, then [unobserve]. *)
Definition one_shot_entry (acc : io_state * S) (en : nat * bool) : io_state * S :=
  if en.2 then (unobserve en.1 acc.1, act en.1 acc.2) else acc.

Definition one_shot_callback (entries : list (nat * bool)) (acc : io_state * S) : io_state * S :=
  foldl one_shot_entry acc entries.

(** The notification task: the callback receives the queue, emptied. *)
Definition notify (acc : io_state * S) : io_state * S :=
  one_shot_callback (queued acc.1) (IOState (targets acc.1) (previous acc.1) [], acc.2).

Definition io_step (acc : io_state * S) (ev : io_event) : io_state * S :=
  match ev with
  | Update vis => (update vis acc.1, acc.2)
  | Notify => notify acc
  end.

Definition io_run (evs : list io_event) (acc : io_state * S) : io_state * S :=
  foldl io_step acc evs.

End OneShot.

(** The targets the callback has acted on, in order: the action that logs. *)
Definition log_act (t : nat) (l : list nat) : list nat := l ++ [t].

(** Rounds in which a notification follows each rendering update. *)
Definition rounds (viss : list (nat -> bool)) : list io_event :=
  concat ((fun v => [Update v; Notify]) <$> viss).

(** The callback's effect on the observer, which does not depend on the
    client: every intersecting entry's target is unobserved. *)
Definition callback_state (es : list (nat * bool)) (st : io_state) : io_state :=
  foldl (fun (st : io_state) (en : nat * bool) => if en.2 then unobserve en.1 st else st) st es.

(** The targets the callback acts on: those of the intersecting entries. *)
Definition fired (es : list (nat * bool)) : list nat :=
  (filter (fun en : nat * bool => en.2 = true) es).*1.

(** The queued entries of one target. *)
Definition entries_of (t : nat) (q : list (nat * bool)) : list (nat * bool) :=
  filter (fun en : nat * bool => en.1 = t) q.

Definition notify_state (st : io_state) : io_state :=
  callback_state (queued st) (IOState (targets st) (previous st) []).

(** The observer after a sequence of events, and the targets acted on. *)
Fixpoint io_final (evs : list io_event) (st : io_state) : io_state :=
  match evs with
  | [] => st
  | Update v :: evs' => io_final evs' (update v st)
  | Notify :: evs' => io_final evs' (notify_state st)
  end.

Fixpoint io_fired (evs : list io_event) (st : io_state) : list nat :=
  match evs with
  | [] => []
  | Update v :: evs' => io_fired evs' (update v st)
  | Notify :: evs' => fired (queued st) ++ io_fired evs' (notify_state st)
  end.

(** ** The callback, whatever the client does *)

Section Decompose.
Context {S : Type} (act : nat -> S -> S).

Lemma one_shot_callback_spec (es : list (nat * bool)) (acc : io_state * S) :
  one_shot_callback act es acc = (callback_state es acc.1, foldl (fun s t => act t s) acc.2 (fired es)).
Proof.
  revert acc. induction es as [|[t b] es IH]; intros acc; [by destruct acc|].
  unfold one_shot_callback, callback_state, fired in *. cbn [foldl]. rewrite IH.
  destruct b; cbn; [done|]. by rewrite decide_False.
Qed.

(** A run of the observer with any client is the client-independent run
    of the observer, and the client's action on the fired targets in order. *)
Lemma io_run_spec (evs : list io_event) (st : io_state) (s : S) :
  io_run act evs (st, s) = (io_final evs st, foldl (fun s t => act t s) s (io_fired evs st)).
Proof.
  revert st s. induction evs as [|[v|] evs IH]; intros st s; [done| |].
  - unfold io_run in *. simpl. apply IH.
  - unfold io_run in *. simpl. unfold notify. simpl.
    rewrite one_shot_callback_spec, foldl_app. simpl. apply IH.
Qed.

End Decompose.

(** ** What an update queues and what a notification leaves *)

Lemma fired_sublist (es : list (nat * bool)) : fired es `sublist_of` es.*1.
Proof. unfold fired. apply (fmap_sublist fst), sublist_filter. Qed.

Lemma fired_cons (t : nat) (b : bool) (es : list (nat * bool)) :
  fired ((t, b) :: es) = (if b then [t] else []) ++ fired es.
Proof. unfold fired. by destruct b. Qed.

Lemma update_one_spec (v : nat -> bool) (st : io_state) (x : nat) :
  targets (update_one v st x) = targets st /\
  (queued (update_one v st x) = queued st \/ queued (update_one v st x) = queued st ++ [(x, v x)]).
Proof. unfold update_one. case_bool_decide; simpl; auto. Qed.

(** An update queues at most one entry per observed target, and only for
    observed targets. *)
Lemma update_foldl_spec (v : nat -> bool) (l : list nat) (st : io_state) :
  NoDup l ->
  targets (foldl (update_one v) st l) = targets st /\
  exists q, queued (foldl (update_one v) st l) = queued st ++ q /\ NoDup q.*1 /\
            (forall x, x ∈ q.*1 -> x ∈ l).
Proof.
  revert st. induction l as [|x l IH]; intros st Hnd.
  - split; [done|]. exists []. rewrite app_nil_r. split_and!; [done|constructor|].
    intros y Hy. by apply elem_of_nil in Hy.
  - apply NoDup_cons in Hnd as [Hx Hl]. simpl.
    destruct (update_one_spec v st x) as [Ht [Hq|Hq]];
      destruct (IH (update_one v st x) Hl) as [Ht' (q & Hq' & Hnd' & Hin')];
      (split; [by rewrite Ht', Ht|]).
    + exists q. rewrite Hq', Hq. split_and!; [done|done|]. intros y Hy. right. by apply Hin'.
    + exists ((x, v x) :: q). rewrite Hq', Hq, <- app_assoc. split_and!; [done| |].
      * simpl. constructor; [|done]. intros Hxq. by apply Hx, Hin'.
      * intros y Hy. simpl in Hy. apply elem_of_cons in Hy as [->|Hy]; [left|right; by apply Hin'].
Qed.

Lemma callback_state_spec (es : list (nat * bool)) (st : io_state) :
  queued (callback_state es st) = queued st /\
  (forall y, y ∈ targets (callback_state es st) <-> y ∈ targets st /\ y ∉ fired es) /\
  (NoDup (targets st) -> NoDup (targets (callback_state es st))).
Proof.
  revert st. induction es as [|[t b] es IH]; intros st.
  - split_and!; [done| |done]. intros y. unfold fired. simpl. set_solver.
  - unfold callback_state in *. simpl. rewrite fired_cons.
    destruct b.
    + destruct (IH (unobserve t st)) as (Q & T & N). split_and!.
      * by rewrite Q.
      * intros y. rewrite T. unfold unobserve. simpl. rewrite list_elem_of_filter. set_solver.
      * intros Hnd. apply N. unfold unobserve. simpl. by apply NoDup_filter.
    + destruct (IH st) as (Q & T & N). split_and!; [done| |done]. intros y. rewrite T. set_solver.
Qed.

Lemma update_single (v : nat -> bool) (t : nat) (p : gmap nat bool) (q : list (nat * bool)) :
  update v (IOState [t] p q) =
  if bool_decide (p !! t = Some (v t)) then IOState [t] p q
  else IOState [t] (<[t := v t]> p) (q ++ [(t, v t)]).
Proof. reflexivity. Qed.

Lemma fired_app (es1 es2 : list (nat * bool)) : fired (es1 ++ es2) = fired es1 ++ fired es2.
Proof. unfold fired. by rewrite filter_app, fmap_app. Qed.

(** The callback acts on [t] once per intersecting entry of [t]. *)
Lemma fired_entries (t : nat) (es : list (nat * bool)) :
  filter (fun x => x = t) (fired es) = fired (entries_of t es).
Proof.
  induction es as [|[x b] es IH]; [done|]. rewrite fired_cons, filter_app, IH. unfold entries_of.
  rewrite filter_cons. cbn [fst]. fold (entries_of t es).
  destruct (decide (x = t)) as [->|Hx]; [rewrite fired_cons|]; destruct b; simpl;
    rewrite ?filter_cons_True, ?filter_cons_False, ?filter_nil by done; done.
Qed.

(** One target's step of an update, seen from target [t]. *)
Lemma update_one_entries (v : nat -> bool) (st : io_state) (x t : nat) :
  targets (update_one v st x) = targets st /\
  entries_of t (queued (update_one v st x)) =
    entries_of t (queued st) ++ (if bool_decide (x = t /\ previous st !! t <> Some (v t)) then [(t, v t)] else []) /\
  previous (update_one v st x) !! t = if bool_decide (x = t) then Some (v t) else previous st !! t.
Proof.
  unfold update_one. destruct (decide (x = t)) as [->|Hx].
  - rewrite (bool_decide_eq_true_2 (t = t)) by done. case_bool_decide as Hp; cbn [targets queued previous].
    + rewrite bool_decide_eq_false_2 by naive_solver. by rewrite app_nil_r.
    + rewrite bool_decide_eq_true_2 by done. unfold entries_of. rewrite filter_app, lookup_insert_eq.
      split_and!; [done| |done]. by rewrite filter_cons_True.
  - rewrite (bool_decide_eq_false_2 (x = t /\ _)), (bool_decide_eq_false_2 (x = t)) by naive_solver. rewrite app_nil_r.
    case_bool_decide; cbn [targets queued previous]; [done|]. unfold entries_of.
    rewrite filter_app, filter_cons_False, lookup_insert_ne by done. by rewrite app_nil_r.
Qed.

Lemma update_foldl_entries (v : nat -> bool) (l : list nat) (st : io_state) (t : nat) :
  targets (foldl (update_one v) st l) = targets st /\
  entries_of t (queued (foldl (update_one v) st l)) =
    entries_of t (queued st) ++ (if bool_decide (t ∈ l /\ previous st !! t <> Some (v t)) then [(t, v t)] else []) /\
  previous (foldl (update_one v) st l) !! t = if bool_decide (t ∈ l) then Some (v t) else previous st !! t.
Proof.
  revert st. induction l as [|x l IH]; intros st; cbn [foldl].
  { rewrite !bool_decide_eq_false_2 by set_solver. by rewrite app_nil_r. }
  destruct (update_one_entries v st x t) as (T1 & E1 & P1). destruct (IH (update_one v st x)) as (T & E & P).
  rewrite T, T1, E, E1, P, P1, <- app_assoc. split; [done|].
  destruct (decide (x = t)) as [->|Hx].
  - rewrite (bool_decide_eq_true_2 (t = t)), (bool_decide_eq_false_2 (t ∈ l /\ _)) by naive_solver.
    rewrite (bool_decide_eq_true_2 (t ∈ t :: l)) by set_solver.
    split; [|by destruct (bool_decide (t ∈ l))]. rewrite app_nil_r. f_equal. repeat case_bool_decide; set_solver.
  - rewrite (bool_decide_eq_false_2 (x = t)), (bool_decide_eq_false_2 (x = t /\ _)) by naive_solver.
    rewrite app_nil_l. split; f_equal; repeat case_bool_decide; set_solver.
Qed.

(** A rendering update queues an entry for an observed target exactly
    when its intersection changed, and records the new state. *)
Lemma update_entries (v : nat -> bool) (st : io_state) (t : nat) :
  t ∈ targets st ->
  targets (update v st) = targets st /\
  entries_of t (queued (update v st)) =
    entries_of t (queued st) ++ (if bool_decide (previous st !! t = Some (v t)) then [] else [(t, v t)]) /\
  previous (update v st) !! t = Some (v t).
Proof.
  intros Ht. unfold update. destruct (update_foldl_entries v (targets st) st t) as (T & E & P).
  rewrite T, E, P, (bool_decide_eq_true_2 (t ∈ targets st)) by done. split_and!; [done| |done].
  f_equal. repeat case_bool_decide; naive_solver.
Qed.

(** ** Observing a list of targets *)

Lemma observe_step (t : nat) (st : io_state) :
  queued st = [] -> NoDup (targets st) ->
  queued (observe t st) = [] /\ NoDup (targets (observe t st)) /\
  (forall x, x ∈ targets (observe t st) <-> x ∈ targets st \/ x = t).
Proof.
  intros Hq Hnd. unfold observe. case_bool_decide as Ht; simpl.
  - split_and!; [done|done|]. set_solver.
  - split_and!; [done| |set_solver].
    apply NoDup_app. split_and!; [done| |apply NoDup_singleton]. set_solver.
Qed.

Lemma observe_all_spec (L : list nat) (st : io_state) :
  queued st = [] -> NoDup (targets st) ->
  queued (foldl (fun st e => observe e st) st L) = [] /\
  NoDup (targets (foldl (fun st e => observe e st) st L)) /\
  (forall x, x ∈ targets (foldl (fun st e => observe e st) st L) <->
             x ∈ targets st \/ x ∈ L).
Proof.
  revert st. induction L as [|t L IH]; intros st Hq Hnd; simpl.
  - split_and!; [done|done|]. set_solver.
  - destruct (observe_step t st Hq Hnd) as (Hq' & Hn' & Hm').
    destruct (IH _ Hq' Hn') as (? & ? & HL). split_and!; [done|done|].
    intros x. rewrite HL, Hm'. set_solver.
Qed.

(** ** At most once per target *)

Lemma log_act_foldl (l ts : list nat) : foldl (fun s t => log_act t s) l ts = l ++ ts.
Proof.
  revert l. induction ts as [|t ts IH]; intros l; [by rewrite app_nil_r|].
  simpl. rewrite IH. unfold log_act. by rewrite <- app_assoc.
Qed.

(** When every rendering update is followed by the notification task, the
    targets the callback is handed as intersecting are distinct and were
    observed. *)
Lemma io_fired_rounds_once (viss : list (nat -> bool)) (st : io_state) :
  queued st = [] -> NoDup (targets st) ->
  NoDup (io_fired (rounds viss) st) /\ (forall t, t ∈ io_fired (rounds viss) st -> t ∈ targets st).
Proof.
  revert st. induction viss as [|v viss IH]; intros st Hq Hnd.
  - split; [constructor|]. intros t Ht. by apply elem_of_nil in Ht.
  - unfold rounds. simpl. fold (rounds viss).
    set (st1 := update v st). set (st2 := notify_state st1).
    destruct (update_foldl_spec v (targets st) st Hnd) as [Ht (q & Hq' & Hnq & Hin)].
    assert (Q1 : queued st1 = q) by (unfold st1, update; by rewrite Hq', Hq).
    assert (T1 : targets st1 = targets st) by (unfold st1, update; exact Ht).
    destruct (callback_state_spec q (IOState (targets st1) (previous st1) [])) as (Q2 & T2 & N2).
    assert (E2 : st2 = callback_state q (IOState (targets st1) (previous st1) []))
      by (unfold st2, notify_state; by rewrite Q1).
    assert (M2 : forall y, y ∈ targets st2 <-> y ∈ targets st /\ y ∉ fired q)
      by (intros y; rewrite E2, T2; simpl; by rewrite T1).
    destruct (IH st2) as [IHnd IHin].
    { rewrite E2. by rewrite Q2. }
    { rewrite E2. apply N2. simpl. by rewrite T1. }
    assert (Hfq : forall x, x ∈ fired q -> x ∈ targets st)
      by (intros x Hx; apply Hin, (elem_of_sublist _ _ _ Hx (fired_sublist q))).
    rewrite Q1. split.
    + apply NoDup_app. split_and!.
      * apply (sublist_NoDup _ _ Hnq (fired_sublist q)).
      * intros x Hx Hx'. apply IHin, M2 in Hx' as [_ Hx']. by apply Hx'.
      * done.
    + intros t Ht'. apply elem_of_app in Ht' as [Ht'|Ht']; [by apply Hfq|].
      by apply IHin, M2 in Ht' as [? _].
Qed.

(** C6: when every rendering update is followed by the notification task,
    the one-shot callback acts on each observed target at most once, and
    only on targets that were observed: run with an action that logs its
    target, it logs no target twice. *)
Theorem one_shot_at_most_once (viss : list (nat -> bool)) (st : io_state) :
  queued st = [] -> NoDup (targets st) ->
  let log := (io_run log_act (rounds viss) (st, [])).2 in
  NoDup log /\ (forall t, t ∈ log -> t ∈ targets st).
Proof.
  intros Hq Hnd. simpl. rewrite io_run_spec. simpl. rewrite log_act_foldl.
  by apply io_fired_rounds_once.
Qed.

(** C27: without a notification between rendering updates, a target that
    intersects, stops intersecting and intersects again before the
    callback runs gets two intersecting entries in one batch, and the
    callback acts on it twice: [unobserve] does not drop entries already
    queued.  From any observer state in which [t] is observed and was not
    last seen intersecting, the callback acts on [t] for the entries
    already queued and then twice more. *)
Theorem one_shot_batched_fires_twice (v1 v2 v3 : nat -> bool) (st : io_state) (t : nat) :
  t ∈ targets st -> previous st !! t <> Some true ->
  v1 t = true -> v2 t = false -> v3 t = true ->
  filter (fun x => x = t) (io_run log_act [Update v1; Update v2; Update v3; Notify] (st, [])).2 =
  fired (entries_of t (queued st)) ++ [t; t].
Proof.
  intros Ht Hp H1 H2 H3. rewrite io_run_spec. cbn [snd io_fired]. rewrite log_act_foldl, app_nil_r, app_nil_l.
  rewrite fired_entries.
  destruct (update_entries v1 st t Ht) as (T1 & E1 & P1).
  destruct (update_entries v2 (update v1 st) t) as (T2 & E2 & P2); [by rewrite T1|].
  destruct (update_entries v3 (update v2 (update v1 st)) t) as (_ & E3 & _); [by rewrite T2, T1|].
  rewrite E3, E2, E1, P2, P1, H1, H2, H3, !bool_decide_eq_false_2 by congruence.
  by rewrite <- !app_assoc, fired_app.
Qed.

Lemma one_shot_batched_fires_twice_witness :
  filter (fun x => x = 1%nat)
    (io_run log_act [Update (fun _ => true); Update (fun _ => false); Update (fun _ => true); Notify]
       (observe 1 io_empty, [])).2 =
  fired (entries_of 1 (queued (observe 1 io_empty))) ++ [1; 1]%nat.
Proof. apply one_shot_batched_fires_twice; [decide_by_eval|vm_compute; discriminate|done..]. Defined.

Lemma one_shot_at_most_once_witness :
  let st := observe 2 (observe 1 io_empty) in
  let log := (io_run log_act (rounds [fun _ => true; fun t => bool_decide (t = 2%nat)]) (st, [])).2 in
  NoDup log /\ (forall t, t ∈ log -> t ∈ targets st).
Proof. apply one_shot_at_most_once; [vm_compute; reflexivity|decide_by_eval]. Defined.

End Observer.
