(* ===== verification/Counter.v ===== *)
(** * Counter animator: [initCounters] of [src/js/main.js]

    [animateCounter] (lines 122-146) keeps three variables in its closure:
    the element, [target = parseInt(data-count, 10)] and [startTime]; its
    [step] is called with the frame timestamp by [requestAnimationFrame],
    writes [Math.floor(easeOutCubic(progress) * target)] to the element's
    [textContent] and either asks for another frame or writes [target] and
    stops.  Here a run is the record [counter_run]; [step] returns the new
    document and, when it asked for another frame, the run that frame will
    continue; [run_frames] feeds a run the timestamps of successive frames.
    Timestamps are exact rationals.  [startTime] is tested with
    JavaScript's falsiness, so a start time of 0 counts as unset. *)

From S2P Require Import Prelude JsNum Dom Observer.

Module Counter.

(** The closure of one [animateCounter(element)] call. *)
Record counter_run := CounterRun {
  cr_elem : nat;
  cr_target : jsint;           (** [parseInt(element.getAttribute('data-count'), 10)] *)
  cr_start : option Q          (** [startTime]: [null] or a timestamp *)
}.

(** [duration] (line 124). *)
Definition duration : Q := 2000.

(** [easeOutCubic] (lines 128-130). *)
Definition easeOutCubic (t : Q) : Q := 1 - (1 - t) * (1 - t) * (1 - t).

(** [!startTime]: [null] and [0] are falsy. *)
Definition start_unset (s : option Q) : bool :=
  match s with None => true | Some q => bool_decide (q == 0) end.

(** [Math.min((timestamp - startTime) / duration, 1)] (line 134). *)
Definition progress_at (startTime timestamp : Q) : Q :=
  Qmin ((timestamp - startTime) / duration) 1.

(** [Math.floor(easeOutCubic(progress) * target)] (line 135); [NaN] stays [NaN]. *)
Definition current_value (target : jsint) (progress : Q) : jsint :=
  (fun t => Qfloor (easeOutCubic progress * zq t)) <$> target.

(** [step(timestamp)] (lines 132-143): the document after the frame, and
    the run to continue when [requestAnimationFrame(step)] was called. *)
Definition step (run : counter_run) (timestamp : Q) (d : document) : document * option counter_run :=
  let startTime := if start_unset (cr_start run) then timestamp
                   else default timestamp (cr_start run) in
  let progress := progress_at startTime timestamp in
  let d1 := setTextContent (cr_elem run) (js_num_to_string (current_value (cr_target run) progress)) d in
  if progress <q? 1
  then (d1, Some (CounterRun (cr_elem run) (cr_target run) (Some startTime)))
  else (setTextContent (cr_elem run) (js_num_to_string (cr_target run)) d1, None).

(** [animateCounter(element)] (lines 122-146): the run its
    [requestAnimationFrame(step)] starts. *)
Definition animateCounter (d : document) (e : nat) : counter_run :=
  CounterRun e (parseInt10 (attr_string (getAttribute d e "data-count"))) None.

(** A run fed the timestamps of successive animation frames; it stops at
    the frame where [step] does not ask for another one. *)
Fixpoint run_frames (r : option counter_run) (ts : list Q) (d : document)
    : document * option counter_run :=
  match r, ts with
  | Some run, t :: ts' => let '(d', r') := step run t d in run_frames r' ts' d'
  | _, _ => (d, r)
  end.

(** [document.querySelectorAll('[data-count]')] (line 119). *)
Definition sel_data_count : selector := Sel None (Some ("data-count", AttrPresent)).

(** What [initCounters] leaves behind: the document, its observer when one
    was created, and the runs waiting for an animation frame. *)
Record counters := Counters {
  c_doc : document;
  c_io : option Observer.io_state;
  c_runs : list counter_run
}.

(** [el.textContent = v] with [v] possibly null: null clears the text. *)
Definition text_of_attr (o : option string) : string :=
  match o with Some s => s | None => "" end.

(** The fallback loop's body (line 150). *)
Definition fallback_counter (d : document) (e : nat) : document :=
  setTextContent e (text_of_attr (getAttribute d e "data-count")) d.

(** [initCounters] (lines 118-170), [hasIO] being
    ['IntersectionObserver' in window]. *)
Definition initCounters (hasIO : bool) (d : document) : counters :=
  match querySelectorAll d sel_data_count with
  | [] => Counters d None []
  | cs =>
      if hasIO
      then Counters d (Some (foldl (fun st e => Observer.observe e st) Observer.io_empty cs)) []
      else Counters (foldl fallback_counter d cs) None []
  end.

(** The observer callback's work on an intersecting counter (line 159):
    [animateCounter] starts a run that waits for its first frame. *)
Definition counter_act (e : nat) (acc : document * list counter_run) : document * list counter_run :=
  (acc.1, acc.2 ++ [animateCounter acc.1 e]).

(** A page with one counter, [data-count="120"]. *)
Definition counter_page : document :=
  mkDocument (list_to_map [(1%nat, element "span" [("data-count", "120")] None 0 20)]) [1%nat].

(** A counter whose attribute is not the spelling of an integer. *)
Definition counter_page_grouped : document :=
  mkDocument (list_to_map [(1%nat, element "span" [("data-count", "1,200")] None 0 20)]) [1%nat].

(** ** The easing curve and the progress *)

Lemma easeOutCubic_mono (p q : Q) : 0 <= p -> p <= q -> q <= 1 -> easeOutCubic p <= easeOutCubic q.
Proof.
  intros. unfold easeOutCubic.
  assert ((1 - q) * (1 - q) * (1 - q) <= (1 - p) * (1 - p) * (1 - p)) by (apply Q_cube_mono; lra).
  lra.
Qed.

Lemma easeOutCubic_bounds (p : Q) : 0 <= p -> p <= 1 -> 0 <= easeOutCubic p /\ easeOutCubic p <= 1.
Proof.
  intros. unfold easeOutCubic.
  assert (0 <= (1 - p) * (1 - p) * (1 - p)) by (apply Q_cube_nonneg; lra).
  assert ((1 - p) * (1 - p) * (1 - p) <= 1) by (apply Q_cube_le_1; lra).
  lra.
Qed.

Lemma easeOutCubic_1 : easeOutCubic 1 == 1.
Proof. reflexivity. Qed.

Lemma div_duration (x : Q) : x / duration = x * (1 # 2000).
Proof. reflexivity. Qed.

Lemma progress_at_bounds (st t : Q) : st <= t -> 0 <= progress_at st t /\ progress_at st t <= 1.
Proof.
  intros H. unfold progress_at. rewrite div_duration. split; [|apply Q.le_min_r].
  apply Q.min_glb; lra.
Qed.

Lemma progress_at_mono (st t1 t2 : Q) : t1 <= t2 -> progress_at st t1 <= progress_at st t2.
Proof.
  intros H. unfold progress_at. rewrite !div_duration. apply Q.min_le_compat_r. lra.
Qed.

Lemma progress_at_lt_1 (st t : Q) : progress_at st t < 1 <-> t - st < duration.
Proof.
  unfold progress_at. rewrite div_duration, Q.min_lt_iff. unfold duration. lra.
Qed.

Lemma progress_at_done (st t : Q) : duration <= t - st -> progress_at st t == 1.
Proof.
  intros H. unfold progress_at. rewrite div_duration. apply Q.min_r. unfold duration in *. lra.
Qed.

(** ** One frame *)

Lemma step_continue (run : counter_run) (t st : Q) (d : document) :
  cr_start run = Some st -> ~ st == 0 -> t - st < duration ->
  step run t d =
  (setTextContent (cr_elem run) (js_num_to_string (current_value (cr_target run) (progress_at st t))) d,
   Some (CounterRun (cr_elem run) (cr_target run) (Some st))).
Proof.
  intros Hs Hz Ht. unfold step. rewrite Hs. simpl.
  rewrite (bool_decide_eq_false_2 (st == 0)) by done. simpl.
  rewrite bool_decide_eq_true_2; [done|]. by apply progress_at_lt_1.
Qed.

Lemma step_done (run : counter_run) (t st : Q) (d : document) :
  cr_start run = Some st -> ~ st == 0 -> duration <= t - st ->
  step run t d =
  (setTextContent (cr_elem run) (js_num_to_string (cr_target run))
     (setTextContent (cr_elem run) (js_num_to_string (current_value (cr_target run) (progress_at st t))) d),
   None).
Proof.
  intros Hs Hz Ht. unfold step. rewrite Hs. simpl.
  rewrite (bool_decide_eq_false_2 (st == 0)) by done. simpl.
  rewrite bool_decide_eq_false_2; [done|]. rewrite progress_at_lt_1. lra.
Qed.

(** The first frame of a run sets the start time and always continues. *)
Lemma step_first (run : counter_run) (t : Q) (d : document) :
  start_unset (cr_start run) = true ->
  step run t d =
  (setTextContent (cr_elem run) (js_num_to_string (current_value (cr_target run) (progress_at t t))) d,
   Some (CounterRun (cr_elem run) (cr_target run) (Some t))).
Proof.
  intros Hs. unfold step. rewrite Hs.
  rewrite (bool_decide_eq_true_2 (progress_at t t < 1)); [done|].
  apply progress_at_lt_1. unfold duration. lra.
Qed.

Lemma setTextContent_is_Some (e x : nat) (s : string) (d : document) :
  is_Some (nodes (setTextContent e s d) !! x) <-> is_Some (nodes d !! x).
Proof. apply layout_is_Some, setTextContent_layout. Qed.

Lemma run_frames_None (ts : list Q) (d : document) : run_frames None ts d = (d, None).
Proof. by destruct ts. Qed.

(** A started run ends, with [target] displayed, at the first frame at
    least [duration] after its start. *)
Lemma run_frames_started (ts : list Q) (run : counter_run) (st : Q) (d : document) :
  cr_start run = Some st -> ~ st == 0 -> is_Some (nodes d !! cr_elem run) ->
  (exists t, t ∈ ts /\ st + duration <= t) ->
  (run_frames (Some run) ts d).2 = None /\
  textOf (run_frames (Some run) ts d).1 (cr_elem run) = Some (js_num_to_string (cr_target run)).
Proof.
  revert run d. induction ts as [|t ts IH]; intros run d Hs Hz He [t' [Hin Ht']].
  - by apply elem_of_nil in Hin.
  - simpl. destruct (Qlt_le_dec (t - st) duration) as [Hlt|Hge].
    + rewrite (step_continue run t st d Hs Hz Hlt). simpl.
      apply (IH (CounterRun (cr_elem run) (cr_target run) (Some st))); [done|done| |].
      * simpl. by apply setTextContent_is_Some.
      * exists t'. split; [|done]. apply elem_of_cons in Hin as [->|Hin]; [lra|done].
    + rewrite (step_done run t st d Hs Hz Hge). simpl. rewrite run_frames_None. simpl. split; [done|].
      apply textOf_setTextContent_eq, setTextContent_is_Some, He.
Qed.

(** ** Properties of the counter animation *)

(** C4: for a fixed non-negative target, the value a frame displays,
    [Math.floor(easeOutCubic(progress) * target)], never decreases as the
    frame timestamp grows. *)
Theorem counter_value_monotone (target : Z) (st t1 t2 : Q) :
  (0 <= target)%Z -> st <= t1 -> t1 <= t2 ->
  (Qfloor (easeOutCubic (progress_at st t1) * zq target) <=
   Qfloor (easeOutCubic (progress_at st t2) * zq target))%Z.
Proof.
  intros Ht H1 H2. apply Qfloor_resp_le, Qmult_le_compat_r; [|auto with profile].
  destruct (progress_at_bounds st t1 H1). destruct (progress_at_bounds st t2 ltac:(lra)).
  apply easeOutCubic_mono; [done| |done]. by apply progress_at_mono.
Qed.

(** C39: While the animation runs, a non-negative target's displayed value
    stays between 0 and the target. *)
Theorem counter_value_bounds (target : Z) (st t : Q) :
  (0 <= target)%Z -> st <= t ->
  (0 <= Qfloor (easeOutCubic (progress_at st t) * zq target) <= target)%Z.
Proof.
  intros Ht H. destruct (progress_at_bounds st t H) as [P0 P1].
  destruct (easeOutCubic_bounds _ P0 P1) as [E0 E1].
  pose proof (inject_Z_nonneg target Ht).
  split; [apply Qfloor_ge_Z|apply Qfloor_le_Z]; simpl.
  - change (zq 0) with 0. by apply Qmult_le_0_compat.
  - rewrite <- (Qmult_1_l (zq target)) at 2. by apply Qmult_le_compat_r.
Qed.

(** C3: the first frame at least [duration] after the start time writes
    exactly [String(target)] and requests no further frame. *)
Theorem counter_step_final (run : counter_run) (st t : Q) (d : document) :
  cr_start run = Some st -> ~ st == 0 -> duration <= t - st -> is_Some (nodes d !! cr_elem run) ->
  (step run t d).2 = None /\
  textOf (step run t d).1 (cr_elem run) = Some (js_num_to_string (cr_target run)).
Proof.
  intros Hs Hz Ht He. rewrite (step_done run t st d Hs Hz Ht). split; [done|]. simpl.
  apply textOf_setTextContent_eq, setTextContent_is_Some, He.
Qed.

(** C2: [animateCounter] terminates: fed frames whose first timestamp is
    not 0 and among which one comes [duration] or more after the first, the
    run stops requesting frames and the element shows
    [String(parseInt(data-count, 10))]. *)
Theorem counter_run_terminates (d : document) (e : nat) (t0 : Q) (ts : list Q) :
  ~ t0 == 0 -> is_Some (nodes d !! e) ->
  (exists t, t ∈ ts /\ t0 + duration <= t) ->
  (run_frames (Some (animateCounter d e)) (t0 :: ts) d).2 = None /\
  textOf (run_frames (Some (animateCounter d e)) (t0 :: ts) d).1 e =
    Some (js_num_to_string (parseInt10 (attr_string (getAttribute d e "data-count")))).
Proof.
  intros Hz He Hts. simpl. rewrite step_first by done. simpl.
  apply (run_frames_started ts (CounterRun e _ (Some t0)) t0); [done|done| |done].
  simpl. by apply setTextContent_is_Some.
Qed.

(** C30: a first frame at timestamp 0 leaves [startTime] falsy, so the
    next frame restarts the clock: after frames at 0 and [t1], the run
    continues with start time [t1] and ends only at [t1 + duration]. *)
Theorem counter_zero_timestamp_restarts (run : counter_run) (t1 : Q) (d : document) :
  cr_start run = None ->
  (run_frames (Some run) [0; t1] d).2 = Some (CounterRun (cr_elem run) (cr_target run) (Some t1)).
Proof.
  intros Hs. simpl. rewrite step_first by (by rewrite Hs). simpl.
  by rewrite step_first.
Qed.

(** ** [initCounters] *)

Lemma fallback_counters_other (cs : list nat) (d : document) (x : nat) :
  x ∉ cs -> textOf (foldl fallback_counter d cs) x = textOf d x.
Proof.
  revert d. induction cs as [|c cs IH]; intros d Hx; [done|]. simpl.
  apply not_elem_of_cons in Hx as [Hxc Hx]. rewrite IH by done.
  unfold fallback_counter. rewrite textOf_setTextContent, decide_False by done. done.
Qed.

Lemma fallback_counters_text (cs : list nat) (d : document) (x : nat) :
  x ∈ cs -> is_Some (nodes d !! x) ->
  textOf (foldl fallback_counter d cs) x = Some (text_of_attr (getAttribute d x "data-count")).
Proof.
  revert d. induction cs as [|c cs IH]; intros d Hx He; [by apply elem_of_nil in Hx|]. simpl.
  assert (L : same_layout (fallback_counter d c) d) by apply setTextContent_layout.
  destruct (decide (x ∈ cs)) as [Hin|Hnin].
  - rewrite IH; [|done|by apply (layout_is_Some _ d x L)].
    by rewrite (getAttribute_layout _ d x "data-count" L).
  - apply elem_of_cons in Hx as [->|Hx]; [|done].
    rewrite fallback_counters_other by done. by apply textOf_setTextContent_eq.
Qed.

Lemma counter_act_foldl (l : list nat) (d : document) (runs : list counter_run) :
  foldl (fun s t => counter_act t s) (d, runs) l = (d, runs ++ (animateCounter d <$> l)).
Proof.
  revert runs. induction l as [|t l IH]; intros runs; [cbn; by rewrite app_nil_r|].
  cbn [foldl]. change (counter_act t (d, runs)) with (d, runs ++ [animateCounter d t]).
  rewrite IH. by rewrite <- app_assoc.
Qed.

(** C7: with [IntersectionObserver], whatever the intersections and as
    long as a notification follows each rendering update, the observer's
    callback starts at most one [animateCounter] run per element, and only
    on elements carrying [data-count]. *)
Theorem counters_started_once (d : document) (st0 : Observer.io_state) (viss : list (nat -> bool)) :
  c_io (initCounters true d) = Some st0 ->
  let runs := (Observer.io_run counter_act (Observer.rounds viss) (st0, (d, []))).2.2 in
  NoDup (cr_elem <$> runs) /\ (forall r, r ∈ runs -> cr_elem r ∈ querySelectorAll d sel_data_count).
Proof.
  intros H.
  assert (Hst0 : st0 = foldl (fun st e => Observer.observe e st) Observer.io_empty
                         (querySelectorAll d sel_data_count)).
  { unfold initCounters in H. destruct (querySelectorAll d sel_data_count); [done|].
    by injection H as <-. }
  subst st0. clear H.
  destruct (Observer.observe_all_spec (querySelectorAll d sel_data_count) Observer.io_empty eq_refl (NoDup_nil_2))
    as (Hq & Hnd & Hin).
  destruct (Observer.io_fired_rounds_once viss _ Hq Hnd) as [F1 F2].
  rewrite Observer.io_run_spec, counter_act_foldl. cbn [fst snd app].
  rewrite <- list_fmap_compose. unfold compose. cbn [cr_elem animateCounter]. rewrite list_fmap_id. split; [done|].
  intros r Hr. apply list_elem_of_fmap in Hr as (t & -> & Ht). simpl.
  apply F2, Hin in Ht as [Ht|Ht]; [by apply elem_of_nil in Ht|done].
Qed.

(** Without [IntersectionObserver], each counter immediately shows
    its [data-count] attribute as written, not its parsed value. *)
Theorem counters_fallback_raw (d : document) (e : nat) (s : string) :
  e ∈ querySelectorAll d sel_data_count -> getAttribute d e "data-count" = Some s ->
  textOf (c_doc (initCounters false d)) e = Some s.
Proof.
  intros He Ha.
  assert (Hdoc : c_doc (initCounters false d) = foldl fallback_counter d (querySelectorAll d sel_data_count))
    by (unfold initCounters; by destruct (querySelectorAll d sel_data_count)).
  rewrite Hdoc, fallback_counters_text; [by rewrite Ha|done|].
  by apply (querySelectorAll_exists d sel_data_count).
Qed.

(** When [data-count] is the decimal spelling of an integer, the
    value the animation ends on, [String(parseInt(data-count, 10))], is
    the attribute itself, so both paths end on the same text. *)
Theorem counter_target_roundtrip (d : document) (e : nat) (z : Z) :
  getAttribute d e "data-count" = Some (js_int_to_string z) ->
  cr_target (animateCounter d e) = Some z /\
  js_num_to_string (cr_target (animateCounter d e)) = js_int_to_string z.
Proof.
  intros Ha. unfold animateCounter. simpl. rewrite Ha. simpl.
  by rewrite parseInt10_int_to_string.
Qed.

(** C28: the two paths of [initCounters] end on the same text exactly
    when [data-count] is the canonical decimal spelling of an integer (or
    is "NaN"): without [IntersectionObserver] a counter shows the attribute
    as written, while the animation ends on
    [String(parseInt(data-count, 10))].  So "1,200", "007", " 5" or "+3"
    end differently on the two paths. *)
Theorem counters_paths_diverge (d : document) (e : nat) (v : string) :
  e ∈ querySelectorAll d sel_data_count -> getAttribute d e "data-count" = Some v ->
  (textOf (c_doc (initCounters false d)) e = Some (js_num_to_string (cr_target (animateCounter d e))) <->
   (exists z, v = js_int_to_string z) \/ v = "NaN").
Proof.
  intros He Ha. rewrite (counters_fallback_raw d e v He Ha). unfold animateCounter. cbn [cr_target].
  rewrite Ha. cbn [attr_string]. split.
  - intros [= Hv]. destruct (parseInt10 v) as [z|]; [left; by exists z|by right].
  - intros [[z ->]| ->]; [by rewrite parseInt10_int_to_string|by vm_compute].
Qed.

(** ** Witnesses *)

Lemma counter_value_monotone_witness :
  (Qfloor (easeOutCubic (progress_at 1 500) * zq 120) <=
   Qfloor (easeOutCubic (progress_at 1 1500) * zq 120))%Z.
Proof. apply counter_value_monotone; [lia|lra|lra]. Defined.

Lemma counter_value_bounds_witness :
  (0 <= Qfloor (easeOutCubic (progress_at 1 700) * zq 120) <= 120)%Z.
Proof. apply counter_value_bounds; [lia|lra]. Defined.

Lemma counter_step_final_witness :
  (step (CounterRun 1 (Some 120%Z) (Some 1)) 2001 counter_page).2 = None /\
  textOf (step (CounterRun 1 (Some 120%Z) (Some 1)) 2001 counter_page).1 1 = Some "120".
Proof.
  apply (counter_step_final (CounterRun 1 (Some 120%Z) (Some 1)) 1 2001 counter_page);
    [done|decide_by_eval|unfold duration; lra|decide_by_eval].
Defined.

Lemma counter_run_terminates_witness :
  (run_frames (Some (animateCounter counter_page 1)) [16; 32; 1000; 2016; 2032] counter_page).2 = None /\
  textOf (run_frames (Some (animateCounter counter_page 1)) [16; 32; 1000; 2016; 2032] counter_page).1 1
    = Some "120".
Proof.
  apply (counter_run_terminates counter_page 1 16 [32; 1000; 2016; 2032]);
    [decide_by_eval|decide_by_eval|].
  exists 2016. split; [do 2 apply list_elem_of_further; apply list_elem_of_here|unfold duration; lra].
Defined.

Lemma counter_zero_timestamp_restarts_witness :
  (run_frames (Some (animateCounter counter_page 1)) [0; 16] counter_page).2 =
  Some (CounterRun 1 (Some 120%Z) (Some 16)).
Proof. by apply counter_zero_timestamp_restarts. Defined.

Lemma counters_started_once_witness :
  let st0 := foldl (fun st e => Observer.observe e st) Observer.io_empty [1%nat] in
  let runs := (Observer.io_run counter_act (Observer.rounds [fun _ => true; fun _ => true])
                 (st0, (counter_page, []))).2.2 in
  NoDup (cr_elem <$> runs) /\ (forall r, r ∈ runs -> cr_elem r ∈ querySelectorAll counter_page sel_data_count).
Proof. apply counters_started_once. vm_compute. reflexivity. Defined.

Lemma counters_fallback_raw_witness :
  textOf (c_doc (initCounters false counter_page)) 1 = Some "120".
Proof. apply counters_fallback_raw; [decide_by_eval|vm_compute; reflexivity]. Defined.

Lemma counter_target_roundtrip_witness :
  cr_target (animateCounter counter_page 1) = Some 120%Z /\
  js_num_to_string (cr_target (animateCounter counter_page 1)) = js_int_to_string 120.
Proof. apply counter_target_roundtrip. vm_compute. reflexivity. Defined.

Lemma counters_paths_diverge_witness :
  textOf (c_doc (initCounters false counter_page_grouped)) 1 =
    Some (js_num_to_string (cr_target (animateCounter counter_page_grouped 1))) <->
  (exists z, "1,200" = js_int_to_string z) \/ "1,200" = "NaN".
Proof. apply counters_paths_diverge; [decide_by_eval|vm_compute; reflexivity]. Defined.

End Counter.
