(* ===== verification/Timers.v ===== *)
(** * Timers of the HTML event loop: [setTimeout] and [setInterval]

    [main.js] schedules work with [setTimeout] in the reveal observer's
    callback (line 95) and in [initParticles] (lines 208 and 213), and with
    [setInterval] (line 217).  The browser's list of active timers is a
    [loop]: the current time, the next timer sequence number and the
    pending timers, each with the time it is due and its task.  The task
    type and what a task does are parameters of a Section: a task returns
    the new application state and the timers it asks for, as pairs of a
    delay and a task.  [setInterval] is a task that asks for itself again.

    One turn of the event loop runs the pending timer that is due first,
    ties going to the one scheduled first (HTML's "run steps after a
    timeout": a timer waits for those scheduled before it with a timeout
    not later than its own), and sets the clock to its due time.  A
    negative timeout is 0 (timer initialization, step 10); the clamp to
    4 ms for timers nested more than five deep never applies to this code,
    whose nested timers all wait 2000 ms or more. *)

From S2P Require Import Prelude.

Module Timers.

Section Loop.
Context {T : Type}.

Record timer := Timer {
  tm_seq : nat;           (** order of scheduling *)
  tm_due : Q;             (** the time the timeout expires *)
  tm_task : T
}.

Record loop := Loop {
  now : Q;
  next_seq : nat;
  pending : list timer    (** in order of scheduling *)
}.

(** Timer initialization step 10: a timeout less than 0 is 0. *)
Definition clamp_delay (ms : Q) : Q := if ms <q? 0 then 0 else ms.

Definition setTimeout (ms : Q) (task : T) (l : loop) : loop :=
  Loop (now l) (S (next_seq l)) (pending l ++ [Timer (next_seq l) (now l + clamp_delay ms) task]).

Definition schedule (reqs : list (Q * T)) (l : loop) : loop :=
  foldl (fun l r => setTimeout r.1 r.2 l) l reqs.

(** The timer that runs next: the earliest due, the first scheduled among
    those due together. *)
Definition earliest (best : option timer) (tm : timer) : option timer :=
  match best with
  | Some b => if tm_due tm <q? tm_due b then Some tm else best
  | None => Some tm
  end.

Definition next_timer (ts : list timer) : option timer := foldl earliest None ts.

Definition remove_timer (s : nat) (ts : list timer) : list timer :=
  filter (fun tm => tm_seq tm ≠ s) ts.

Context {A : Type} (handle : T -> Q -> A -> A * list (Q * T)).

(** Running timer [tm]: the clock moves to its due time, the timer leaves
    the list, its task runs and schedules what it asks for. *)
Definition fire (tm : timer) (st : loop * A) : loop * A :=
  let l1 := Loop (tm_due tm) (next_seq st.1) (remove_timer (tm_seq tm) (pending st.1)) in
  let '(a', reqs) := handle (tm_task tm) (tm_due tm) st.2 in
  (schedule reqs l1, a').

(** Run the timers due by [limit], at most [fuel] of them. *)
Fixpoint run_until (fuel : nat) (limit : Q) (st : loop * A) : loop * A :=
  match fuel with
  | O => st
  | S f =>
      match next_timer (pending st.1) with
      | Some tm => if tm_due tm <=q? limit then run_until f limit (fire tm st) else st
      | None => st
      end
  end.

(** Time passes to [limit], the timers due by then having run. *)
Definition advance (fuel : nat) (limit : Q) (st : loop * A) : loop * A :=
  let '(l, a) := run_until fuel limit st in
  (Loop (Qmax (now l) limit) (next_seq l) (pending l), a).

End Loop.

Arguments loop : clear implicits.
Arguments timer : clear implicits.

Definition loop_empty {T : Type} (t0 : Q) : loop T := Loop t0 0 [].

(** The list of active timers is well formed: nothing is due before the
    current time and the sequence numbers are distinct and already issued. *)
Definition loop_wf {T : Type} (l : loop T) : Prop :=
  (forall tm, tm ∈ pending l -> now l <= tm_due tm) /\
  NoDup (tm_seq <$> pending l) /\
  (forall tm, tm ∈ pending l -> (tm_seq tm < next_seq l)%nat).

(** A firing that [run_until limit] performs: the next timer, due by
    [limit]. *)
Definition due_firing {T A : Type} (limit : Q) (st : loop T * A) (tm : timer T) : Prop :=
  next_timer (pending st.1) = Some tm /\ tm_due tm <= limit.

Lemma loop_empty_wf {T : Type} (t0 : Q) : loop_wf (@loop_empty T t0).
Proof. split_and!; [intros tm Htm; by apply elem_of_nil in Htm|constructor|intros tm Htm; by apply elem_of_nil in Htm]. Qed.

(** ** The timer that runs next *)

Section NextTimer.
Context {T : Type}.
Implicit Types (ts : list (timer T)) (tm : timer T).

Lemma earliest_foldl ts (b : option (timer T)) tm :
  foldl earliest b ts = Some tm ->
  (b = Some tm \/ tm ∈ ts) /\ (forall x, x ∈ ts -> tm_due tm <= tm_due x) /\
  (forall b0, b = Some b0 -> tm_due tm <= tm_due b0).
Proof.
  revert b. induction ts as [|x ts IH]; intros b H.
  - simpl in H. subst b. split_and!; [by left|intros x Hx; by apply elem_of_nil in Hx|]. intros b0 [= ->]. apply Qle_refl.
  - simpl in H. destruct (IH _ H) as (Hin & Hle & Hb).
    assert (Hx : tm_due tm <= tm_due x /\ forall b0, b = Some b0 -> tm_due tm <= tm_due b0).
    { destruct b as [b|]; simpl in *; [case_bool_decide|].
      - pose proof (Hb x eq_refl). split; [done|]. intros b0 [= <-]. lra.
      - pose proof (Hb b eq_refl). apply Qnot_lt_le in H0. split; [lra|]. by intros b0 [= <-].
      - split; [by apply Hb|done]. }
    destruct Hx as [Hx Hx']. split_and!; [|set_solver|done].
    destruct b as [b|]; simpl in Hin; [case_bool_decide|]; destruct Hin as [Hin|Hin];
      try (by right; set_solver); injection Hin as ->; try (by left); by right; left.
Qed.

Lemma next_timer_spec ts tm :
  next_timer ts = Some tm -> tm ∈ ts /\ forall x, x ∈ ts -> tm_due tm <= tm_due x.
Proof.
  intros H. destruct (earliest_foldl ts None tm H) as ([Hb|Hin] & Hle & _); [done|]. done.
Qed.

Lemma earliest_is_Some ts (b : option (timer T)) : is_Some b -> is_Some (foldl earliest b ts).
Proof.
  revert b. induction ts as [|x ts IH]; intros b Hb; [done|]. simpl. apply IH.
  destruct b as [b|]; simpl; [case_bool_decide|]; by eexists.
Qed.

Lemma next_timer_None ts : next_timer ts = None <-> ts = [].
Proof.
  split; [|by intros ->]. destruct ts as [|x ts]; [done|]. unfold next_timer. simpl.
  intros H. by destruct (earliest_is_Some ts (Some x) ltac:(by eexists)) as [y Hy]; rewrite Hy in H.
Qed.

Lemma remove_timer_length ts tm :
  tm ∈ ts -> (length (remove_timer (tm_seq tm) ts) < length ts)%nat.
Proof.
  intros Hin. unfold remove_timer. apply length_filter_lt with tm; [done|]. by intros [].
Qed.

End NextTimer.

(** ** The list of active timers stays well formed *)

Section WellFormed.
Context {T A : Type} (handle : T -> Q -> A -> A * list (Q * T)).
Implicit Types (l : loop T) (st : loop T * A) (tm : timer T).

Lemma clamp_delay_nonneg (ms : Q) : 0 <= clamp_delay ms.
Proof. unfold clamp_delay. case_bool_decide; [apply Qle_refl|]. by apply Qnot_lt_le. Qed.

Lemma clamp_delay_id (ms : Q) : 0 <= ms -> clamp_delay ms = ms.
Proof. intros H. unfold clamp_delay. rewrite bool_decide_eq_false_2; [done|]. by apply Qle_not_lt. Qed.

Lemma clamp_delay_neg (ms : Q) : ms < 0 -> clamp_delay ms = 0.
Proof. intros H. unfold clamp_delay. by rewrite bool_decide_eq_true_2. Qed.

Lemma setTimeout_wf l ms (t : T) : loop_wf l -> loop_wf (setTimeout ms t l).
Proof.
  intros (Hdue & Hnd & Hlt). unfold setTimeout. split_and!; simpl.
  - intros tm [Hin|Hin%list_elem_of_singleton]%elem_of_app; [by apply Hdue|subst tm].
    simpl. pose proof (clamp_delay_nonneg ms). lra.
  - rewrite fmap_app. apply NoDup_app. split_and!; [done| |apply NoDup_singleton].
    intros s (tm & -> & Hin)%list_elem_of_fmap Hs. apply list_elem_of_singleton in Hs.
    specialize (Hlt tm Hin). simpl in Hs. lia.
  - intros tm [Hin|Hin%list_elem_of_singleton]%elem_of_app; [specialize (Hlt tm Hin); lia|subst tm; simpl; lia].
Qed.

Lemma schedule_wf (reqs : list (Q * T)) l : loop_wf l -> loop_wf (schedule reqs l).
Proof.
  revert l. induction reqs as [|r reqs IH]; intros l Hl; [done|]. apply IH, setTimeout_wf, Hl.
Qed.

Lemma schedule_now (reqs : list (Q * T)) l : now (schedule reqs l) = now l.
Proof. revert l. induction reqs as [|r reqs IH]; intros l; [done|]. simpl. by rewrite IH. Qed.

Lemma schedule_pending (reqs : list (Q * T)) l :
  exists ts, pending (schedule reqs l) = pending l ++ ts.
Proof.
  revert l. induction reqs as [|r reqs IH]; intros l; [exists []; by rewrite app_nil_r|].
  destruct (IH (setTimeout r.1 r.2 l)) as [ts Hts]. cbn [schedule foldl]. unfold schedule in Hts.
  rewrite Hts. eexists. simpl. by rewrite <- app_assoc.
Qed.

Lemma remove_timer_elem (s : nat) (ts : list (timer T)) tm :
  tm ∈ remove_timer s ts <-> tm ∈ ts /\ tm_seq tm ≠ s.
Proof. unfold remove_timer. rewrite list_elem_of_filter. tauto. Qed.

Lemma fire_wf tm st :
  loop_wf st.1 -> next_timer (pending st.1) = Some tm -> loop_wf (fire handle tm st).1.
Proof.
  intros (Hdue & Hnd & Hlt) Hnext. destruct (next_timer_spec _ _ Hnext) as [Hin Hmin].
  unfold fire. destruct (handle (tm_task tm) (tm_due tm) st.2) as [a' reqs]. simpl.
  apply schedule_wf. split_and!; simpl.
  - intros x [Hx _]%remove_timer_elem. by apply Hmin.
  - eapply sublist_NoDup; [exact Hnd|]. apply fmap_sublist, sublist_filter.
  - intros x [Hx _]%remove_timer_elem. by apply Hlt.
Qed.

Lemma fire_now tm st : now (fire handle tm st).1 = tm_due tm.
Proof. unfold fire. destruct (handle _ _ _). simpl. by rewrite schedule_now. Qed.

Lemma run_until_wf (fuel : nat) (limit : Q) st :
  loop_wf st.1 -> loop_wf (run_until handle fuel limit st).1.
Proof.
  revert st. induction fuel as [|f IH]; intros st Hwf; [done|]. simpl.
  destruct (next_timer (pending st.1)) as [tm|] eqn:E; [|done].
  case_bool_decide; [|done]. by apply IH, fire_wf.
Qed.

(** The clock never goes back. *)
Lemma run_until_now (fuel : nat) (limit : Q) st :
  loop_wf st.1 -> now st.1 <= now (run_until handle fuel limit st).1.
Proof.
  revert st. induction fuel as [|f IH]; intros st Hwf; [apply Qle_refl|]. simpl.
  destruct (next_timer (pending st.1)) as [tm|] eqn:E; [|apply Qle_refl].
  case_bool_decide; [|apply Qle_refl].
  pose proof (IH _ (fire_wf tm st Hwf E)) as H'. rewrite fire_now in H'.
  destruct (next_timer_spec _ _ E) as [Hin _]. pose proof (proj1 Hwf tm Hin). lra.
Qed.

End WellFormed.

(** ** The effect of one firing *)

Lemma remove_timer_split {T : Type} (ts : list (timer T)) (tm : timer T) :
  NoDup (tm_seq <$> ts) -> tm ∈ ts ->
  exists pre post, ts = pre ++ tm :: post /\ remove_timer (tm_seq tm) ts = pre ++ post.
Proof.
  intros Hnd Hin. apply list_elem_of_split in Hin as (pre & post & ->).
  exists pre, post. split; [done|].
  rewrite fmap_app, fmap_cons in Hnd. apply NoDup_app in Hnd as (Hpre & Hdis & Hpost).
  apply NoDup_cons in Hpost as [Hnotin _].
  unfold remove_timer. rewrite filter_app, filter_cons_False by (intros []; done).
  rewrite !filter_all; [done| |].
  - intros x Hx Hs. apply Hnotin. rewrite <- Hs. by apply list_elem_of_fmap_2.
  - intros x Hx Hs. apply (Hdis (tm_seq x)); [by apply list_elem_of_fmap_2|]. rewrite Hs. by left.
Qed.

Lemma schedule_spec {T : Type} (reqs : list (Q * T)) (l : loop T) :
  exists ts, pending (schedule reqs l) = pending l ++ ts /\
    Forall2 (fun tm r => tm_task tm = r.2 /\ tm_due tm = now l + clamp_delay r.1) ts reqs.
Proof.
  revert l. induction reqs as [|r reqs IH]; intros l; [exists []; by rewrite app_nil_r|].
  destruct (IH (setTimeout r.1 r.2 l)) as (ts & Hp & Hf).
  exists (Timer (next_seq l) (now l + clamp_delay r.1) r.2 :: ts). split.
  - cbn [schedule foldl]. unfold schedule in Hp. rewrite Hp. simpl. by rewrite <- app_assoc.
  - constructor; [done|]. exact Hf.
Qed.

(** Firing [tm]: the clock is at its due time, the task has run, and the
    timers it asked for follow the others, due [tm]'s time plus their
    clamped delay. *)
Lemma fire_spec {T A : Type} (handle : T -> Q -> A -> A * list (Q * T)) (tm : timer T) (st : loop T * A) :
  now (fire handle tm st).1 = tm_due tm /\
  (fire handle tm st).2 = (handle (tm_task tm) (tm_due tm) st.2).1 /\
  exists ts, pending (fire handle tm st).1 = remove_timer (tm_seq tm) (pending st.1) ++ ts /\
    Forall2 (fun tm' r => tm_task tm' = r.2 /\ tm_due tm' = tm_due tm + clamp_delay r.1) ts
      (handle (tm_task tm) (tm_due tm) st.2).2.
Proof.
  unfold fire. destruct (handle _ _ _) as [a' reqs]. simpl. split_and!; [by rewrite schedule_now|done|].
  apply (schedule_spec reqs (Loop (tm_due tm) (next_seq st.1) (remove_timer (tm_seq tm) (pending st.1)))).
Qed.

(** ** Running until a limit: termination by a potential *)

(** The timers fired before [limit] terminate when a potential, a natural
    number, decreases at every firing of a timer due by then, for the
    states of an invariant kept by those firings. *)

Lemma fire_pending {T A : Type} (handle : T -> Q -> A -> A * list (Q * T)) (tm : timer T) (st : loop T * A) :
  exists ts, pending (fire handle tm st).1 = remove_timer (tm_seq tm) (pending st.1) ++ ts.
Proof.
  unfold fire. destruct (handle _ _ _) as [a' reqs]. simpl.
  destruct (schedule_pending reqs (Loop (tm_due tm) (next_seq st.1) (remove_timer (tm_seq tm) (pending st.1))))
    as [ts Hts]. by exists ts.
Qed.

Section Potential.
Context {T A : Type} (handle : T -> Q -> A -> A * list (Q * T)) (limit : Q).
Context (I : loop T * A -> Prop) (Φ : loop T * A -> nat).
Implicit Types (st : loop T * A) (tm : timer T).

Hypothesis I_wf : forall st, I st -> loop_wf st.1.
Hypothesis I_fire : forall st tm, I st -> due_firing limit st tm -> I (fire handle tm st).
Hypothesis Φ_fire : forall st tm, I st -> due_firing limit st tm -> (Φ (fire handle tm st) < Φ st)%nat.

Lemma due_firing_exists st tm :
  tm ∈ pending st.1 -> tm_due tm <= limit -> exists tm0, due_firing limit st tm0 /\ tm_due tm0 <= tm_due tm.
Proof.
  intros Hin Hdue. destruct (next_timer (pending st.1)) as [tm0|] eqn:E.
  - destruct (next_timer_spec _ _ E) as [_ Hmin]. pose proof (Hmin tm Hin).
    exists tm0. unfold due_firing. split_and!; [done|lra|done].
  - apply next_timer_None in E. rewrite E in Hin. by apply elem_of_nil in Hin.
Qed.

Lemma run_until_inv (fuel : nat) st : I st -> I (run_until handle fuel limit st).
Proof.
  revert st. induction fuel as [|f IH]; intros st H; [done|]. simpl.
  destruct (next_timer (pending st.1)) as [tm|] eqn:E; [|done].
  case_bool_decide; [|done]. by apply IH, I_fire.
Qed.

(** As many turns as the potential run every timer due by [limit]. *)
Lemma run_until_done (fuel : nat) st :
  I st -> (Φ st <= fuel)%nat -> forall tm, tm ∈ pending (run_until handle fuel limit st).1 -> limit < tm_due tm.
Proof.
  revert st. induction fuel as [|f IH]; intros st HI Hle tm Htm.
  - destruct (Qlt_le_dec limit (tm_due tm)) as [?|Hdue]; [done|].
    destruct (due_firing_exists st tm Htm Hdue) as (tm0 & Hf & _).
    pose proof (Φ_fire st tm0 HI Hf). lia.
  - simpl in Htm. destruct (next_timer (pending st.1)) as [tm0|] eqn:E.
    + destruct (next_timer_spec _ _ E) as [Hin Hmin]. case_bool_decide as Hd.
      * apply (IH (fire handle tm0 st)); [by apply I_fire| |done].
        pose proof (Φ_fire st tm0 HI (conj E Hd)). lia.
      * apply Qnot_le_lt in Hd. pose proof (Hmin tm Htm). lra.
    + apply next_timer_None in E. rewrite E in Htm. by apply elem_of_nil in Htm.
Qed.

Context (P : loop T * A -> Prop).
Hypothesis P_fire : forall st tm, I st -> P st -> due_firing limit st tm -> P (fire handle tm st).

Lemma run_until_keeps (fuel : nat) st : I st -> P st -> P (run_until handle fuel limit st).
Proof.
  revert st. induction fuel as [|f IH]; intros st HI HP; [done|]. simpl.
  destruct (next_timer (pending st.1)) as [tm|] eqn:E; [|done].
  case_bool_decide as Hd; [|done]. apply IH; [by apply I_fire|by apply P_fire].
Qed.

(** A pending timer due by [limit] fires within as many turns as the
    potential; what its firing establishes, when kept by the others, holds
    at the end. *)
Lemma run_until_fires (fuel : nat) st tm :
  I st -> tm ∈ pending st.1 -> tm_due tm <= limit ->
  (forall st', I st' -> due_firing limit st' tm -> P (fire handle tm st')) ->
  (Φ st <= fuel)%nat -> P (run_until handle fuel limit st).
Proof.
  revert st. induction fuel as [|f IH]; intros st HI Hin Hdue Htask Hle.
  - destruct (due_firing_exists st tm Hin Hdue) as (tm0 & Hf & _).
    pose proof (Φ_fire st tm0 HI Hf). lia.
  - destruct (due_firing_exists st tm Hin Hdue) as (tm0 & [E Hd] & _).
    simpl. rewrite E, bool_decide_eq_true_2 by done.
    destruct (decide (tm_seq tm0 = tm_seq tm)) as [Hs|Hs].
    + destruct (next_timer_spec _ _ E) as [Hin0 _].
      assert (tm0 = tm) as -> by (apply (NoDup_fmap_inj_in tm_seq (pending st.1)); by try apply I_wf).
      apply run_until_keeps; [by apply I_fire|by apply Htask].
    + apply IH; [by apply I_fire| |done|done|].
      * destruct (fire_pending handle tm0 st) as [ts ->]. apply elem_of_app. left.
        apply remove_timer_elem. split; [done|congruence].
      * pose proof (Φ_fire st tm0 HI (conj E Hd)). lia.
Qed.

End Potential.

(** ** Tasks that schedule nothing *)

Section Quiet.
Context {T A : Type} (handle : T -> Q -> A -> A * list (Q * T)).
Hypothesis quiet : forall t q a, (handle t q a).2 = [].
Implicit Types (st : loop T * A) (tm : timer T).

Lemma fire_quiet tm st :
  fire handle tm st =
  (Loop (tm_due tm) (next_seq st.1) (remove_timer (tm_seq tm) (pending st.1)),
   (handle (tm_task tm) (tm_due tm) st.2).1).
Proof.
  unfold fire. pose proof (quiet (tm_task tm) (tm_due tm) st.2) as Hq.
  destruct (handle _ _ _) as [a' reqs]. simpl in *. by subst.
Qed.

Lemma fire_quiet_length tm st :
  tm ∈ pending st.1 -> (length (pending (fire handle tm st).1) < length (pending st.1))%nat.
Proof. intros Hin. rewrite fire_quiet. by apply remove_timer_length. Qed.

Lemma quiet_decreases (I : loop T * A -> Prop) (limit : Q) st tm :
  I st -> due_firing limit st tm -> (length (pending (fire handle tm st).1) < length (pending st.1))%nat.
Proof. intros _ [E _]. apply fire_quiet_length. by apply (next_timer_spec _ _ E). Qed.

Lemma quiet_wf (limit : Q) st tm : loop_wf st.1 -> due_firing limit st tm -> loop_wf (fire handle tm st).1.
Proof. intros H [E _]. by apply fire_wf. Qed.

(** As many turns as there are pending timers run every timer due by
    [limit]. *)
Lemma run_until_quiet_done (fuel : nat) (limit : Q) st :
  (length (pending st.1) <= fuel)%nat ->
  forall tm, tm ∈ pending (run_until handle fuel limit st).1 -> limit < tm_due tm.
Proof.
  intros Hlen. apply (run_until_done handle limit (fun _ => True) (fun st => length (pending st.1)));
    [by intros|apply (quiet_decreases (fun _ => True))|done|done].
Qed.

Context (P : A -> Prop) (HP : forall t q a, P a -> P (handle t q a).1).

Lemma run_until_quiet_preserves (fuel : nat) (limit : Q) st :
  P st.2 -> P (run_until handle fuel limit st).2.
Proof.
  revert st. induction fuel as [|f IH]; intros st H; [done|]. simpl.
  destruct (next_timer (pending st.1)) as [tm|]; [|done]. case_bool_decide; [|done].
  apply IH. rewrite fire_quiet. by apply HP.
Qed.

(** A pending timer due by [limit] runs: when what its task establishes is
    kept by every task, it holds at the end. *)
Lemma run_until_quiet_fires (fuel : nat) (limit : Q) st tm :
  loop_wf st.1 -> tm ∈ pending st.1 -> tm_due tm <= limit ->
  (forall q a, P (handle (tm_task tm) q a).1) ->
  (length (pending st.1) <= fuel)%nat ->
  P (run_until handle fuel limit st).2.
Proof.
  intros Hwf Hin Hdue Htask Hlen.
  assert (HPf : forall st' tm', loop_wf st'.1 -> P st'.2 -> due_firing limit st' tm' -> P (fire handle tm' st').2)
    by (intros st' tm' _ H' _; rewrite fire_quiet; by apply HP).
  apply (run_until_fires handle limit (fun st => loop_wf st.1) (fun st => length (pending st.1))
           (fun _ H => H) (quiet_wf limit) (quiet_decreases _ limit) (fun st => P st.2) HPf fuel st tm); try done.
  intros st' _ _. rewrite fire_quiet. apply Htask.
Qed.

End Quiet.

End Timers.
