(* ===== verification/Reveal.v ===== *)
(** * Reveal-on-scroll animator: [initScrollAnimations] of [src/js/main.js]

    [initScrollAnimations] (lines 78-113) finds the [[data-animate]]
    elements.  Without [IntersectionObserver] it adds [visible] to each at
    once; otherwise it observes them, and the observer's callback, for each
    intersecting entry, reads [data-delay], sets a timer that adds
    [visible] to the element passed as the timer's extra argument, and
    unobserves the element.  The callback is [Observer.one_shot_callback]
    over [reveal_act]; the timers are those of [Timers].  [setTimeout]
    takes its timeout as a WebIDL [long]: [NaN] becomes 0 and an integer
    wraps modulo 2^32 into the signed range before HTML clamps a negative
    timeout to 0; [to_long] of [JsNum.v] writes that conversion out.

    The page as this component sees it is a [reveal_world]: the observer,
    the document and the timers, moved by rendering updates, notifications
    and the passing of time.  Waiting runs the timers due by then, with as
    many turns as there are pending timers, which is enough because a reveal
    timer schedules nothing ([Timers.run_until_quiet_done]). *)

From S2P Require Import Prelude JsNum Dom Observer Timers.

Module Reveal.

(** [document.querySelectorAll('[data-animate]')] (line 79). *)
Definition sel_data_animate : selector := Sel None (Some ("data-animate", AttrPresent)).

(** The task of [setTimeout(function (element) {...}, delay, el)]
    (lines 96-102): the element is bound when the timer is set. *)
Inductive reveal_task := RevealVisible (element : nat).

(** The timer's callback: [element.classList.add('visible')]. *)
Definition reveal_handle (t : reveal_task) (_ : Q) (d : document) : document * list (Q * reveal_task) :=
  match t with RevealVisible e => (classList_add e "visible" d, []) end.

(** [el.getAttribute('data-delay') || '0'] (line 95): null and the empty
    string are falsy. *)
Definition delay_string (o : option string) : string :=
  match o with
  | Some EmptyString | None => "0"
  | Some s => s
  end.

(** The timeout [setTimeout] receives for an element (line 95). *)
Definition reveal_delay (d : document) (e : nat) : Z :=
  to_long (parseInt10 (delay_string (getAttribute d e "data-delay"))).

(** The callback's work on an intersecting element (lines 93-102); the
    [observer.unobserve(el)] that follows is [Observer.one_shot_entry]'s. *)
Definition reveal_act (e : nat) (acc : document * Timers.loop reveal_task)
    : document * Timers.loop reveal_task :=
  (acc.1, Timers.setTimeout (zq (reveal_delay acc.1 e)) (RevealVisible e) acc.2).

(** What [initScrollAnimations] leaves: the document and its observer when
    one was created. *)
Record scroll_anims := ScrollAnims {
  a_doc : document;
  a_io : option Observer.io_state
}.

(** The fallback loop (lines 84-85), one element at a time. *)
Definition fallback_visible (d : document) (e : nat) : document := classList_add e "visible" d.

(** [initScrollAnimations] (lines 78-113), [hasIO] being
    ['IntersectionObserver' in window]. *)
Definition initScrollAnimations (hasIO : bool) (d : document) : scroll_anims :=
  match querySelectorAll d sel_data_animate with
  | [] => ScrollAnims d None
  | els =>
      if hasIO
      then ScrollAnims d (Some (foldl (fun st e => Observer.observe e st) Observer.io_empty els))
      else ScrollAnims (foldl fallback_visible d els) None
  end.

(** The observer, the document and the timers. *)
Record reveal_world := RevealWorld {
  w_io : Observer.io_state;
  w_doc : document;
  w_loop : Timers.loop reveal_task
}.

Inductive reveal_event :=
  | RUpdate (vis : nat -> bool)    (** a rendering update *)
  | RNotify                        (** the observer's notification task *)
  | RWait (t : Q).                 (** time passes to [t] *)

Definition reveal_step (w : reveal_world) (ev : reveal_event) : reveal_world :=
  match ev with
  | RUpdate vis => RevealWorld (Observer.update vis (w_io w)) (w_doc w) (w_loop w)
  | RNotify =>
      let '(io, (d, l)) := Observer.notify reveal_act (w_io w, (w_doc w, w_loop w)) in
      RevealWorld io d l
  | RWait t =>
      let '(l, d) := Timers.advance reveal_handle (length (Timers.pending (w_loop w))) t
                       (w_loop w, w_doc w) in
      RevealWorld (w_io w) d l
  end.

Definition reveal_run (evs : list reveal_event) (w : reveal_world) : reveal_world :=
  foldl reveal_step w evs.

(** A page with one animated element and the given [data-delay]. *)
Definition reveal_page_with (delay : string) : document :=
  mkDocument (list_to_map [(1%nat, element "div" [("data-animate", "fade-up"); ("data-delay", delay)] None 0 100)])
    [1%nat].

#[export] Instance RevealVisible_inj : Inj eq eq RevealVisible.
Proof. by intros ?? [= ->]. Qed.

(** ** The timeout *)

Lemma reveal_handle_quiet (t : reveal_task) (q : Q) (d : document) : (reveal_handle t q d).2 = [].
Proof. by destruct t. Qed.

Lemma reveal_handle_layout (t : reveal_task) (q : Q) (d : document) :
  same_layout (reveal_handle t q d).1 d.
Proof. destruct t. apply classList_add_layout. Qed.

(** A reveal timer only ever adds [visible]. *)
Lemma reveal_handle_visible (t : reveal_task) (q : Q) (d : document) (x : nat) :
  hasClass d x "visible" = true -> hasClass (reveal_handle t q d).1 x "visible" = true.
Proof. destruct t. simpl. rewrite hasClass_add. by intros ->. Qed.

Lemma reveal_handle_exists (t : reveal_task) (q : Q) (d : document) (x : nat) :
  is_Some (nodes (reveal_handle t q d).1 !! x) <-> is_Some (nodes d !! x).
Proof. apply layout_is_Some, reveal_handle_layout. Qed.

Lemma classList_add_visible (e : nat) (d : document) :
  is_Some (nodes (classList_add e "visible" d) !! e) -> hasClass (classList_add e "visible" d) e "visible" = true.
Proof.
  intros He. rewrite hasClass_add. apply orb_true_intro. right. apply bool_decide_eq_true_2.
  split_and!; [done|done|]. by apply (layout_is_Some _ _ e (classList_add_layout e "visible" d)).
Qed.

(** ** The fallback *)

Lemma fallback_visible_keep (els : list nat) (d : document) (x : nat) :
  hasClass d x "visible" = true -> hasClass (foldl fallback_visible d els) x "visible" = true.
Proof.
  revert d. induction els as [|c els IH]; intros d H; [done|]. apply IH.
  unfold fallback_visible. rewrite hasClass_add, H. done.
Qed.

Lemma fallback_visible_spec (els : list nat) (d : document) (x : nat) :
  x ∈ els -> is_Some (nodes d !! x) -> hasClass (foldl fallback_visible d els) x "visible" = true.
Proof.
  revert d. induction els as [|c els IH]; intros d Hx He; [by apply elem_of_nil in Hx|]. simpl.
  apply elem_of_cons in Hx as [->|Hx].
  - apply fallback_visible_keep, classList_add_visible.
    by apply (layout_is_Some _ _ c (classList_add_layout c "visible" d)).
  - apply IH; [done|]. by apply (layout_is_Some _ _ x (classList_add_layout c "visible" d)).
Qed.

Lemma initScrollAnimations_fallback_doc (d : document) :
  a_doc (initScrollAnimations false d) = foldl fallback_visible d (querySelectorAll d sel_data_animate).
Proof. unfold initScrollAnimations. by destruct (querySelectorAll d sel_data_animate). Qed.

(** ** The callback sets one timer per intersecting element *)

Lemma reveal_act_foldl (es : list nat) (d : document) (l : Timers.loop reveal_task) :
  foldl (fun s t => reveal_act t s) (d, l) es =
  (d, foldl (fun l e => Timers.setTimeout (zq (reveal_delay d e)) (RevealVisible e) l) l es).
Proof. revert l. induction es as [|e es IH]; intros l; [done|]. apply IH. Qed.

Lemma reveal_timers_spec (d : document) (es : list nat) (l : Timers.loop reveal_task) :
  let l' := foldl (fun l e => Timers.setTimeout (zq (reveal_delay d e)) (RevealVisible e) l) l es in
  Timers.now l' = Timers.now l /\
  (forall tm, tm ∈ Timers.pending l -> tm ∈ Timers.pending l') /\
  (forall e, e ∈ es -> exists tm, tm ∈ Timers.pending l' /\ Timers.tm_task tm = RevealVisible e /\
     Timers.tm_due tm = Timers.now l + Timers.clamp_delay (zq (reveal_delay d e))) /\
  (Timers.loop_wf l -> Timers.loop_wf l').
Proof.
  revert l. induction es as [|e es IH]; intros l; simpl.
  - split_and!; [done|done| |done]. intros e He. by apply elem_of_nil in He.
  - destruct (IH (Timers.setTimeout (zq (reveal_delay d e)) (RevealVisible e) l)) as (Hn & Hk & Hs & Hw).
    simpl in Hn. split_and!; [done| | |].
    + intros tm Htm. apply Hk. simpl. apply elem_of_app. by left.
    + intros x [->|Hx]%elem_of_cons; [|by apply Hs].
      eexists. split; [apply Hk; simpl; apply elem_of_app; right; by left|done].
    + intros Hl. by apply Hw, Timers.setTimeout_wf.
Qed.

Lemma fired_elem (es : list (nat * bool)) (e : nat) : (e, true) ∈ es -> e ∈ Observer.fired es.
Proof.
  intros H. unfold Observer.fired. apply list_elem_of_fmap. exists (e, true).
  split; [done|]. by apply list_elem_of_filter.
Qed.

Lemma reveal_step_notify (w : reveal_world) :
  reveal_step w RNotify =
  RevealWorld (Observer.notify_state (w_io w)) (w_doc w)
    (foldl (fun l e => Timers.setTimeout (zq (reveal_delay (w_doc w) e)) (RevealVisible e) l)
       (w_loop w) (Observer.fired (Observer.queued (w_io w)))).
Proof.
  unfold reveal_step, Observer.notify. rewrite Observer.one_shot_callback_spec. simpl.
  by rewrite reveal_act_foldl.
Qed.

Lemma reveal_step_wait (w : reveal_world) (t : Q) :
  let st := Timers.run_until reveal_handle (length (Timers.pending (w_loop w))) t (w_loop w, w_doc w) in
  reveal_step w (RWait t) =
  RevealWorld (w_io w) st.2 (Timers.Loop (Qmax (Timers.now st.1) t) (Timers.next_seq st.1) (Timers.pending st.1)).
Proof. simpl. unfold Timers.advance. by destruct (Timers.run_until _ _ _ _). Qed.

(** What a reveal timer establishes for element [e], kept by every timer. *)
Lemma reveal_visible_kept (e : nat) (t : reveal_task) (q : Q) (d : document) :
  (is_Some (nodes d !! e) -> hasClass d e "visible" = true) ->
  is_Some (nodes (reveal_handle t q d).1 !! e) -> hasClass (reveal_handle t q d).1 e "visible" = true.
Proof.
  intros H He%reveal_handle_exists. by apply reveal_handle_visible, H.
Qed.

Lemma reveal_run_wait_exists (w : reveal_world) (t : Q) (x : nat) :
  is_Some (nodes (w_doc w) !! x) ->
  is_Some (nodes (Timers.run_until reveal_handle (length (Timers.pending (w_loop w))) t (w_loop w, w_doc w)).2 !! x).
Proof.
  intros Hx.
  apply (Timers.run_until_quiet_preserves reveal_handle reveal_handle_quiet (fun d => is_Some (nodes d !! x)));
    [|done].
  intros tk q a H. by apply reveal_handle_exists.
Qed.

(** A pending reveal timer due by [t] has run once time has passed to [t]. *)
Lemma reveal_wait_fires (w : reveal_world) (t : Q) (tm : Timers.timer reveal_task) (e : nat) :
  Timers.loop_wf (w_loop w) -> tm ∈ Timers.pending (w_loop w) -> Timers.tm_task tm = RevealVisible e ->
  Timers.tm_due tm <= t -> is_Some (nodes (w_doc w) !! e) ->
  hasClass (w_doc (reveal_step w (RWait t))) e "visible" = true.
Proof.
  intros Hwf Hin Htask Hdue He. rewrite reveal_step_wait. simpl.
  apply (Timers.run_until_quiet_fires reveal_handle reveal_handle_quiet
           (fun d => is_Some (nodes d !! e) -> hasClass d e "visible" = true) (reveal_visible_kept e)
           _ t _ tm); [done|done|done| |done|by apply reveal_run_wait_exists].
  intros q a. rewrite Htask. apply classList_add_visible.
Qed.

Lemma reveal_timers_tasks (d : document) (es : list nat) (l : Timers.loop reveal_task) :
  exists new,
    Timers.pending (foldl (fun l e => Timers.setTimeout (zq (reveal_delay d e)) (RevealVisible e) l) l es) =
    Timers.pending l ++ new /\ Timers.tm_task <$> new = RevealVisible <$> es.
Proof.
  revert l. induction es as [|e es IH]; intros l; [exists []; by rewrite app_nil_r|]. simpl.
  destruct (IH (Timers.setTimeout (zq (reveal_delay d e)) (RevealVisible e) l)) as (new & Hp & Ht).
  exists (Timers.Timer (Timers.next_seq l) (Timers.now l + Timers.clamp_delay (zq (reveal_delay d e)))
            (RevealVisible e) :: new).
  rewrite Hp. simpl. rewrite <- app_assoc. split; [done|]. f_equal. exact Ht.
Qed.

Lemma delay_string_nonempty (s : string) : s <> EmptyString -> delay_string (Some s) = s.
Proof. by destruct s. Qed.

Lemma clamp_delay_lt (z : Z) : (z < 2 ^ 31)%Z -> Timers.clamp_delay (zq z) < zq (2 ^ 31).
Proof.
  intros Hz. unfold Timers.clamp_delay. case_bool_decide; [reflexivity|]. by rewrite <- Zlt_Qlt.
Qed.

(** ** Properties of the reveal animator *)

(** C20: without [IntersectionObserver], [initScrollAnimations] adds
    [visible] to every [[data-animate]] element at once. *)
Theorem reveal_fallback_all_visible (d : document) (e : nat) :
  e ∈ querySelectorAll d sel_data_animate ->
  hasClass (a_doc (initScrollAnimations false d)) e "visible" = true.
Proof.
  intros He. rewrite initScrollAnimations_fallback_doc. apply fallback_visible_spec; [done|]. by apply (querySelectorAll_exists d sel_data_animate).
Qed.

(** Waiting until [t] runs every reveal timer due by then: no pending
    timer is due at or before [t] afterwards. *)
Theorem reveal_wait_done (w : reveal_world) (t : Q) :
  forall tm, tm ∈ Timers.pending (w_loop (reveal_step w (RWait t))) -> t < Timers.tm_due tm.
Proof.
  rewrite reveal_step_wait. simpl.
  apply (Timers.run_until_quiet_done reveal_handle reveal_handle_quiet). done.
Qed.

(** C5: an element that intersects in the batch a notification delivers
    is visible once time has reached the notification time plus its
    timeout, [parseInt(data-delay || '0', 10)] as [setTimeout] takes it. *)
Theorem reveal_shown_after_delay (w : reveal_world) (e : nat) (t : Q) :
  Timers.loop_wf (w_loop w) -> (e, true) ∈ Observer.queued (w_io w) -> is_Some (nodes (w_doc w) !! e) ->
  Timers.now (w_loop w) + Timers.clamp_delay (zq (reveal_delay (w_doc w) e)) <= t ->
  hasClass (w_doc (reveal_run [RNotify; RWait t] w)) e "visible" = true.
Proof.
  intros Hwf Hq He Ht. unfold reveal_run. cbn [foldl]. rewrite reveal_step_notify.
  destruct (reveal_timers_spec (w_doc w) (Observer.fired (Observer.queued (w_io w))) (w_loop w))
    as (_ & _ & Hs & Hw).
  destruct (Hs e (fired_elem _ _ Hq)) as (tm & Hin & Htask & Hdue).
  apply (reveal_wait_fires _ t tm e); simpl; [by apply Hw|done|done|by rewrite Hdue|done].
Qed.

(** C38: [visible] is never taken away: whatever the updates,
    notifications and waits, an element that is visible stays visible. *)
Theorem reveal_visible_stays (evs : list reveal_event) (w : reveal_world) (x : nat) :
  hasClass (w_doc w) x "visible" = true -> hasClass (w_doc (reveal_run evs w)) x "visible" = true.
Proof.
  revert w. induction evs as [|ev evs IH]; intros w H; [done|]. apply IH.
  destruct ev as [v| |t]; [done|by rewrite reveal_step_notify|].
  rewrite reveal_step_wait. simpl.
  apply (Timers.run_until_quiet_preserves reveal_handle reveal_handle_quiet (fun d => hasClass d x "visible" = true));
    [|done].
  intros tk q a. apply reveal_handle_visible.
Qed.

(** C8: with [IntersectionObserver] and a notification after each rendering
    update, the callback sets at most one reveal timer per element, and only
    for [[data-animate]] elements. *)
Theorem reveal_timer_once (d : document) (st0 : Observer.io_state) (viss : list (nat -> bool))
    (l0 : Timers.loop reveal_task) :
  a_io (initScrollAnimations true d) = Some st0 ->
  exists new,
    Timers.pending (Observer.io_run reveal_act (Observer.rounds viss) (st0, (d, l0))).2.2 = Timers.pending l0 ++ new /\
    NoDup (Timers.tm_task <$> new) /\
    (forall tm, tm ∈ new -> exists e, Timers.tm_task tm = RevealVisible e /\ e ∈ querySelectorAll d sel_data_animate).
Proof.
  intros H.
  assert (Hst0 : st0 = foldl (fun st e => Observer.observe e st) Observer.io_empty
                         (querySelectorAll d sel_data_animate)).
  { unfold initScrollAnimations in H. destruct (querySelectorAll d sel_data_animate); [done|].
    by injection H as <-. }
  subst st0. clear H.
  set (st0 := foldl (fun st e => Observer.observe e st) Observer.io_empty (querySelectorAll d sel_data_animate)).
  destruct (Observer.observe_all_spec (querySelectorAll d sel_data_animate) Observer.io_empty eq_refl NoDup_nil_2)
    as (Hq & Hnd & Hin).
  destruct (Observer.io_fired_rounds_once viss _ Hq Hnd) as [F1 F2].
  rewrite Observer.io_run_spec, reveal_act_foldl. simpl.
  destruct (reveal_timers_tasks d (Observer.io_fired (Observer.rounds viss) st0) l0) as (new & Hp & Ht).
  exists new. rewrite Hp, Ht. split_and!; [done|apply (NoDup_fmap_2 RevealVisible); exact F1|].
  intros tm Htm. assert (Hx : Timers.tm_task tm ∈ RevealVisible <$> Observer.io_fired (Observer.rounds viss) st0).
  { rewrite <- Ht. by apply list_elem_of_fmap_2. }
  apply list_elem_of_fmap in Hx as (e & He & Hf). exists e. split; [done|].
  apply F2, Hin in Hf as [Hf|Hf]; [by apply elem_of_nil in Hf|done].
Qed.

(** Whatever [data-delay] holds, the timeout a reveal timer waits is
    between 0 and 2^31 - 1 milliseconds. *)
Theorem reveal_timeout_bounds (d : document) (e : nat) :
  0 <= Timers.clamp_delay (zq (reveal_delay d e)) /\ Timers.clamp_delay (zq (reveal_delay d e)) < zq (2 ^ 31).
Proof.
  split; [apply Timers.clamp_delay_nonneg|]. apply clamp_delay_lt.
  unfold reveal_delay. pose proof (to_long_range (parseInt10 (delay_string (getAttribute d e "data-delay")))). lia.
Qed.

(** A [data-delay] that spells an integer reaches [to_long] as that
    integer. *)
Lemma reveal_delay_int (d : document) (e : nat) (z : Z) :
  getAttribute d e "data-delay" = Some (js_int_to_string z) -> reveal_delay d e = to_long (Some z).
Proof.
  intros Ha. unfold reveal_delay. rewrite Ha, delay_string_nonempty by apply js_int_to_string_nonempty.
  by rewrite parseInt10_int_to_string.
Qed.

(** A [data-delay] that spells an integer from 0 to 2^31 - 1 is the
    timeout exactly. *)
Theorem reveal_delay_exact (d : document) (e : nat) (z : Z) :
  getAttribute d e "data-delay" = Some (js_int_to_string z) -> (0 <= z < 2 ^ 31)%Z ->
  reveal_delay d e = z.
Proof. intros Ha Hz. rewrite (reveal_delay_int d e z Ha). by apply to_long_small. Qed.

(** C31: [setTimeout] reads its timeout as a signed 32-bit integer: when
    [data-delay] spells an integer [z], the reveal timer waits [z mod 2^32]
    milliseconds if that is below 2^31, and no time at all otherwise (the
    wrapped value is negative and clamped to 0).  So a delay of 2^31 or
    2^32 reveals at once, and one of 2^32 + 1 after a millisecond. *)
Theorem reveal_delay_wraps (d : document) (e : nat) (z : Z) :
  getAttribute d e "data-delay" = Some (js_int_to_string z) ->
  Timers.clamp_delay (zq (reveal_delay d e)) = zq (if (z mod 2 ^ 32 <? 2 ^ 31)%Z then z mod 2 ^ 32 else 0%Z).
Proof.
  intros Ha. rewrite (reveal_delay_int d e z Ha). unfold to_long. cbv zeta.
  pose proof (Z.mod_pos_bound z (2 ^ 32) ltac:(lia)).
  destruct (Z.ltb_spec (z mod 2 ^ 32) (2 ^ 31)).
  - apply Timers.clamp_delay_id, inject_Z_nonneg. lia.
  - apply Timers.clamp_delay_neg. change 0 with (zq 0). rewrite <- Zlt_Qlt. lia.
Qed.

(** ** Witnesses *)

Lemma reveal_fallback_all_visible_witness :
  1%nat ∈ querySelectorAll (reveal_page_with "300") sel_data_animate /\
  hasClass (a_doc (initScrollAnimations false (reveal_page_with "300"))) 1 "visible" = true.
Proof. split; [decide_by_eval|apply reveal_fallback_all_visible; decide_by_eval]. Defined.

Lemma reveal_shown_after_delay_witness :
  hasClass (w_doc (reveal_run [RNotify; RWait 300]
    (RevealWorld (Observer.IOState [] ∅ [(1%nat, true)]) (reveal_page_with "300") (Timers.loop_empty 0)))) 1 "visible"
  = true.
Proof.
  apply reveal_shown_after_delay; simpl.
  - apply Timers.loop_empty_wf.
  - by left.
  - by eexists.
  - decide_by_eval.
Defined.

Lemma reveal_timer_once_witness :
  a_io (initScrollAnimations true (reveal_page_with "300")) = Some (Observer.observe 1 Observer.io_empty) /\
  exists new,
    Timers.pending (Observer.io_run reveal_act (Observer.rounds [fun _ => true; fun _ => false; fun _ => true])
      (Observer.observe 1 Observer.io_empty, (reveal_page_with "300", Timers.loop_empty 0))).2.2 =
      Timers.pending (@Timers.loop_empty reveal_task 0) ++ new /\
    NoDup (Timers.tm_task <$> new) /\
    (forall tm, tm ∈ new -> exists e, Timers.tm_task tm = RevealVisible e /\
       e ∈ querySelectorAll (reveal_page_with "300") sel_data_animate).
Proof.
  assert (H : a_io (initScrollAnimations true (reveal_page_with "300")) = Some (Observer.observe 1 Observer.io_empty))
    by (vm_compute; reflexivity).
  split; [exact H|]. exact (reveal_timer_once _ _ _ _ H).
Defined.

Lemma reveal_visible_stays_witness :
  hasClass (w_doc (reveal_run [RUpdate (fun _ => true); RNotify; RWait 300]
    (RevealWorld (Observer.observe 1 Observer.io_empty) (classList_add 1 "visible" (reveal_page_with "300"))
       (Timers.loop_empty 0)))) 1 "visible" = true.
Proof. apply reveal_visible_stays. vm_compute. reflexivity. Defined.

Lemma reveal_delay_wraps_witness :
  Timers.clamp_delay (zq (reveal_delay (reveal_page_with "4294967297") 1)) =
  zq (if (4294967297 mod 2 ^ 32 <? 2 ^ 31)%Z then (4294967297 mod 2 ^ 32)%Z else 0%Z).
Proof. apply reveal_delay_wraps. vm_compute. reflexivity. Defined.

Lemma reveal_delay_exact_witness : reveal_delay (reveal_page_with "300") 1 = 300%Z.
Proof. apply reveal_delay_exact; [vm_compute; reflexivity|lia]. Defined.

Lemma reveal_wait_done_witness : 300 < Timers.tm_due (Timers.Timer 0 500 (RevealVisible 1)).
Proof.
  apply (reveal_wait_done (RevealWorld Observer.io_empty (reveal_page_with "300")
                             (Timers.Loop 0 1 [Timers.Timer 0 500 (RevealVisible 1)])) 300).
  vm_compute. left.
Defined.

End Reveal.
