(* ===== verification/SmoothScroll.v ===== *)
(** * Smooth scroll: [initSmoothScroll] of [src/js/main.js]

    [initSmoothScroll] (lines 223-241) registers, on every link present at
    load whose [href] starts with ["#"], a click listener that reads the
    link's [href], returns on the bare ["#"], resolves the rest with
    [document.querySelector(href)] and, when an element is found, prevents
    the default jump and calls [window.scrollTo] with the element's
    [offsetTop] minus 80 and smooth behaviour.

    [querySelector] is the browser's selector engine.  What the listener
    relies on is an interface, [engine_laws]: an ID selector ["#" + id] with
    [id] a CSS identifier finds the first element in tree order with that
    [id], and a ["#"] followed by a digit is not a valid selector, so
    [querySelector] throws a [SyntaxError].  The listener's theorems are
    proved in a Section against any engine with these laws; [id_engine]
    implements them for the ID-selector fragment (any other selector, which
    no link of the page uses, finds nothing there).  A listener's outcome is
    a [listener_result]: it returned, with or without [preventDefault()] and
    with the [scrollTo] calls it made, or it threw. *)

From S2P Require Import Prelude JsNum Dom.
From Stdlib Require Import Ascii.

Module SmoothScroll.

(** ** CSS identifiers (CSS Syntax 4.3.9 and 4.3.10, without escapes) *)

Definition is_digit (c : ascii) : bool :=
  let n := nat_of_ascii c in (48 <=? n)%nat && (n <=? 57)%nat.

(** A letter, [_] or a non-ASCII code unit. *)
Definition ident_start (c : ascii) : bool :=
  let n := nat_of_ascii c in
  ((97 <=? n)%nat && (n <=? 122)%nat) || ((65 <=? n)%nat && (n <=? 90)%nat) ||
  (n =? 95)%nat || (128 <=? n)%nat.

Definition ident_char (c : ascii) : bool :=
  ident_start c || is_digit c || (nat_of_ascii c =? 45)%nat.

Fixpoint all_ident_chars (s : string) : bool :=
  match s with
  | String c r => ident_char c && all_ident_chars r
  | EmptyString => true
  end.

(** The name of a hash token whose type flag is "id": it starts an ident
    sequence. *)
Definition css_ident (s : string) : bool :=
  match s with
  | String "-" (String c r) => (ident_start c || (nat_of_ascii c =? 45)%nat) && all_ident_chars r
  | String c r => ident_start c && all_ident_chars r
  | EmptyString => false
  end.

(** ** The selector engine *)

(** [document.querySelector(selectors)]: [None] when it throws a
    [SyntaxError], otherwise the element found, if any. *)
Record selector_engine := SelectorEngine {
  querySelector : document -> string -> option (option nat)
}.

Class engine_laws (E : selector_engine) : Prop := {
  engine_id : forall d id, css_ident id = true ->
    querySelector E d (String "#" id) = Some (getElementById d id);
  engine_digit : forall d c r, is_digit c = true ->
    querySelector E d (String "#" (String c r)) = None
}.

(** ** The listener *)

(** The argument of [window.scrollTo] (lines 234-237). *)
Record scroll_options := ScrollOptions {
  top : Z;
  behavior : string
}.

Inductive listener_result :=
  | Returned (defaultPrevented : bool) (scrolls : list scroll_options)
  | Threw (name : string).

(** [target.offsetTop]. *)
Definition offsetTop_of (d : document) (t : nat) : Z := default 0%Z (offsetTop <$> nodes d !! t).

(** [document.querySelectorAll('a[href^="#"]')] (line 224). *)
Definition sel_hash_links : selector := Sel (Some "a") (Some ("href", AttrPrefix "#")).

Section Listener.
Context (E : selector_engine).

(** The click listener of lines 226-239 on link [link]. *)
Definition smooth_click (d : document) (link : nat) : listener_result :=
  let href := getAttribute d link "href" in
  if bool_decide (href = Some "#") then Returned false []
  else
    match querySelector E d (attr_string href) with
    | None => Threw "SyntaxError"
    | Some None => Returned false []
    | Some (Some t) => Returned true [ScrollOptions (offsetTop_of d t - 80) "smooth"]
    end.

End Listener.

(** [initSmoothScroll] (lines 223-241): the links that get the listener. *)
Definition initSmoothScroll (d : document) : list nat := querySelectorAll d sel_hash_links.

(** A click on element [x]: the listener runs when [x] got one at load. *)
Definition smooth_dispatch (E : selector_engine) (listeners : list nat) (d : document) (x : nat)
    : listener_result :=
  if bool_decide (x ∈ listeners) then smooth_click E d x else Returned false [].

(** The ID-selector fragment of the engine. *)
Definition id_engine : selector_engine :=
  SelectorEngine (fun d s =>
    match s with
    | String "#" r =>
        if css_ident r then Some (getElementById d r)
        else match r with String c _ => if is_digit c then None else Some None | EmptyString => None end
    | _ => Some None
    end).

(** A page with a link to [#about], one to [#1st-place] and the two
    sections they name. *)
Definition scroll_page : document :=
  mkDocument (list_to_map [
    (1%nat, element "a" [("href", "#about")] None 0 20);
    (2%nat, element "a" [("href", "#1st-place")] None 0 20);
    (3%nat, element "section" [("id", "about")] None 700 400);
    (4%nat, element "section" [("id", "1st-place")] None 1100 400)])
    [1%nat; 2%nat; 3%nat; 4%nat].

(** ** Lemmas *)

Lemma digit_not_css_ident (c : ascii) (r : string) : is_digit c = true -> css_ident (String c r) = false.
Proof. destruct c as [[] [] [] [] [] [] [] []]; intros Hd; vm_compute in Hd; try discriminate Hd; reflexivity. Qed.

#[export] Instance id_engine_laws : engine_laws id_engine.
Proof.
  split.
  - intros d id Hid. simpl. by rewrite Hid.
  - intros d c r Hd.
    change (querySelector id_engine d (String "#" (String c r))) with
      (if css_ident (String c r) then Some (getElementById d (String c r))
       else if is_digit c then None else Some None).
    by rewrite digit_not_css_ident, Hd.
Qed.

Lemma hash_not_bare (r : string) : r <> EmptyString -> bool_decide (Some (String "#" r) = Some "#") = false.
Proof. intros Hr. apply bool_decide_eq_false_2. by intros [= ->]. Qed.

Lemma css_ident_nonempty (id : string) : css_ident id = true -> id <> EmptyString.
Proof. by intros H ->. Qed.

(** ** Properties of the listener, for any engine with the laws *)

Section Properties.
Context (E : selector_engine) `{!engine_laws E}.

(** On a link to ["#" + id] with [id] an identifier, the listener scrolls
    to the element with that [id], if any, and does nothing otherwise. *)
Lemma smooth_click_ident (d : document) (x : nat) (id : string) :
  css_ident id = true -> getAttribute d x "href" = Some (String "#" id) ->
  smooth_click E d x = match getElementById d id with
                       | Some t => Returned true [ScrollOptions (offsetTop_of d t - 80) "smooth"]
                       | None => Returned false []
                       end.
Proof.
  intros Hid Hh. unfold smooth_click. rewrite Hh, hash_not_bare by by apply css_ident_nonempty.
  simpl. by rewrite engine_id.
Qed.

(** C36: A click on a link to ["#" + id], [id] an identifier naming an
    element, prevents the default jump and scrolls smoothly to 80 pixels
    above the first element with that [id]. *)
Theorem smooth_scroll_to_target (d : document) (x : nat) (id : string) (t : nat) :
  css_ident id = true -> getAttribute d x "href" = Some (String "#" id) -> getElementById d id = Some t ->
  smooth_click E d x = Returned true [ScrollOptions (offsetTop_of d t - 80) "smooth"].
Proof. intros Hid Hh Ht. by rewrite (smooth_click_ident d x id Hid Hh), Ht. Qed.

(** C40: When no element has the [id], the listener does nothing: the
    default action is not prevented and nothing scrolls. *)
Theorem smooth_scroll_missing (d : document) (x : nat) (id : string) :
  css_ident id = true -> getAttribute d x "href" = Some (String "#" id) -> getElementById d id = None ->
  smooth_click E d x = Returned false [].
Proof. intros Hid Hh Ht. by rewrite (smooth_click_ident d x id Hid Hh), Ht. Qed.

(** C32: a link to ["#" + id] with [id] starting with a digit makes
    [querySelector] throw: the listener ends with a [SyntaxError] before
    [preventDefault], whether or not an element has that [id]. *)
Theorem smooth_scroll_digit_throws (d : document) (x : nat) (c : ascii) (r : string) :
  is_digit c = true -> getAttribute d x "href" = Some (String "#" (String c r)) ->
  smooth_click E d x = Threw "SyntaxError".
Proof.
  intros Hc Hh. unfold smooth_click. rewrite Hh, hash_not_bare by done.
  simpl. by rewrite engine_digit.
Qed.

End Properties.

(** A click on a link whose [href] is the bare ["#"] returns at once:
    no [querySelector], no [preventDefault], no scroll. *)
Theorem smooth_scroll_bare_hash (E : selector_engine) (d : document) (x : nat) :
  getAttribute d x "href" = Some "#" -> smooth_click E d x = Returned false [].
Proof. intros Hh. unfold smooth_click. by rewrite Hh, bool_decide_eq_true_2. Qed.

(** ** Witnesses *)

Lemma smooth_scroll_to_target_witness :
  smooth_click id_engine scroll_page 1 = Returned true [ScrollOptions (700 - 80) "smooth"].
Proof. apply (smooth_scroll_to_target id_engine scroll_page 1 "about" 3); vm_compute; reflexivity. Defined.

Lemma smooth_scroll_missing_witness :
  smooth_click id_engine (setAttribute 1 "href" "#contact" scroll_page) 1 = Returned false [].
Proof. apply (smooth_scroll_missing id_engine _ 1 "contact"); vm_compute; reflexivity. Defined.

Lemma smooth_scroll_digit_throws_witness :
  getElementById scroll_page "1st-place" = Some 4%nat /\ smooth_click id_engine scroll_page 2 = Threw "SyntaxError".
Proof.
  split; [vm_compute; reflexivity|].
  apply (smooth_scroll_digit_throws id_engine scroll_page 2 "1" "st-place"); vm_compute; reflexivity.
Defined.

Lemma smooth_scroll_bare_hash_witness :
  smooth_click id_engine (setAttribute 1 "href" "#" scroll_page) 1 = Returned false [].
Proof. apply smooth_scroll_bare_hash. vm_compute. reflexivity. Defined.

End SmoothScroll.
