(* ===== verification/Css.v ===== *)
(** * CSS selectors: the engine behind [querySelector] in the Jest suite

    [src/tests/profile.test.js] queries the document jsdom builds from
    [index.html] with selectors such as ['#nav-links a[role="menuitem"]'],
    ['.hero-cta .btn'] or ['link[rel="stylesheet"][href*="style.css"]'].
    This file models the fragment of Selectors Level 4 those selectors use:
    a compound selector is a list of simple selectors (type, class, ID,
    attribute presence, [=], [^=] and [*=]) that an element must all match;
    a complex selector is a list of compound selectors joined by descendant
    combinators.  Matching goes from right to left, as engines do: the last
    compound on the element, then each earlier one on some ancestor further
    up the [parentNode] chain.  [querySelectorAll] returns the matches in
    tree order, and the element-scoped form keeps the descendants of the
    element only, the selector still being matched against the whole
    document (the Selectors API's scoping). *)

From S2P Require Import Prelude Dom SmoothScroll.
From Stdlib Require Import Ascii.
Import SmoothScroll.SmoothScroll.

Module Css.

Inductive simple :=
  | SType (t : string)             (** [t] *)
  | SClass (c : string)            (** [.c] *)
  | SId (i : string)               (** [#i] *)
  | SAttr (a : string)             (** [[a]] *)
  | SAttrEq (a v : string)         (** [[a="v"]] *)
  | SAttrPrefix (a v : string)     (** [[a^="v"]] *)
  | SAttrSubstr (a v : string).    (** [[a*="v"]] *)

Definition compound : Type := list simple.

(** Compound selectors joined by descendant combinators, leftmost first. *)
Definition complex : Type := list compound.

(** [t] occurs in [s]. *)
Fixpoint str_includes (s t : string) : bool :=
  String.prefix t s ||
  match s with
  | EmptyString => false
  | String _ s' => str_includes s' t
  end.

(** [[a^=v]] and [[a*=v]] with an empty [v] represent nothing
    (Selectors 4, 6.2). *)
Definition simple_matches (nd : node) (s : simple) : bool :=
  match s with
  | SType t => bool_decide (tagName nd = t)
  | SClass c => ClassList.contains c (classList nd)
  | SId i => bool_decide (attributes nd !! "id" = Some i)
  | SAttr a => match attributes nd !! a with Some _ => true | None => false end
  | SAttrEq a v => bool_decide (attributes nd !! a = Some v)
  | SAttrPrefix a v =>
      match attributes nd !! a with Some w => negb (String.eqb v "") && String.prefix v w | None => false end
  | SAttrSubstr a v =>
      match attributes nd !! a with Some w => negb (String.eqb v "") && str_includes w v | None => false end
  end.

Definition compound_matches (d : document) (c : compound) (e : nat) : bool :=
  match nodes d !! e with
  | Some nd => forallb (simple_matches nd) c
  | None => false
  end.

(** The [parentNode] chain of [e], nearest first, at most [fuel] long. *)
Fixpoint ancestors (fuel : nat) (d : document) (e : nat) : list nat :=
  match fuel with
  | O => []
  | S f =>
      match nodes d !! e ≫= parentNode with
      | Some p => p :: ancestors f d p
      | None => []
      end
  end.

(** The compounds left of the last one, from right to left, against the
    ancestor chain: each is tried on the nearest ancestor first, and the
    search backtracks to a farther one when the rest fails. *)
Fixpoint match_chain (d : document) (rest : list compound) (chain : list nat) : bool :=
  match rest, chain with
  | [], _ => true
  | _ :: _, [] => false
  | c :: rest', a :: chain' =>
      (compound_matches d c a && match_chain d rest' chain') || match_chain d rest chain'
  end.

Definition sel_matches (d : document) (sel : complex) (e : nat) : bool :=
  match rev sel with
  | [] => false
  | c :: rest => compound_matches d c e && match_chain d rest (ancestors (length (order d)) d e)
  end.

(** [document.querySelectorAll(sel)] and [document.querySelector(sel)]. *)
Definition querySelectorAll (d : document) (sel : complex) : list nat :=
  filter (fun e => sel_matches d sel e = true) (order d).

Definition querySelector (d : document) (sel : complex) : option nat := head (querySelectorAll d sel).

(** [root.querySelectorAll(sel)] and [root.querySelector(sel)]. *)
Definition el_querySelectorAll (d : document) (root : nat) (sel : complex) : list nat :=
  filter (fun e => sel_matches d sel e && is_ancestor (length (order d)) d root e = true) (order d).

Definition el_querySelector (d : document) (root : nat) (sel : complex) : option nat :=
  head (el_querySelectorAll d root sel).

(** ** Parsing selectors

    The tokens of CSS Syntax the selectors of the suite are made of: an
    ident sequence (no escapes), a hash token, [.], [[], []], the match
    operators, a string token in double quotes (no escapes) and white space.
    A string that does not parse in this grammar is a [SyntaxError]
    ([None]).  Combinators other than the descendant one, selector lists,
    pseudo-classes, the universal selector and white space inside [[...]]
    are outside the fragment and are rejected here too. *)

Definition dq : ascii := "034".

Definition is_ws (c : ascii) : bool :=
  match nat_of_ascii c with 9%nat | 10%nat | 12%nat | 13%nat | 32%nat => true | _ => false end.

Fixpoint skip_ws (s : string) : string :=
  match s with
  | String c r => if is_ws c then skip_ws r else s
  | EmptyString => EmptyString
  end.

(** The longest run of ident code points. *)
Fixpoint span_ident (s : string) : string * string :=
  match s with
  | String c r => if ident_char c then let '(w, r') := span_ident r in (String c w, r') else (EmptyString, s)
  | EmptyString => (EmptyString, EmptyString)
  end.

(** An ident token: the run must start an ident sequence. *)
Definition ident (s : string) : option (string * string) :=
  let '(w, r) := span_ident s in if css_ident w then Some (w, r) else None.

(** The body of a string token, after its opening quote. *)
Fixpoint span_quoted (s : string) : option (string * string) :=
  match s with
  | EmptyString => None
  | String c r =>
      if Ascii.eqb c dq then Some (EmptyString, r)
      else '(w, r') ← span_quoted r; Some (String c w, r')
  end.

Definition attr_value (s : string) : option (string * string) :=
  match s with
  | String c r => if Ascii.eqb c dq then span_quoted r else ident s
  | EmptyString => None
  end.

Definition close_bracket (x : simple) (s : string) : option (simple * string) :=
  match s with String "]" r => Some (x, r) | _ => None end.

(** After [[a]: [[]], or a match operator, a value and [[]]. *)
Definition attr_rest (a : string) (s : string) : option (simple * string) :=
  match s with
  | String "]" r => Some (SAttr a, r)
  | String "=" r => '(v, r') ← attr_value r; close_bracket (SAttrEq a v) r'
  | String "^" (String "=" r) => '(v, r') ← attr_value r; close_bracket (SAttrPrefix a v) r'
  | String "*" (String "=" r) => '(v, r') ← attr_value r; close_bracket (SAttrSubstr a v) r'
  | _ => None
  end.

(** The class, ID and attribute selectors of a compound. *)
Fixpoint parse_subclasses (fuel : nat) (s : string) : option (list simple * string) :=
  match fuel with
  | O => None
  | S f =>
      match s with
      | String "." r => '(c, r1) ← ident r; '(l, r2) ← parse_subclasses f r1; Some (SClass c :: l, r2)
      | String "#" r => '(i, r1) ← ident r; '(l, r2) ← parse_subclasses f r1; Some (SId i :: l, r2)
      | String "[" r =>
          '(a, r1) ← ident r; '(x, r2) ← attr_rest a r1; '(l, r3) ← parse_subclasses f r2; Some (x :: l, r3)
      | _ => Some ([], s)
      end
  end.

(** A compound: an optional type selector, then subclass selectors; it is
    not empty. *)
Definition parse_compound (fuel : nat) (s : string) : option (compound * string) :=
  let '(ty, r) := match ident s with Some (t, r) => ([SType t], r) | None => ([], s) end in
  '(l, r') ← parse_subclasses fuel r;
  match ty ++ l with [] => None | c => Some (c, r') end.

(** Compounds separated by white space, the descendant combinator. *)
Fixpoint parse_compounds (fuel : nat) (s : string) : option complex :=
  match fuel with
  | O => None
  | S f =>
      '(c, r) ← parse_compound f s;
      match r with
      | EmptyString => Some [c]
      | String x _ =>
          if is_ws x then
            match skip_ws r with
            | EmptyString => Some [c]
            | r' => cs ← parse_compounds f r'; Some (c :: cs)
            end
          else None
      end
  end.

(** The selector string, white space around it allowed; every step of the
    parser consumes input, so its length bounds the fuel. *)
Definition parse_selector (s : string) : option complex := parse_compounds (S (String.length s)) (skip_ws s).

(** ** Printing selectors *)

Definition quoted (v : string) : string := String dq (v +:+ String dq EmptyString).

Definition print_simple (x : simple) : string :=
  match x with
  | SType t => t
  | SClass c => "." +:+ c
  | SId i => "#" +:+ i
  | SAttr a => "[" +:+ a +:+ "]"
  | SAttrEq a v => "[" +:+ a +:+ "=" +:+ quoted v +:+ "]"
  | SAttrPrefix a v => "[" +:+ a +:+ "^=" +:+ quoted v +:+ "]"
  | SAttrSubstr a v => "[" +:+ a +:+ "*=" +:+ quoted v +:+ "]"
  end.

Definition print_compound (c : compound) : string := foldr (fun x s => print_simple x +:+ s) "" c.

Fixpoint print_selector (sel : complex) : string :=
  match sel with
  | [] => ""
  | [c] => print_compound c
  | c :: cs => print_compound c +:+ " " +:+ print_selector cs
  end.

Fixpoint no_dq (v : string) : bool :=
  match v with
  | String c r => negb (Ascii.eqb c dq) && no_dq r
  | EmptyString => true
  end.

Definition wf_simple (x : simple) : bool :=
  match x with
  | SType t | SClass t | SId t | SAttr t => css_ident t
  | SAttrEq a v | SAttrPrefix a v | SAttrSubstr a v => css_ident a && no_dq v
  end.

Definition is_subclass (x : simple) : bool := match x with SType _ => false | _ => true end.

(** A compound the printer spells in the grammar: not empty, a type
    selector first if any, names that are identifiers, values without a
    double quote. *)
Definition wf_compound (c : compound) : bool :=
  match c with
  | [] => false
  | x :: l => forallb wf_simple c && forallb is_subclass l
  end.

Definition wf_selector (sel : complex) : bool :=
  match sel with [] => false | _ => forallb wf_compound sel end.

(** The selectors of [main.js] ([Dom.selector]: a type and one attribute
    test) as selectors of this grammar. *)
Definition of_dom (s : selector) : complex :=
  [match sel_tag s with Some t => [SType t] | None => [] end ++
   match sel_attr s with
   | Some (a, AttrPresent) => [SAttr a]
   | Some (a, AttrPrefix p) => [SAttrPrefix a p]
   | None => []
   end].

(** Two links, one to a section of the page. *)
Definition links_page : document :=
  mkDocument (list_to_map [(1%nat, element "a" [("href", "#about")] None 0 20);
                           (2%nat, element "a" [("href", "/cv.pdf")] None 0 20)]) [1; 2]%nat.

(** [document.querySelector(s)] on a selector string: [None] is the
    [SyntaxError] it throws. *)
Definition css_engine : selector_engine :=
  SelectorEngine (fun d s => querySelector d <$> parse_selector s).

(** What may follow an ident token without extending it, and what may
    follow a compound. *)
Definition stops_ident (r : string) : bool :=
  match r with String c _ => negb (ident_char c) | EmptyString => true end.

Definition compound_end (r : string) : bool :=
  match r with String c _ => is_ws c | EmptyString => true end.

(** ** Lemmas *)

Lemma match_chain_nil (d : document) (chain : list nat) : match_chain d [] chain = true.
Proof. by destruct chain. Qed.

Lemma match_chain_spec (d : document) (rest : list compound) (chain : list nat) :
  match_chain d rest chain = true <->
  exists sub, sublist sub chain /\ Forall2 (fun c a => compound_matches d c a = true) rest sub.
Proof.
  revert rest. induction chain as [|a chain IH]; intros [|c rest]; simpl.
  - split; [by exists []; split; [apply sublist_nil_l|constructor]|done].
  - split; [done|]. intros (sub & Hs & HF). apply sublist_nil_r in Hs as ->. inversion HF.
  - split; [by exists []; split; [apply sublist_nil_l|constructor]|done].
  - rewrite orb_true_iff, andb_true_iff, IH, IH. split.
    + intros [[Hc (sub & Hs & HF)]|(sub & Hs & HF)].
      * exists (a :: sub). split; [by apply sublist_skip|by constructor].
      * exists sub. split; [by apply sublist_cons|done].
    + intros (sub & Hs & HF). inversion Hs as [|? sub' ? Hs'|? ? ? Hs']; subst.
      * apply Forall2_cons in HF as [Hc HF]. left. eauto.
      * right. eauto.
Qed.

(** A selector of two compounds: the element matches the second, and one
    of its ancestors the first. *)
Lemma sel_matches_two (d : document) (c1 c2 : compound) (e : nat) :
  sel_matches d [c1; c2] e = true ->
  compound_matches d c2 e = true /\
  exists x, x ∈ ancestors (length (order d)) d e /\ compound_matches d c1 x = true.
Proof.
  unfold sel_matches. cbn [rev app]. rewrite andb_true_iff, match_chain_spec.
  intros [He (sub & Hs & HF)]. split; [done|]. apply Forall2_cons_inv_l in HF as (x & sub' & Hx & HF & ->).
  apply Forall2_nil_inv_l in HF as ->. exists x. split; [|done].
  eapply elem_of_submseteq; [by left|]. by apply sublist_submseteq.
Qed.

(** *** Lexing *)

Lemma css_ident_cons (c : ascii) (w : string) :
  css_ident (String c w) =
  if Ascii.eqb c "-" then
    match w with
    | String c' r => (ident_start c' || (nat_of_ascii c' =? 45)%nat) && all_ident_chars r
    | EmptyString => false
    end
  else ident_start c && all_ident_chars w.
Proof. destruct c as [[] [] [] [] [] [] [] []]; destruct w; reflexivity. Qed.

Lemma css_ident_chars (w : string) : css_ident w = true -> all_ident_chars w = true.
Proof.
  destruct w as [|c w]; [done|]. rewrite css_ident_cons. cbn [all_ident_chars]. unfold ident_char.
  destruct (Ascii.eqb_spec c "-") as [->|_].
  - destruct w as [|c' w]; [done|]. cbn [all_ident_chars]. unfold ident_char.
    destruct (ident_start c'), (is_digit c'), (nat_of_ascii c' =? 45)%nat, (all_ident_chars w); done.
  - by destruct (ident_start c), (all_ident_chars w).
Qed.

Lemma css_ident_length (w : string) : css_ident w = true -> (1 <= String.length w)%nat.
Proof. destruct w; simpl; [done|lia]. Qed.

Lemma ws_not_ident (c : ascii) : is_ws c = true -> ident_char c = false.
Proof. destruct c as [[] [] [] [] [] [] [] []]; done. Qed.

Lemma ident_start_not_ws (c : ascii) : ident_start c = true -> is_ws c = false.
Proof. destruct c as [[] [] [] [] [] [] [] []]; done. Qed.

Lemma span_ident_app (w r : string) :
  all_ident_chars w = true -> stops_ident r = true -> span_ident (w +:+ r) = (w, r).
Proof.
  intros Hw Hr. induction w as [|c w IH].
  - destruct r as [|c r]; [done|]. simpl in Hr. apply negb_true_iff in Hr. simpl. by rewrite Hr.
  - apply andb_true_iff in Hw as [Hc Hw]. rewrite string_app_cons. simpl. by rewrite Hc, IH.
Qed.

Lemma ident_app (w r : string) : css_ident w = true -> stops_ident r = true -> ident (w +:+ r) = Some (w, r).
Proof. intros Hw Hr. unfold ident. rewrite span_ident_app by auto using css_ident_chars. by rewrite Hw. Qed.

Lemma span_quoted_app (v r : string) : no_dq v = true -> span_quoted (v +:+ String dq r) = Some (v, r).
Proof.
  induction v as [|c v IH]; intros H; [done|]. apply andb_true_iff in H as [Hc Hv].
  apply negb_true_iff in Hc. rewrite string_app_cons. cbn [span_quoted]. by rewrite Hc, IH.
Qed.

(** *** Parsing what the printer writes *)

Lemma parse_subclasses_end (f : nat) (r : string) :
  compound_end r = true -> parse_subclasses (S f) r = Some ([], r).
Proof. destruct r as [|c r]; [done|]. simpl. destruct c as [[] [] [] [] [] [] [] []]; done. Qed.

Lemma subclasses_stop (l : list simple) (r : string) :
  forallb is_subclass l = true -> compound_end r = true -> stops_ident (print_compound l +:+ r) = true.
Proof.
  intros Hl Hr. destruct l as [|x l].
  - destruct r as [|c r]; [done|]. simpl. by rewrite ws_not_ident.
  - destruct x; [done|..]; cbn [print_compound foldr print_simple]; by string_norm.
Qed.

Lemma ident_subclass (x : simple) (r : string) : is_subclass x = true -> ident (print_simple x +:+ r) = None.
Proof. destruct x; [done|..]; intros _; cbn [print_simple]; by string_norm. Qed.

Lemma print_subclasses_length (l : list simple) :
  forallb wf_simple l = true -> forallb is_subclass l = true -> (2 * length l <= String.length (print_compound l))%nat.
Proof.
  induction l as [|x l IH]; [simpl; lia|]. intros [Hx Hw]%andb_true_iff [Hs Hl]%andb_true_iff.
  specialize (IH Hw Hl). cbn [print_compound foldr]. rewrite string_length_app. fold (print_compound l).
  destruct x; [done|..]; cbn [wf_simple print_simple] in *;
    rewrite ?andb_true_iff in Hx; destruct_and?; string_norm; cbn [String.length];
    rewrite ?string_length_app; simpl; pose proof (css_ident_length _ ltac:(eassumption)); lia.
Qed.

Lemma parse_subclasses_print (l : list simple) (f : nat) (r : string) :
  forallb wf_simple l = true -> forallb is_subclass l = true -> compound_end r = true -> (length l < f)%nat ->
  parse_subclasses f (print_compound l +:+ r) = Some (l, r).
Proof.
  revert f. induction l as [|x l IH]; intros [|f] Hw Hs Hr Hf; [lia|by apply parse_subclasses_end|lia|].
  apply andb_true_iff in Hw as [Hx Hw]. apply andb_true_iff in Hs as [Hxs Hs].
  assert (Hstop := subclasses_stop l r Hs Hr). specialize (IH f Hw Hs Hr ltac:(simpl in Hf; lia)).
  cbn [print_compound foldr]. fold (print_compound l). rewrite <- string_app_assoc.
  destruct x; [done|..]; cbn [wf_simple print_simple] in *; rewrite ?andb_true_iff in Hx; destruct_and?;
    string_norm; cbn [parse_subclasses]; rewrite ident_app by (done || by string_norm); cbn [attr_rest];
    unfold quoted; string_norm; cbn [attr_value]; simpl; rewrite ?span_quoted_app by done; simpl;
    rewrite ?IH; done.
Qed.

Lemma print_compound_cons (x : simple) (l : list simple) :
  print_compound (x :: l) = print_simple x +:+ print_compound l.
Proof. done. Qed.

Lemma parse_compound_print (c : compound) (f : nat) (r : string) :
  wf_compound c = true -> compound_end r = true -> (String.length (print_compound c) <= f)%nat ->
  parse_compound f (print_compound c +:+ r) = Some (c, r).
Proof.
  destruct c as [|x l]; [done|]. intros Hwf Hr Hf. pose proof Hwf as Hwf'.
  apply andb_true_iff in Hwf as [[Hx Hw]%andb_true_iff Hs]. unfold parse_compound.
  destruct x as [t| | | | | |].
  { pose proof (print_subclasses_length l Hw Hs). pose proof (css_ident_length t Hx).
    rewrite print_compound_cons, string_length_app in Hf. cbn [print_simple] in *.
    rewrite print_compound_cons, <- string_app_assoc. rewrite ident_app by auto using subclasses_stop.
    cbn iota beta. rewrite parse_subclasses_print by (done || lia). done. }
  all: match type of Hf with context [print_compound (?x :: _)] =>
      assert (Hs' : forallb is_subclass (x :: l) = true) by exact Hs;
      assert (Hw' : forallb wf_simple (x :: l) = true) by (cbn [forallb]; rewrite Hx; exact Hw) end.
  all: pose proof (print_subclasses_length _ Hw' Hs').
  all: rewrite print_compound_cons, <- string_app_assoc, ident_subclass, string_app_assoc,
           <- print_compound_cons by done.
  all: cbn iota beta; rewrite parse_subclasses_print by (done || simpl in *; lia); done.
Qed.

(** A printed compound starts with a character that is not white space. *)
Lemma compound_head (c : compound) (r : string) :
  wf_compound c = true -> exists ch rest, print_compound c +:+ r = String ch rest /\ is_ws ch = false.
Proof.
  destruct c as [|x l]; [done|]. intros [[Hx _]%andb_true_iff _]%andb_true_iff.
  rewrite print_compound_cons, <- string_app_assoc.
  destruct x as [t| | | | | |]; cbn [print_simple wf_simple] in *; string_norm; [|eauto..].
  destruct t as [|ch t]; [done|]. rewrite string_app_cons. exists ch, (t +:+ print_compound l +:+ r). split; [done|].
  rewrite css_ident_cons in Hx. destruct (Ascii.eqb_spec ch "-") as [->|_]; [done|].
  apply ident_start_not_ws. by destruct (ident_start ch).
Qed.

Lemma print_selector_head (sel : complex) :
  wf_selector sel = true -> exists ch rest, print_selector sel = String ch rest /\ is_ws ch = false.
Proof.
  destruct sel as [|c [|c' cs]]; [done|..]; intros [Hc _]%andb_true_iff.
  - cbn [print_selector]. rewrite <- (string_append_empty (print_compound c)). by apply compound_head.
  - by apply compound_head.
Qed.

Lemma skip_ws_head (ch : ascii) (rest : string) : is_ws ch = false -> skip_ws (String ch rest) = String ch rest.
Proof. intros H. simpl. by rewrite H. Qed.

Lemma parse_compounds_print (sel : complex) (f : nat) :
  wf_selector sel = true -> (String.length (print_selector sel) < f)%nat ->
  parse_compounds f (print_selector sel) = Some sel.
Proof.
  revert f. induction sel as [|c cs IH]; intros [|f] Hwf Hf; [done|done|lia|].
  pose proof Hwf as Hwf'. apply andb_true_iff in Hwf as [Hc Hcs]. destruct cs as [|c' cs'].
  - cbn [print_selector] in *. rewrite <- (string_append_empty (print_compound c)). cbn [parse_compounds].
    rewrite parse_compound_print by (done || lia). done.
  - change (print_selector (c :: c' :: cs')) with (print_compound c +:+ " " +:+ print_selector (c' :: cs')) in *.
    rewrite string_length_app in Hf. cbn [parse_compounds].
    rewrite parse_compound_print by (done || lia). cbn iota beta.
    destruct (print_selector_head (c' :: cs') Hcs) as (ch & rest & Hp & Hch).
    rewrite string_app_cons, string_app_nil_l in Hf |- *. cbn [String.length] in Hf.
    rewrite Hp. simpl. rewrite Hch. rewrite <- Hp, IH by (done || lia). done.
Qed.

Lemma ancestors_spec (fuel : nat) (d : document) (a e : nat) :
  a ∈ ancestors fuel d e <-> is_ancestor fuel d a e = true.
Proof.
  revert e. induction fuel as [|f IH]; intros e; simpl; [split; [inversion 1|done]|].
  destruct (nodes d !! e ≫= parentNode) as [p|]; [|split; [inversion 1|done]].
  rewrite elem_of_cons, orb_true_iff, IH, bool_decide_eq_true. naive_solver.
Qed.

(** ** The selector engine *)

Lemma sel_matches_of_dom (d : document) (s : selector) (e : nat) :
  (forall a p, sel_attr s = Some (a, AttrPrefix p) -> p <> "") ->
  sel_matches d (of_dom s) e = Dom.matches d s e.
Proof.
  intros Hp. unfold sel_matches, of_dom, compound_matches, Dom.matches. cbn [rev app].
  rewrite match_chain_nil, andb_true_r. destruct (nodes d !! e) as [nd|]; [|done].
  rewrite forallb_app. destruct (sel_tag s) as [t|]; cbn [forallb simple_matches]; rewrite ?andb_true_r;
    (destruct (sel_attr s) as [[a [|p]]|] eqn:Ha; cbn [forallb simple_matches attr_test_holds];
     rewrite ?andb_true_r; [..|done]).
  all: destruct (attributes nd !! a); try done.
  all: specialize (Hp a p eq_refl); destruct (String.eqb_spec p ""); done.
Qed.

Lemma qsa_of_dom (d : document) (s : selector) :
  (forall a p, sel_attr s = Some (a, AttrPrefix p) -> p <> "") ->
  querySelectorAll d (of_dom s) = Dom.querySelectorAll d s.
Proof. intros Hp. apply list_filter_iff. intros e. by rewrite sel_matches_of_dom. Qed.

Lemma el_qsa_of_dom (d : document) (s : selector) (root : nat) :
  (forall a p, sel_attr s = Some (a, AttrPrefix p) -> p <> "") ->
  el_querySelectorAll d root (of_dom s) = querySelectorAll_in d root s.
Proof. intros Hp. apply list_filter_iff. intros e. by rewrite sel_matches_of_dom. Qed.

(** On the selectors of [main.js], the engine of the test suite and
    the engine the script's model uses find the same elements in the same
    order, in the document and under an element, provided no [^=] prefix
    is empty (an empty [^=] value represents nothing in CSS, while a plain prefix
    test would accept every value). *)
Theorem querySelectorAll_of_dom (d : document) (s : selector) (root : nat) :
  (forall a p, sel_attr s = Some (a, AttrPrefix p) -> p <> "") ->
  querySelectorAll d (of_dom s) = Dom.querySelectorAll d s /\
  el_querySelectorAll d root (of_dom s) = querySelectorAll_in d root s.
Proof. intros Hp. split; [by apply qsa_of_dom|by apply el_qsa_of_dom]. Qed.

(** Parsing a printed selector gives it back: for every selector of
    the fragment whose names are identifiers, whose values hold no double
    quote and whose compounds are not empty, with a type selector first if
    any, [parse_selector (print_selector sel) = Some sel]. *)
Theorem selector_roundtrip (sel : complex) :
  wf_selector sel = true -> parse_selector (print_selector sel) = Some sel.
Proof.
  intros H. destruct (print_selector_head sel H) as (ch & rest & Hp & Hch). unfold parse_selector.
  rewrite Hp, skip_ws_head, <- Hp by done. apply parse_compounds_print; [done|lia].
Qed.

(** The right-to-left matcher implements the descendant combinator:
    [c1 ... cn c] matches [e] exactly when [c] matches [e] and [cn], ...,
    [c1] match ancestors of [e] in that order going up the [parentNode]
    chain. *)
Theorem sel_matches_spec (d : document) (sel : complex) (c : compound) (e : nat) :
  sel_matches d (sel ++ [c]) e = true <->
  compound_matches d c e = true /\
  exists anc, sublist anc (ancestors (length (order d)) d e) /\
    Forall2 (fun c a => compound_matches d c a = true) (rev sel) anc.
Proof. unfold sel_matches. rewrite rev_app_distr. cbn [rev app]. by rewrite andb_true_iff, match_chain_spec. Qed.

Lemma sel_matches_id (d : document) (id : string) (e : nat) :
  sel_matches d [[SId id]] e = bool_decide (getAttribute d e "id" = Some id).
Proof.
  unfold sel_matches, compound_matches, getAttribute. cbn [rev app match_chain].
  destruct (nodes d !! e); simpl; [by rewrite match_chain_nil, !andb_true_r|done].
Qed.

Lemma querySelector_id (d : document) (id : string) : querySelector d [[SId id]] = getElementById d id.
Proof.
  unfold querySelector, querySelectorAll, getElementById. rewrite head_filter_find.
  induction (order d) as [|x l IH]; [done|]. simpl. by rewrite sel_matches_id, IH.
Qed.

Lemma digit_not_ident (c : ascii) (w : string) : is_digit c = true -> css_ident (String c w) = false.
Proof. intros H. destruct c as [[] [] [] [] [] [] [] []]; done. Qed.

Lemma ident_digit (c : ascii) (r : string) : is_digit c = true -> ident (String c r) = None.
Proof.
  intros H. unfold ident. cbn [span_ident].
  assert (Hc : ident_char c = true) by (unfold ident_char; by rewrite H, orb_true_r).
  rewrite Hc. destruct (span_ident r). by rewrite digit_not_ident.
Qed.

Lemma ident_hash (s : string) : ident (String "#" s) = None.
Proof. done. Qed.

Lemma parse_hash_digit (c : ascii) (r : string) : is_digit c = true -> parse_selector (String "#" (String c r)) = None.
Proof.
  intros H. unfold parse_selector. rewrite skip_ws_head by done. cbn [parse_compounds]. unfold parse_compound.
  rewrite ident_hash. cbn [String.length parse_subclasses]. by rewrite ident_digit.
Qed.

#[export] Instance css_engine_laws : engine_laws css_engine.
Proof.
  split.
  - intros d id Hid. cbn [SmoothScroll.querySelector css_engine].
    assert (Hp : parse_selector (String "#" id) = Some [[SId id]]).
    { pose proof (parse_compounds_print [[SId id]] (S (String.length (String "#" id)))) as R.
      cbn [print_selector print_compound foldr print_simple] in R. rewrite string_append_empty in R.
      unfold parse_selector. rewrite skip_ws_head by done. apply R; [simpl; by rewrite Hid|rewrite string_length_app; simpl; lia]. }
    rewrite Hp. simpl. by rewrite querySelector_id.
  - intros d c r H. cbn [SmoothScroll.querySelector css_engine]. by rewrite parse_hash_digit.
Qed.

(** ** Witnesses *)

Lemma selector_roundtrip_witness :
  parse_selector (print_selector [[SId "nav-links"]; [SType "a"; SAttrEq "role" "menuitem"]]) =
  Some [[SId "nav-links"]; [SType "a"; SAttrEq "role" "menuitem"]].
Proof. apply selector_roundtrip. by vm_compute. Defined.

Lemma querySelectorAll_of_dom_witness :
  querySelectorAll links_page (of_dom sel_hash_links) = Dom.querySelectorAll links_page sel_hash_links /\
  el_querySelectorAll links_page 1 (of_dom sel_hash_links) = querySelectorAll_in links_page 1 sel_hash_links.
Proof. apply querySelectorAll_of_dom. intros a p [= _ <-]. done. Defined.

End Css.
