(* ===== verification/Particles.v ===== *)
(** * Particle spawner: [initParticles] of [src/js/main.js]

    [initParticles] (lines 175-218) looks up [#hero-particles] and returns
    when it is missing.  Otherwise it schedules fifteen [createParticle]
    timers 400 ms apart and a [setInterval] of 2000 ms.  [createParticle]
    creates a [div] with class [particle], draws its size, horizontal
    position, animation duration and colour from [Math.random()], sets its
    inline style, appends it to the container and sets a timer that removes
    it after its duration.

    The component's state is a [pstate]: the document, the inline style of
    each particle created, the next node the browser allocates and the
    number of [Math.random()] calls so far; [Math.random()] is a stream
    [random] of rationals, a parameter of the Section, drawn in the order of
    the code (size, position, duration, colour).  A style value keeps its
    number, the unit being the one the code appends.  The timers are those
    of [Timers], with three tasks: a [createParticle] timer, the interval,
    which asks for itself again 2000 ms later, and a particle's removal. *)

From S2P Require Import Prelude JsNum Dom Timers.

Module Particles.

(** [colors] (lines 179-183). *)
Definition colors : list string :=
  ["rgba(59, 130, 246, 0.4)"; "rgba(220, 38, 38, 0.3)"; "rgba(59, 130, 246, 0.2)"].

(** The inline style set on lines 194-200; [None] is [undefined]. *)
Record particle_style := ParticleStyle {
  width : Q;                           (** [size + 'px'] *)
  height : Q;                          (** [size + 'px'] *)
  left : Q;                            (** [x + '%'] *)
  bottom : string;                     (** ['-10px'] *)
  background : option string;         (** [color] *)
  boxShadow : Q * option string;       (** ['0 0 ' + size * 2 + 'px ' + color] *)
  animationDuration : Q                (** [duration + 's'] *)
}.

Record pstate := PState {
  ps_doc : document;
  ps_style : gmap nat particle_style;
  ps_fresh : nat;                      (** the node [createElement] returns next *)
  ps_draws : nat                       (** calls to [Math.random()] so far *)
}.

Inductive particle_task :=
  | CreateParticle                     (** [setTimeout(createParticle, i * 400)] *)
  | IntervalCreate                     (** [setInterval(createParticle, 2000)] *)
  | RemoveParticle (particle : nat).   (** the removal closure, lines 204-208 *)

(** [colors[i]]: [undefined] outside the array. *)
Definition color_at (i : Z) : option string :=
  if (0 <=? i)%Z then nth_error colors (Z.to_nat i) else None.

(** The [div] of lines 186-187. *)
Definition particle_node : node := mkNode "div" ∅ ["particle"] "" None 0 0.

Section Random.

(** [random n] is the value of the [n]-th call to [Math.random()]. *)
Context (random : nat -> Q).

(** [createParticle] (lines 185-209) with [container] the element found on
    line 176: the new state and the removal timer it sets, whose timeout
    [duration * 1000] reaches [setTimeout] as a WebIDL [long]. *)
Definition createParticle (container : nat) (s : pstate) : pstate * list (Q * particle_task) :=
  let p := ps_fresh s in
  let n := ps_draws s in
  let size := random n * 4 + 1 in
  let x := random (n + 1)%nat * 100 in
  let duration := random (n + 2)%nat * 15 + 10 in
  let color := color_at (Qfloor (random (n + 3)%nat * zq (Z.of_nat (length colors)))) in
  let st := ParticleStyle size size x "-10px" color (size * 2, color) duration in
  (PState (appendChild container p particle_node (ps_doc s)) (<[p := st]> (ps_style s)) (S p) (n + 4)%nat,
   [(zq (number_to_long (duration * 1000)), RemoveParticle p)]).

(** The removal closure (lines 204-208): [particle.parentNode], when the
    particle is still in the document, removes it. *)
Definition removeParticle (p : nat) (s : pstate) : pstate :=
  match nodes (ps_doc s) !! p ≫= parentNode with
  | Some par =>
      match removeChild par p (ps_doc s) with
      | Some d => PState d (ps_style s) (ps_fresh s) (ps_draws s)
      | None => s
      end
  | None => s
  end.

(** What each timer does; the interval's callback is [createParticle], and
    the interval is set again for 2000 ms after it. *)
Definition particle_handle (container : nat) (t : particle_task) (_ : Q) (s : pstate)
    : pstate * list (Q * particle_task) :=
  match t with
  | CreateParticle => createParticle container s
  | IntervalCreate => let '(s', reqs) := createParticle container s in (s', reqs ++ [(2000, IntervalCreate)])
  | RemoveParticle p => (removeParticle p s, [])
  end.

End Random.

(** [initParticles] (lines 175-218): the container, when there is one, and
    the timers set. *)
Definition initParticles (d : document) (l : Timers.loop particle_task)
    : option nat * Timers.loop particle_task :=
  match getElementById d "hero-particles" with
  | None => (None, l)
  | Some c =>
      (Some c, Timers.setTimeout 2000 IntervalCreate
                 (foldl (fun l i => Timers.setTimeout (zq (Z.of_nat i) * 400) CreateParticle l) l (seq 0 15)))
  end.

(** The state before the first particle: [fresh] is above every node. *)
Definition pstate_init (d : document) : pstate :=
  PState d ∅ (S (max_list (map_to_list (nodes d)).*1)) 0.

(** A hero section with the particle container. *)
Definition hero_page : document :=
  mkDocument (list_to_map [(1%nat, element "section" [("id", "hero")] None 0 800);
                           (2%nat, element "div" [("id", "hero-particles")] (Some 1%nat) 0 800)])
    [1%nat; 2%nat].

(** ** One particle *)

Lemma color_at_palette (i : Z) : (0 <= i < 3)%Z -> exists col, color_at i = Some col /\ col ∈ colors.
Proof.
  intros Hi. unfold color_at. rewrite (proj2 (Z.leb_le 0 i)) by lia.
  assert (i = 0 \/ i = 1 \/ i = 2)%Z as [->|[->| ->]] by lia; eexists; (split; [reflexivity|]); cbn;
    repeat (first [by left | right]).
Qed.

Section OneParticle.
Context (random : nat -> Q) (random_range : forall n, 0 <= random n < 1).

Lemma color_draw_palette (n : nat) :
  exists col, color_at (Qfloor (random n * zq (Z.of_nat (length colors)))) = Some col /\ col ∈ colors.
Proof.
  apply color_at_palette. destruct (random_range n). change (zq (Z.of_nat (length colors))) with (zq 3).
  split; [apply Qfloor_ge_Z|apply Qfloor_lt_Z]; change (zq 0) with 0; change (zq 3) with 3; nra.
Qed.

(** C33: every particle gets a size in [1, 5) pixels for both its width and
    height, a horizontal position in [0, 100) percent, an animation
    duration in [10, 25) seconds and a colour of the palette. *)
Theorem particle_style_bounds (c : nat) (s : pstate) :
  exists st, ps_style (createParticle random c s).1 !! ps_fresh s = Some st /\
    1 <= width st < 5 /\ height st = width st /\ 0 <= left st < 100 /\
    10 <= animationDuration st < 25 /\ exists col, background st = Some col /\ col ∈ colors.
Proof.
  eexists. split; [simpl; apply lookup_insert_eq|]. simpl.
  pose proof (random_range (ps_draws s)). pose proof (random_range (ps_draws s + 1)).
  pose proof (random_range (ps_draws s + 2)).
  split_and!; try lra; [done|]. apply color_draw_palette.
Qed.

(** The removal timeout is the duration in whole milliseconds, between
    10 and 25 seconds. *)
Lemma removal_delay_range (s : pstate) :
  let ms := (random (ps_draws s + 2)%nat * 15 + 10) * 1000 in
  number_to_long ms = Qfloor ms /\ 10000 <= zq (Qfloor ms) < 25000.
Proof.
  intros ms. pose proof (random_range (ps_draws s + 2)) as Hr.
  assert (Hb : 0 <= ms < 2147483648) by (subst ms; split; [lra|apply (Qlt_trans _ 25000); [lra|reflexivity]]).
  split; [exact (number_to_long_small ms (proj1 Hb) (proj2 Hb))|split].
  - change 10000 with (zq 10000). rewrite <- Zle_Qle. apply Qfloor_ge_Z. change (zq 10000) with 10000. subst ms; lra.
  - pose proof (Qfloor_le ms). subst ms; lra.
Qed.

(** C34: [createParticle] asks for exactly one timer: the removal of the
    particle it created, after its animation duration in whole
    milliseconds (the [long] [setTimeout] receives), between 10 and 25
    seconds. *)
Theorem particle_removal_scheduled (c : nat) (s : pstate) :
  exists delay st,
    (createParticle random c s).2 = [(delay, RemoveParticle (ps_fresh s))] /\
    ps_style (createParticle random c s).1 !! ps_fresh s = Some st /\
    delay = zq (Qfloor (animationDuration st * 1000)) /\ 10000 <= delay < 25000.
Proof.
  destruct (removal_delay_range s) as [Hl Hb].
  do 2 eexists. split_and!; [reflexivity|simpl; apply lookup_insert_eq|..];
    cbn [animationDuration]; rewrite Hl; [reflexivity|apply Hb..].
Qed.

End OneParticle.

(** ** The timers [initParticles] sets *)

(** The loop of lines 212-214 sets its [n] timers in order, the [j]-th
    due [j * 400] ms from now. *)
Lemma create_timers (l : Timers.loop particle_task) (n : nat) :
  foldl (fun l i => Timers.setTimeout (zq (Z.of_nat i) * 400) CreateParticle l) l (seq 0 n) =
  Timers.Loop (Timers.now l) (Timers.next_seq l + n)
    (Timers.pending l ++ ((fun j => Timers.Timer (Timers.next_seq l + j)
                                      (Timers.now l + Timers.clamp_delay (zq (Z.of_nat j) * 400)) CreateParticle)
                            <$> seq 0 n)).
Proof.
  induction n as [|n IH]; [destruct l; simpl; by rewrite Nat.add_0_r, app_nil_r|].
  rewrite seq_S, foldl_app, IH. unfold Timers.setTimeout. simpl.
  rewrite fmap_app, app_assoc. f_equal. lia.
Qed.

(** C35: when the container exists, [initParticles] sets, in this order,
    fifteen [createParticle] timers due [400 * i] ms after load for
    [i = 0 .. 14], and the interval, due 2000 ms after load; without the
    container it sets nothing. *)
Theorem initParticles_schedule (d : document) (t0 : Q) :
  match getElementById d "hero-particles" with
  | Some c =>
      let ts := Timers.pending (initParticles d (Timers.loop_empty t0)).2 in
      Timers.tm_task <$> ts = repeat CreateParticle 15 ++ [IntervalCreate] /\
      (forall i, (i < 15)%nat -> exists tm, ts !! i = Some tm /\ Timers.tm_due tm == t0 + 400 * zq (Z.of_nat i)) /\
      (exists tm, ts !! 15%nat = Some tm /\ Timers.tm_due tm == t0 + 2000)
  | None => initParticles d (Timers.loop_empty t0) = (None, Timers.loop_empty t0)
  end.
Proof.
  unfold initParticles. destruct (getElementById d "hero-particles") as [c|]; [|done].
  cbv zeta. cbn [snd]. rewrite create_timers. unfold Timers.setTimeout.
  cbn [Timers.pending Timers.now Timers.next_seq Timers.loop_empty]. rewrite app_nil_l. split_and!.
  - reflexivity.
  - intros i Hi. eexists. rewrite lookup_app_l by (rewrite length_fmap, length_seq; lia).
    rewrite list_lookup_fmap, lookup_seq_lt by done. split; [reflexivity|]. simpl.
    rewrite Timers.clamp_delay_id; [ring|]. apply Qmult_le_0_compat; [apply inject_Z_nonneg; lia|discriminate].
  - eexists. rewrite lookup_app_r by (rewrite length_fmap, length_seq; lia).
    rewrite length_fmap, length_seq. split; [reflexivity|]. simpl.
    rewrite Timers.clamp_delay_id; [ring|discriminate].
Qed.

(** ** Witnesses *)

Lemma random_half_range : forall n : nat, 0 <= (fun _ : nat => 1 # 2) n < 1.
Proof. intros n. split; decide_by_eval. Qed.

Lemma particle_style_bounds_witness :
  exists st, ps_style (createParticle (fun _ => 1 # 2) 2 (pstate_init hero_page)).1 !! ps_fresh (pstate_init hero_page) = Some st /\
    1 <= width st < 5 /\ height st = width st /\ 0 <= left st < 100 /\
    10 <= animationDuration st < 25 /\ exists col, background st = Some col /\ col ∈ colors.
Proof. exact (particle_style_bounds (fun _ => 1 # 2) random_half_range 2 (pstate_init hero_page)). Defined.

Lemma particle_removal_scheduled_witness :
  exists delay st,
    (createParticle (fun _ => 1 # 2) 2 (pstate_init hero_page)).2 = [(delay, RemoveParticle (ps_fresh (pstate_init hero_page)))] /\
    ps_style (createParticle (fun _ => 1 # 2) 2 (pstate_init hero_page)).1 !! ps_fresh (pstate_init hero_page) = Some st /\
    delay = zq (Qfloor (animationDuration st * 1000)) /\ 10000 <= delay < 25000.
Proof. exact (particle_removal_scheduled (fun _ => 1 # 2) random_half_range 2 (pstate_init hero_page)). Defined.

End Particles.
