(* ===== verification/ParticlesLife.v ===== *)
(** * The life of a particle: every particle is removed exactly once

    The spec's invariant for the particle spawner is that each particle is
    removed exactly once, after its own duration, and that none leaks.  The
    states the spawner reaches are those of [rtc particle_step] from
    [particles_start]: the timers [initParticles] set, and the document with
    no particle yet; a step either fires the next timer due, as the event
    loop does, or lets time pass up to the next one.

    [particles_inv] is the invariant: the pending removal timers are for
    distinct particles, and they are exactly for the live ones (created and
    still in the document); a live particle is a leaf child of the
    container; the node the browser allocates next is above every node; and
    a removal is due less than 25 s from now.  It holds at the start and
    every step keeps it, for [Math.random()] values in [0, 1).

    That a particle is eventually removed is proved with the potential of
    [Timers.run_until_fires]: [potential limit] weighs each timer due by
    [limit] with the number of firings it still causes before then (one for
    a removal, two for a [createParticle], two per remaining period for
    the interval), and every firing lowers it. *)

From S2P Require Import Prelude JsNum Dom Timers Particles.

Module ParticlesLife.
Import Particles.Particles.

(** The particle a timer removes, if it is a removal. *)
Definition task_target (t : particle_task) : option nat :=
  match t with RemoveParticle p => Some p | _ => None end.

Definition removal_targets (ts : list (Timers.timer particle_task)) : list nat :=
  omap task_target (Timers.tm_task <$> ts).

(** A particle created and still in the document. *)
Definition live (s : pstate) (p : nat) : Prop :=
  is_Some (ps_style s !! p) /\ is_Some (nodes (ps_doc s) !! p).

(** Particle [p] is out of the document for good: absent, and below the
    next node allocated. *)
Definition removed (p : nat) (st : Timers.loop particle_task * pstate) : Prop :=
  nodes (ps_doc st.2) !! p = None /\ (p < ps_fresh st.2)%nat.

Section Life.
Context (random : nat -> Q) (c : nat).

(** One step of the event loop for the spawner: the next timer fires, or
    time passes, not beyond the next timer. *)
Inductive particle_step : Timers.loop particle_task * pstate -> Timers.loop particle_task * pstate -> Prop :=
  | step_fire st tm :
      Timers.next_timer (Timers.pending st.1) = Some tm ->
      particle_step st (Timers.fire (particle_handle random c) tm st)
  | step_idle st t :
      Timers.now st.1 <= t ->
      (forall tm, tm ∈ Timers.pending st.1 -> t <= Timers.tm_due tm) ->
      particle_step st (Timers.Loop t (Timers.next_seq st.1) (Timers.pending st.1), st.2).

End Life.

(** The page after [initParticles] found the container, at time [t0]. *)
Definition particles_start (d : document) (t0 : Q) : Timers.loop particle_task * pstate :=
  ((initParticles d (Timers.loop_empty t0)).2, pstate_init d).

(** The document part of the invariant: live particles are leaf children
    of the container, the next node is above every node, style and parent,
    and the container is in the document and is not a particle. *)
Definition pstate_ok (c : nat) (s : pstate) : Prop :=
  (forall p, live s p -> childless (ps_doc s) p /\ nodes (ps_doc s) !! p ≫= parentNode = Some c) /\
  (forall k, is_Some (nodes (ps_doc s) !! k) -> (k < ps_fresh s)%nat) /\
  (forall k, is_Some (ps_style s !! k) -> (k < ps_fresh s)%nat) /\
  (forall y nd k, nodes (ps_doc s) !! y = Some nd -> parentNode nd = Some k -> (k < ps_fresh s)%nat) /\
  is_Some (nodes (ps_doc s) !! c) /\ ps_style s !! c = None.

Definition particles_inv (c : nat) (st : Timers.loop particle_task * pstate) : Prop :=
  Timers.loop_wf st.1 /\
  NoDup (removal_targets (Timers.pending st.1)) /\
  (forall p, p ∈ removal_targets (Timers.pending st.1) <-> live st.2 p) /\
  pstate_ok c st.2 /\
  (forall tm p, tm ∈ Timers.pending st.1 -> Timers.tm_task tm = RemoveParticle p ->
     Timers.tm_due tm < Timers.now st.1 + 25000).

(** The firings, by [limit], of the interval due at [u], counting for each
    the removal of the particle it creates. *)
Definition interval_weight (limit u : Q) : nat :=
  if u <=q? limit then 2 * (Z.to_nat (Qfloor ((limit - u) / 2000)) + 1) else 0.

Definition timer_weight (limit : Q) (tm : Timers.timer particle_task) : nat :=
  match Timers.tm_task tm with
  | RemoveParticle _ => if Timers.tm_due tm <=q? limit then 1 else 0
  | CreateParticle => if Timers.tm_due tm <=q? limit then 2 else 0
  | IntervalCreate => interval_weight limit (Timers.tm_due tm)
  end.

(** The firings that running the timers due by [limit] can still make. *)
Definition potential (limit : Q) (st : Timers.loop particle_task * pstate) : nat :=
  sum_list (timer_weight limit <$> Timers.pending st.1).

(** ** Removal targets *)

Lemma removal_targets_app (a b : list (Timers.timer particle_task)) :
  removal_targets (a ++ b) = removal_targets a ++ removal_targets b.
Proof. unfold removal_targets. by rewrite fmap_app, omap_app. Qed.

Lemma removal_targets_cons (tm : Timers.timer particle_task) (ts : list (Timers.timer particle_task)) :
  removal_targets (tm :: ts) = default [] ((fun p => [p]) <$> task_target (Timers.tm_task tm)) ++ removal_targets ts.
Proof. unfold removal_targets. simpl. by destruct (task_target _). Qed.

Lemma removal_targets_new (ts : list (Timers.timer particle_task)) (reqs : list (Q * particle_task)) (P : Timers.timer particle_task -> Q * particle_task -> Prop) :
  Forall2 (fun tm r => Timers.tm_task tm = r.2 /\ P tm r) ts reqs ->
  removal_targets ts = omap task_target reqs.*2.
Proof.
  intros H. unfold removal_targets. f_equal.
  induction H as [|tm r ts reqs [Ht _] _ IH]; [done|]. rewrite !fmap_cons, Ht, IH. done.
Qed.

Lemma elem_of_removal_targets (ts : list (Timers.timer particle_task)) (p : nat) :
  p ∈ removal_targets ts <-> exists tm, tm ∈ ts /\ Timers.tm_task tm = RemoveParticle p.
Proof.
  unfold removal_targets. rewrite list_elem_of_omap. split.
  - intros (t & (tm & -> & Htm)%list_elem_of_fmap & Ht). exists tm. split; [done|].
    destruct (Timers.tm_task tm); simpl in Ht; congruence.
  - intros (tm & Htm & Ht). exists (Timers.tm_task tm). split; [by apply list_elem_of_fmap_2|]. by rewrite Ht.
Qed.

(** ** A particle's creation and removal *)

Lemma createParticle_live (random : nat -> Q) (c : nat) (s : pstate) (q : nat) :
  live (createParticle random c s).1 q <-> q = ps_fresh s \/ live s q.
Proof.
  unfold live, createParticle. cbn [fst ps_style ps_doc ps_fresh]. rewrite appendChild_nodes.
  destruct (decide (q = ps_fresh s)) as [->|Hq].
  - rewrite !lookup_insert_eq. split; [by left|]. intros _. split; by eexists.
  - rewrite !lookup_insert_ne by done. naive_solver.
Qed.

Lemma removeParticle_leaf (s : pstate) (p par : nat) :
  nodes (ps_doc s) !! p ≫= parentNode = Some par -> childless (ps_doc s) p ->
  ps_style (removeParticle p s) = ps_style s /\ ps_fresh (removeParticle p s) = ps_fresh s /\
  nodes (ps_doc (removeParticle p s)) = delete p (nodes (ps_doc s)).
Proof.
  intros Hpar Hc. unfold removeParticle. rewrite Hpar.
  destruct (nodes (ps_doc s) !! p) as [nd|] eqn:Ep; [|done]. simpl in Hpar.
  destruct (removeChild_leaf (ps_doc s) par p nd Ep Hpar Hc) as (d' & -> & Hn). done.
Qed.

Lemma pstate_ok_create (random : nat -> Q) (c : nat) (s : pstate) :
  pstate_ok c s -> pstate_ok c (createParticle random c s).1.
Proof.
  intros (Hleaf & Hn & Hs & Hpar & Hc & Hcs).
  assert (Hcf : (c < ps_fresh s)%nat) by (apply Hn, Hc).
  unfold createParticle. unfold pstate_ok. cbn [fst ps_style ps_doc ps_fresh]. rewrite appendChild_nodes.
  set (p := ps_fresh s). split_and!.
  - intros q Hq. apply (createParticle_live random c s q) in Hq as [->|Hq].
    + split; [|by rewrite lookup_insert_eq].
      intros y nd Hy Hp. rewrite appendChild_nodes in Hy. destruct (decide (y = p)) as [->|Hyp].
      * rewrite lookup_insert_eq in Hy. injection Hy as <-. simpl in Hp. injection Hp. lia.
      * rewrite lookup_insert_ne in Hy by done. pose proof (Hpar y nd p Hy Hp). lia.
    + destruct (Hleaf q Hq) as [Hcl Hq']. assert (Hqp : q <> p) by (pose proof (Hs q (proj1 Hq)); lia).
      split; [|by rewrite lookup_insert_ne].
      intros y nd Hy Hp. rewrite appendChild_nodes in Hy. destruct (decide (y = p)) as [->|Hyp].
      * rewrite lookup_insert_eq in Hy. injection Hy as <-. simpl in Hp. injection Hp as ->.
        destruct Hq as [[st Hst] _]. by rewrite Hst in Hcs.
      * rewrite lookup_insert_ne in Hy by done. by apply (Hcl y nd).
  - intros k Hk. destruct (decide (k = p)) as [->|Hkp]; [lia|].
    rewrite lookup_insert_ne in Hk by done. pose proof (Hn k Hk). lia.
  - intros k Hk. destruct (decide (k = p)) as [->|Hkp]; [lia|].
    rewrite lookup_insert_ne in Hk by done. pose proof (Hs k Hk). lia.
  - intros y nd k Hy Hp. destruct (decide (y = p)) as [->|Hyp].
    + rewrite lookup_insert_eq in Hy. injection Hy as <-. simpl in Hp. injection Hp as <-. lia.
    + rewrite lookup_insert_ne in Hy by done. pose proof (Hpar y nd k Hy Hp). lia.
  - rewrite lookup_insert_ne by lia. done.
  - rewrite lookup_insert_ne by lia. done.
Qed.

Lemma pstate_ok_remove (c : nat) (s : pstate) (p : nat) :
  pstate_ok c s -> live s p ->
  pstate_ok c (removeParticle p s) /\ (forall q, live (removeParticle p s) q <-> live s q /\ q <> p).
Proof.
  intros (Hleaf & Hn & Hs & Hpar & Hc & Hcs) Hp.
  destruct (Hleaf p Hp) as [Hcl Hpc].
  destruct (removeParticle_leaf s p c Hpc Hcl) as (Es & Ef & En).
  assert (Hq : forall q, live (removeParticle p s) q <-> live s q /\ q <> p).
  { intros q. unfold live. rewrite Es, En. destruct (decide (q = p)) as [->|Hqp].
    - rewrite lookup_delete_eq. split; [intros [_ []]; done|tauto].
    - rewrite lookup_delete_ne by done. tauto. }
  assert (Hcp : c <> p) by (intros ->; destruct Hp as [[st Hst] _]; by rewrite Hst in Hcs).
  split; [|done]. unfold pstate_ok. rewrite Es, Ef, En. split_and!.
  - intros q Hlq. apply Hq in Hlq as [Hlq Hqp]. destruct (Hleaf q Hlq) as [Hc' Hpq].
    split; [|by rewrite lookup_delete_ne].
    intros y nd Hy. rewrite En in Hy. apply lookup_delete_Some in Hy as [_ Hy]. by apply (Hc' y nd).
  - intros k Hk. apply Hn. destruct (decide (k = p)) as [->|Hkp]; [by rewrite lookup_delete_eq in Hk|].
    by rewrite lookup_delete_ne in Hk.
  - done.
  - intros y nd k Hy. apply lookup_delete_Some in Hy as [_ Hy]. by apply (Hpar y nd k).
  - by rewrite lookup_delete_ne.
  - done.
Qed.

(** ** Firing a timer keeps the invariant *)

Lemma targets_split (pre post : list (Timers.timer particle_task)) (tm : Timers.timer particle_task) :
  removal_targets (pre ++ tm :: post) =
  removal_targets pre ++ default [] ((fun p => [p]) <$> task_target (Timers.tm_task tm)) ++ removal_targets post.
Proof. by rewrite removal_targets_app, removal_targets_cons. Qed.

Lemma omap_no_target (reqs : list (Q * particle_task)) :
  Forall (fun r => task_target r.2 = None) reqs -> omap task_target reqs.*2 = [].
Proof. induction 1 as [|r reqs Hr _ IH]; [done|]. simpl. by rewrite Hr. Qed.

(** A [createParticle] timer and the interval both run [createParticle]; the
    interval also asks for itself again. *)
Lemma handle_create (random : nat -> Q) (c : nat) (t : particle_task) (q : Q) (s : pstate) :
  task_target t = None ->
  exists extra, particle_handle random c t q s =
    ((createParticle random c s).1, (createParticle random c s).2 ++ extra) /\
    Forall (fun r => task_target r.2 = None) extra.
Proof.
  destruct t as [| |p]; intros Ht; [| |done].
  - exists []. rewrite app_nil_r. split; [unfold particle_handle; apply surjective_pairing|constructor].
  - exists [(2000, IntervalCreate)]. split; [by unfold particle_handle; destruct (createParticle random c s)|].
    by repeat constructor.
Qed.

Section Fire.
Context (random : nat -> Q) (random_range : forall n, 0 <= random n < 1) (c : nat).
Implicit Types (st : Timers.loop particle_task * pstate) (tm : Timers.timer particle_task).

Lemma inv_fire_remove st tm p :
  particles_inv c st -> Timers.next_timer (Timers.pending st.1) = Some tm -> Timers.tm_task tm = RemoveParticle p ->
  particles_inv c (Timers.fire (particle_handle random c) tm st).
Proof.
  intros (Hwf & Hnd & Hlive & Hok & Hdue) E Ht. destruct (Timers.next_timer_spec _ _ E) as [Hin _].
  destruct (Timers.remove_timer_split _ _ (proj1 (proj2 Hwf)) Hin) as (pre & post & Hsp & Hrem).
  destruct (Timers.fire_spec (particle_handle random c) tm st) as (Hnow & Hs & ts & Hp & Hf).
  rewrite Ht in Hs, Hf. simpl in Hs, Hf. apply Forall2_nil_inv_r in Hf as ->.
  assert (Hlp : live st.2 p) by (apply Hlive, elem_of_removal_targets; by exists tm).
  destruct (pstate_ok_remove c st.2 p Hok Hlp) as [Hok' Hq].
  rewrite Hsp, targets_split, Ht in Hnd, Hlive. simpl in Hnd, Hlive.
  destruct (NoDup_app_drop _ _ _ Hnd) as (Hnd' & Hpre & Hpost).
  rewrite Hrem, app_nil_r in Hp. unfold particles_inv. rewrite Hs, Hp, Hnow, removal_targets_app.
  split_and!; [by apply Timers.fire_wf|done| |done|].
  - intros q. rewrite Hq, <- Hlive, !elem_of_app, elem_of_cons. set_solver.
  - intros tm' q Htm' Ht'. assert (Hin' : tm' ∈ Timers.pending st.1) by (rewrite Hsp; set_solver).
    pose proof (Hdue tm' q Hin' Ht'). pose proof (proj1 Hwf tm Hin). lra.
Qed.

Lemma inv_fire_create st tm :
  particles_inv c st -> Timers.next_timer (Timers.pending st.1) = Some tm ->
  task_target (Timers.tm_task tm) = None ->
  particles_inv c (Timers.fire (particle_handle random c) tm st).
Proof.
  intros (Hwf & Hnd & Hlive & Hok & Hdue) E Ht. destruct (Timers.next_timer_spec _ _ E) as [Hin _].
  destruct (Timers.remove_timer_split _ _ (proj1 (proj2 Hwf)) Hin) as (pre & post & Hsp & Hrem).
  destruct (Timers.fire_spec (particle_handle random c) tm st) as (Hnow & Hs & ts & Hp & Hf).
  destruct (handle_create random c (Timers.tm_task tm) (Timers.tm_due tm) st.2 Ht) as (extra & Hh & Hx).
  rewrite Hh in Hs, Hf. cbn [fst] in Hs.
  assert (Hts : removal_targets ts = [ps_fresh st.2]).
  { rewrite (removal_targets_new _ _ _ Hf). cbn [snd]. rewrite fmap_app, omap_app, (omap_no_target extra Hx).
    reflexivity. }
  assert (Hfresh : ps_fresh st.2 ∉ removal_targets (Timers.pending st.1)).
  { intros Hf'%Hlive. destruct Hok as (_ & _ & Hsk & _). pose proof (Hsk _ (proj1 Hf')). lia. }
  rewrite Hsp, targets_split, Ht in Hnd, Hlive, Hfresh. simpl in Hnd, Hlive, Hfresh.
  unfold particles_inv. rewrite Hs, Hp, Hnow, Hrem, !removal_targets_app, Hts.
  split_and!; [by apply Timers.fire_wf| | |by apply pstate_ok_create|].
  - rewrite ?app_assoc. apply NoDup_app. split_and!; [done|set_solver|apply NoDup_singleton].
  - intros q. rewrite createParticle_live, <- Hlive. set_solver.
  - intros tm' q Htm' Ht'. apply elem_of_app in Htm' as [Htm'|Htm'].
    + assert (Hin' : tm' ∈ Timers.pending st.1) by (rewrite Hsp; set_solver).
      pose proof (Hdue tm' q Hin' Ht'). pose proof (proj1 Hwf tm Hin). lra.
    + destruct (Forall2_in_l _ _ _ _ Hf Htm') as (r & Hr & Htask & Hd).
      apply elem_of_app in Hr as [Hr|Hr].
      * apply list_elem_of_singleton in Hr as ->. destruct (removal_delay_range random random_range st.2) as [Hl Hb].
        rewrite Hd. cbn [createParticle snd]. rewrite Hl, Timers.clamp_delay_id; cbn [fst]; [lra|].
        apply (Qle_trans _ 10000); [discriminate|apply Hb].
      * rewrite Forall_forall in Hx. pose proof (Hx r Hr) as Hr'. rewrite <- Htask, Ht' in Hr'. done.
Qed.

End Fire.

(** ** The reachable states *)

Lemma removal_targets_none (ts : list (Timers.timer particle_task)) :
  (forall tm, tm ∈ ts -> task_target (Timers.tm_task tm) = None) -> removal_targets ts = [].
Proof.
  intros H. destruct (removal_targets ts) as [|p ps] eqn:E; [done|].
  assert (Hp : p ∈ removal_targets ts) by (rewrite E; by left).
  apply elem_of_removal_targets in Hp as (tm & Htm & Ht). pose proof (H tm Htm) as Hn. by rewrite Ht in Hn.
Qed.

Lemma fresh_above (d : document) (k : nat) :
  is_Some (nodes d !! k) -> (k < ps_fresh (pstate_init d))%nat.
Proof.
  intros [nd Hk]. simpl. apply Nat.lt_succ_r, max_list_elem_of_le.
  apply list_elem_of_fmap. exists (k, nd). split; [done|]. by apply elem_of_map_to_list.
Qed.

Lemma inv_start (d : document) (t0 : Q) (c : nat) :
  parents_exist d -> getElementById d "hero-particles" = Some c -> particles_inv c (particles_start d t0).
Proof.
  intros Hpar Hc. unfold particles_start, initParticles. rewrite Hc. cbn [snd fst].
  set (l := foldl _ (Timers.loop_empty t0) (seq 0 15)).
  assert (Hnone : forall tm, tm ∈ Timers.pending (Timers.setTimeout 2000 IntervalCreate l) ->
                    task_target (Timers.tm_task tm) = None).
  { intros tm Htm. unfold l in Htm. rewrite create_timers in Htm. unfold Timers.setTimeout in Htm.
    cbn [Timers.pending Timers.now Timers.next_seq Timers.loop_empty] in Htm. rewrite app_nil_l in Htm.
    apply elem_of_app in Htm as [Htm|Htm].
    - by apply list_elem_of_fmap in Htm as (j & -> & _).
    - by apply list_elem_of_singleton in Htm as ->. }
  assert (Hlive : forall p, ~ live (pstate_init d) p) by (intros p [[? Hs] _]; simpl in Hs; by rewrite lookup_empty in Hs).
  unfold particles_inv. cbn [fst snd]. rewrite (removal_targets_none _ Hnone). split_and!.
  - apply Timers.setTimeout_wf, (foldl_invariant Timers.loop_wf); [apply Timers.loop_empty_wf|].
    intros b a _ Hb. by apply Timers.setTimeout_wf.
  - constructor.
  - intros p. split; [by intros ?%elem_of_nil|by intros ?%Hlive].
  - split_and!; [by intros p ?%Hlive|apply fresh_above|by intros k [? Hk]; simpl in Hk; rewrite lookup_empty in Hk| |
                 by apply (getElementById_exists d "hero-particles")|apply lookup_empty].
    intros y nd k Hy Hk. apply fresh_above, (Hpar y nd k Hy Hk).
  - intros tm p Htm Ht. pose proof (Hnone tm Htm) as Hn. by rewrite Ht in Hn.
Qed.

Lemma inv_idle (c : nat) (st : Timers.loop particle_task * pstate) (t : Q) :
  particles_inv c st -> Timers.now st.1 <= t -> (forall tm, tm ∈ Timers.pending st.1 -> t <= Timers.tm_due tm) ->
  particles_inv c (Timers.Loop t (Timers.next_seq st.1) (Timers.pending st.1), st.2).
Proof.
  intros (Hwf & Hnd & Hlive & Hok & Hdue) Ht Hall. unfold particles_inv. simpl.
  split_and!; try done; [split_and!; [done|apply Hwf|apply Hwf]|].
  intros tm p Htm Hp. pose proof (Hdue tm p Htm Hp). lra.
Qed.

Lemma task_target_Some (t : particle_task) (p : nat) : task_target t = Some p -> t = RemoveParticle p.
Proof. destruct t; simpl; congruence. Qed.

Section Reachable.
Context (random : nat -> Q) (random_range : forall n, 0 <= random n < 1) (c : nat).

Lemma inv_fire (st : Timers.loop particle_task * pstate) (tm : Timers.timer particle_task) :
  particles_inv c st -> Timers.next_timer (Timers.pending st.1) = Some tm ->
  particles_inv c (Timers.fire (particle_handle random c) tm st).
Proof.
  intros H E. destruct (task_target (Timers.tm_task tm)) as [p|] eqn:Ht.
  - eapply inv_fire_remove; [done|done|done|by apply task_target_Some].
  - by apply inv_fire_create.
Qed.

Lemma inv_step (st st' : Timers.loop particle_task * pstate) :
  particles_inv c st -> particle_step random c st st' -> particles_inv c st'.
Proof. intros H Hs. inversion Hs; subst; [by apply inv_fire|by apply inv_idle]. Qed.

Lemma inv_reachable (d : document) (t0 : Q) (st : Timers.loop particle_task * pstate) :
  parents_exist d -> getElementById d "hero-particles" = Some c ->
  rtc (particle_step random c) (particles_start d t0) st -> particles_inv c st.
Proof.
  intros Hpar Hc Hr. pose proof (inv_start d t0 c Hpar Hc) as H0.
  induction Hr as [|x y z Hxy _ IH]; [done|]. apply IH. by apply (inv_step x).
Qed.

(** Running the timers due by [limit] only takes steps of the event loop. *)
Lemma run_until_reachable (fuel : nat) (limit : Q) (st : Timers.loop particle_task * pstate) :
  rtc (particle_step random c) st (Timers.run_until (particle_handle random c) fuel limit st).
Proof.
  revert st. induction fuel as [|f IH]; intros st; [apply rtc_refl|]. simpl.
  destruct (Timers.next_timer (Timers.pending st.1)) as [tm|] eqn:E; [|apply rtc_refl].
  case_bool_decide; [|apply rtc_refl]. eapply rtc_l; [by constructor|apply IH].
Qed.

(** C9: in every state the spawner reaches, each particle created and
    still in the document has exactly one pending removal timer, every
    pending removal is for such a particle, and it is due less than 25
    seconds from now. *)
Theorem particles_removed_once (d : document) (t0 : Q) (st : Timers.loop particle_task * pstate) :
  parents_exist d -> getElementById d "hero-particles" = Some c ->
  rtc (particle_step random c) (particles_start d t0) st ->
  NoDup (removal_targets (Timers.pending st.1)) /\
  (forall p, p ∈ removal_targets (Timers.pending st.1) <-> live st.2 p) /\
  (forall tm p, tm ∈ Timers.pending st.1 -> Timers.tm_task tm = RemoveParticle p ->
     Timers.tm_due tm < Timers.now st.1 + 25000).
Proof. intros Hpar Hc Hr. destruct (inv_reachable d t0 st Hpar Hc Hr) as (_ & ? & ? & _ & ?). done. Qed.

End Reachable.

Lemma hero_page_parents : parents_exist hero_page.
Proof.
  intros y nd k Hy Hk. unfold hero_page in Hy. simpl in Hy.
  rewrite !lookup_insert_Some, lookup_empty in Hy.
  destruct Hy as [[<- <-]|[_ [[<- <-]|[_ ?]]]]; [done| |done].
  simpl in Hk. injection Hk as <-. by vm_compute; eexists.
Qed.

(** ** Termination of the loop up to a limit *)

Lemma sum_list_app_nat (a b : list nat) : sum_list (a ++ b) = (sum_list a + sum_list b)%nat.
Proof. induction a as [|x a IH]; simpl; lia. Qed.

Lemma interval_weight_next (limit u : Q) :
  u <= limit -> (interval_weight limit (u + 2000) + 2 <= interval_weight limit u)%nat.
Proof.
  intros Hu. unfold interval_weight. rewrite (bool_decide_eq_true_2 (u <= limit)) by done.
  case_bool_decide as H2; [|lia].
  assert (E : (limit - (u + 2000)) / 2000 == (limit - u) / 2000 - 1) by (field; discriminate).
  rewrite (Qfloor_comp _ _ E), Qfloor_minus_1.
  assert (G : (1 <= Qfloor ((limit - u) / 2000))%Z).
  { apply Qfloor_ge_Z. change (zq 1) with 1. apply Qle_shift_div_l; [reflexivity|]. lra. }
  lia.
Qed.

Lemma removal_weight (limit : Q) (tm : Timers.timer particle_task) (p : nat) :
  Timers.tm_task tm = RemoveParticle p -> (timer_weight limit tm <= 1)%nat.
Proof. intros Ht. unfold timer_weight. rewrite Ht. case_bool_decide; lia. Qed.

Lemma fired_weight (random : nat -> Q) (c : nat) (limit : Q) (tm : Timers.timer particle_task) (s : pstate)
    (ts : list (Timers.timer particle_task)) :
  Timers.tm_due tm <= limit ->
  Forall2 (fun tm' r => Timers.tm_task tm' = r.2 /\ Timers.tm_due tm' = Timers.tm_due tm + Timers.clamp_delay r.1) ts
    (particle_handle random c (Timers.tm_task tm) (Timers.tm_due tm) s).2 ->
  (sum_list (timer_weight limit <$> ts) < timer_weight limit tm)%nat.
Proof.
  intros Hd Hf. unfold timer_weight at 2.
  destruct (Timers.tm_task tm) as [| |p] eqn:Ht; simpl in Hf.
  - inversion Hf as [|t1 r1 ts1 reqs1 [H1 _] Hf1]; subst. apply Forall2_nil_inv_r in Hf1 as ->.
    pose proof (removal_weight limit t1 _ H1). rewrite bool_decide_eq_true_2 by done. simpl. lia.
  - inversion Hf as [|t1 r1 ts1 reqs1 [H1 _] Hf1]; subst.
    inversion Hf1 as [|t2 r2 ts2 reqs2 [H2 D2] Hf2]; subst. apply Forall2_nil_inv_r in Hf2 as ->.
    pose proof (removal_weight limit t1 _ H1). pose proof (interval_weight_next limit (Timers.tm_due tm) Hd).
    assert (W2 : timer_weight limit t2 = interval_weight limit (Timers.tm_due t2)) by (unfold timer_weight; by rewrite H2).
    simpl. rewrite W2, D2, Timers.clamp_delay_id by discriminate. cbn [fst]. lia.
  - apply Forall2_nil_inv_r in Hf as ->. rewrite bool_decide_eq_true_2 by done. simpl. lia.
Qed.

Lemma potential_fire (random : nat -> Q) (c : nat) (limit : Q) (st : Timers.loop particle_task * pstate)
    (tm : Timers.timer particle_task) :
  Timers.loop_wf st.1 -> Timers.due_firing limit st tm ->
  (potential limit (Timers.fire (particle_handle random c) tm st) < potential limit st)%nat.
Proof.
  intros Hwf [E Hd]. destruct (Timers.next_timer_spec _ _ E) as [Hin _].
  destruct (Timers.remove_timer_split _ _ (proj1 (proj2 Hwf)) Hin) as (pre & post & Hsp & Hrem).
  destruct (Timers.fire_spec (particle_handle random c) tm st) as (_ & _ & ts & Hp & Hf).
  pose proof (fired_weight random c limit tm st.2 ts Hd Hf).
  unfold potential. rewrite Hp, Hrem, Hsp, !fmap_app, fmap_cons, !sum_list_app_nat. simpl. lia.
Qed.

(** A node that is not, and will never be, allocated: absent and below [fresh]. *)
Lemma removeParticle_absent (p k : nat) (s : pstate) :
  nodes (ps_doc s) !! k = None ->
  nodes (ps_doc (removeParticle p s)) !! k = None /\ ps_fresh (removeParticle p s) = ps_fresh s.
Proof.
  unfold removeParticle. intros Hk. destruct (nodes (ps_doc s) !! p ≫= parentNode) as [par|]; [|done].
  destruct (removeChild par p (ps_doc s)) as [d|] eqn:Hr; [|done]. simpl.
  split; [by eapply removeChild_absent|done].
Qed.

Lemma handle_absent (random : nat -> Q) (c : nat) (t : particle_task) (q : Q) (s : pstate) (k : nat) :
  nodes (ps_doc s) !! k = None -> (k < ps_fresh s)%nat ->
  nodes (ps_doc (particle_handle random c t q s).1) !! k = None /\ (k < ps_fresh (particle_handle random c t q s).1)%nat.
Proof.
  intros Hk Hf. destruct (task_target t) as [p|] eqn:Ht.
  - apply task_target_Some in Ht as ->. simpl. destruct (removeParticle_absent p k s Hk) as [-> ->]. done.
  - destruct (handle_create random c t q s Ht) as (extra & -> & _). unfold createParticle.
    cbn [fst ps_doc ps_fresh]. rewrite appendChild_nodes, lookup_insert_ne by lia. split; [done|lia].
Qed.

Section Liveness.
Context (random : nat -> Q) (random_range : forall n, 0 <= random n < 1) (c : nat) (p : nat).

Lemma removed_fire (st : Timers.loop particle_task * pstate) (tm : Timers.timer particle_task) :
  removed p st -> removed p (Timers.fire (particle_handle random c) tm st).
Proof.
  unfold removed. intros [Hk Hf]. destruct (Timers.fire_spec (particle_handle random c) tm st) as (_ & -> & _).
  by apply handle_absent.
Qed.

(** Firing the removal of a live particle removes it. *)
Lemma removal_fire_removed (st : Timers.loop particle_task * pstate) (tm : Timers.timer particle_task) :
  particles_inv c st -> live st.2 p -> Timers.tm_task tm = RemoveParticle p ->
  removed p (Timers.fire (particle_handle random c) tm st).
Proof.
  intros (_ & _ & _ & Hok & _) Hl Ht. unfold removed.
  destruct (Timers.fire_spec (particle_handle random c) tm st) as (_ & -> & _).
  rewrite Ht. cbn [particle_handle fst]. destruct (proj1 Hok p Hl) as [Hc Hpar].
  destruct (removeParticle_leaf st.2 p c Hpar Hc) as (_ & -> & ->). unfold removed. simpl.
  rewrite lookup_delete_eq. split; [done|]. apply (proj1 (proj2 Hok)), Hl.
Qed.

Lemma due_removal_live (limit : Q) (st : Timers.loop particle_task * pstate) (tm : Timers.timer particle_task) :
  particles_inv c st -> Timers.due_firing limit st tm -> Timers.tm_task tm = RemoveParticle p -> live st.2 p.
Proof.
  intros (_ & _ & Hlive & _) [E _] Ht. apply Hlive, elem_of_removal_targets. exists tm. split; [|done].
  by apply (Timers.next_timer_spec _ _ E).
Qed.

(** C10: a particle of a reachable state that is still in the document has
    left it once the timers due in the next 25 seconds have run: as many
    turns of the event loop as the potential take them all. *)
Theorem particle_removed_eventually (d : document) (t0 : Q) (st : Timers.loop particle_task * pstate) (fuel : nat) :
  parents_exist d -> getElementById d "hero-particles" = Some c ->
  rtc (particle_step random c) (particles_start d t0) st -> live st.2 p ->
  (potential (Timers.now st.1 + 25000) st <= fuel)%nat ->
  nodes (ps_doc (Timers.run_until (particle_handle random c) fuel (Timers.now st.1 + 25000) st).2) !! p = None.
Proof.
  intros Hpar Hc Hr Hl Hle. pose proof (inv_reachable random random_range c d t0 st Hpar Hc Hr) as HI.
  pose proof HI as (_ & _ & Hlive & _ & Hdue).
  destruct (proj1 (elem_of_removal_targets _ p) (proj2 (Hlive p) Hl)) as (tm & Hin & Ht).
  eapply (Timers.run_until_fires (particle_handle random c) (Timers.now st.1 + 25000) (particles_inv c) _ (fun _ H => proj1 H)
            (fun st' tm' H Hf => inv_fire random random_range c st' tm' H (proj1 Hf))
            (fun st' tm' H => potential_fire random c _ st' tm' (proj1 H)) (removed p)
            (fun st' tm' _ H _ => removed_fire st' tm' H) fuel st tm HI Hin).
  - apply Qlt_le_weak, (Hdue tm p Hin Ht).
  - intros st' H' Hf. apply removal_fire_removed; [done| |done]. by apply (due_removal_live (Timers.now st.1 + 25000) st' tm).
  - done.
Qed.

End Liveness.

(** ** Witnesses *)

Lemma particles_removed_once_witness :
  let st := Timers.run_until (particle_handle (fun _ => 1 # 2) 2) 4 1000 (particles_start hero_page 0) in
  NoDup (removal_targets (Timers.pending st.1)) /\
  (forall p, p ∈ removal_targets (Timers.pending st.1) <-> live st.2 p) /\
  (forall tm p, tm ∈ Timers.pending st.1 -> Timers.tm_task tm = RemoveParticle p ->
     Timers.tm_due tm < Timers.now st.1 + 25000).
Proof.
  apply (particles_removed_once (fun _ => 1 # 2) random_half_range 2 hero_page 0).
  - apply hero_page_parents.
  - vm_compute. reflexivity.
  - apply run_until_reachable.
Defined.

Lemma particle_removed_eventually_witness :
  let st := Timers.run_until (particle_handle (fun _ => 1 # 2) 2) 4 1000 (particles_start hero_page 0) in
  live st.2 3 /\
  nodes (ps_doc (Timers.run_until (particle_handle (fun _ => 1 # 2) 2) 51 (Timers.now st.1 + 25000) st).2) !! 3%nat = None.
Proof.
  assert (Hl : live (Timers.run_until (particle_handle (fun _ => 1 # 2) 2) 4 1000 (particles_start hero_page 0)).2 3).
  { split; vm_compute; eexists; reflexivity. }
  split; [exact Hl|].
  apply (particle_removed_eventually (fun _ => 1 # 2) random_half_range 2 3 hero_page 0).
  - apply hero_page_parents.
  - vm_compute. reflexivity.
  - apply run_until_reachable.
  - exact Hl.
  - vm_compute. lia.
Defined.

End ParticlesLife.
