(* ===== verification/PageTimers.v ===== *)
(** * The page's timers: reveal timers and particle timers on one document

    The reveal animator ([Reveal.v]) and the particle spawner
    ([Particles.v]) schedule their callbacks on the same list of active
    timers of the browser, and both write the one document: a reveal timer
    adds [visible] to its element (line 98), a particle timer appends a
    particle to the container or removes one (lines 185-209).  A
    [page_task] is either kind of task; [page_handle] runs it on the
    spawner's state, which holds the document.

    Which of two timers due close together fires first depends on their
    due times and sequence numbers, so a page run is some interleaving of
    the reveal firings and the particle firings.  The theorem of this file
    is that the interleaving does not matter: any interleaving ends in the
    same state as the particle firings followed by the reveal firings,
    provided the revealed elements are elements of the page (below the
    next node the browser allocates), which the observer guarantees since
    it only observes elements present at load.  It rests on the frame
    lemmas of [Dom.v]: a class-list update commutes with [appendChild] of
    another node and with [removeChild]. *)

From S2P Require Import Prelude JsNum Dom Timers Reveal Particles.
Import Reveal.Reveal Particles.Particles.

Module PageTimers.

Inductive page_task :=
  | PReveal (t : reveal_task)
  | PParticle (t : particle_task).

Definition reveal_target (t : reveal_task) : nat := match t with RevealVisible e => e end.

Section Handle.
Context (random : nat -> Q) (c : nat).

(** The callback of a page timer, on the document inside the spawner's
    state, with the timers it asks for. *)
Definition page_handle (t : page_task) (q : Q) (s : pstate) : pstate * list (Q * page_task) :=
  match t with
  | PReveal r =>
      let '(d, reqs) := reveal_handle r q (ps_doc s) in
      (PState d (ps_style s) (ps_fresh s) (ps_draws s), (fun rq => (rq.1, PReveal rq.2)) <$> reqs)
  | PParticle u =>
      let '(s', reqs) := particle_handle random c u q s in
      (s', (fun rq => (rq.1, PParticle rq.2)) <$> reqs)
  end.

(** The state after a sequence of firings, each a task and its time. *)
Definition run_firings (fs : list (page_task * Q)) (s : pstate) : pstate :=
  foldl (fun s f => (page_handle f.1 f.2 s).1) s fs.

End Handle.

Definition tag_reveal (f : reveal_task * Q) : page_task * Q := (PReveal f.1, f.2).
Definition tag_particle (f : particle_task * Q) : page_task * Q := (PParticle f.1, f.2).

(** [fs] interleaves the reveal firings [rs] and the particle firings
    [us], each in its own order. *)
Inductive interleaving : list (reveal_task * Q) -> list (particle_task * Q) -> list (page_task * Q) -> Prop :=
  | il_nil : interleaving [] [] []
  | il_reveal r rs us fs : interleaving rs us fs -> interleaving (r :: rs) us (tag_reveal r :: fs)
  | il_particle u rs us fs : interleaving rs us fs -> interleaving rs (u :: us) (tag_particle u :: fs).

(** ** Lemmas *)

Section Commute.
Context (random : nat -> Q) (c : nat).

Lemma visible_skeleton (nd : node) : skeleton (with_classList (ClassList.add "visible") nd) = skeleton nd.
Proof. done. Qed.

Lemma classList_add_appendChild (e par p : nat) (nd : node) (d : document) :
  e <> p -> classList_add e "visible" (appendChild par p nd d) = appendChild par p nd (classList_add e "visible" d).
Proof. intros H. by apply appendChild_modify; [apply visible_skeleton|]. Qed.

Lemma classList_add_removeParticle (e p : nat) (s : pstate) :
  removeParticle p (PState (classList_add e "visible" (ps_doc s)) (ps_style s) (ps_fresh s) (ps_draws s)) =
  let s' := removeParticle p s in PState (classList_add e "visible" (ps_doc s')) (ps_style s') (ps_fresh s') (ps_draws s').
Proof.
  unfold removeParticle. cbn [ps_doc ps_style ps_fresh ps_draws].
  rewrite (parent_lookup _ (ps_doc s)) by apply classList_add_layout.
  destruct (nodes (ps_doc s) !! p ≫= parentNode) as [par|]; [|by destruct s].
  unfold classList_add at 1. rewrite removeChild_modify by apply visible_skeleton.
  destruct (removeChild par p (ps_doc s)); by destruct s.
Qed.

(** A particle timer never lowers the next node handle. *)
Lemma particle_fresh_mono (u : particle_task) (q : Q) (s : pstate) :
  (ps_fresh s <= ps_fresh (page_handle random c (PParticle u) q s).1)%nat.
Proof.
  destruct u; simpl; [lia|lia|]. unfold removeParticle.
  repeat case_match; simpl; lia.
Qed.

(** One reveal firing and one particle firing commute when the revealed
    element is not the particle the firing may create. *)
Lemma reveal_particle_comm (e : nat) (u : particle_task) (q q' : Q) (s : pstate) :
  (e < ps_fresh s)%nat ->
  (page_handle random c (PReveal (RevealVisible e)) q (page_handle random c (PParticle u) q' s).1).1 =
  (page_handle random c (PParticle u) q' (page_handle random c (PReveal (RevealVisible e)) q s).1).1.
Proof.
  intros He. destruct u; simpl.
  - unfold createParticle; simpl. rewrite classList_add_appendChild by lia. done.
  - unfold createParticle; simpl. rewrite classList_add_appendChild by lia. done.
  - by rewrite classList_add_removeParticle.
Qed.

Lemma run_firings_cons (f : page_task * Q) (fs : list (page_task * Q)) (s : pstate) :
  run_firings random c (f :: fs) s = run_firings random c fs (page_handle random c f.1 f.2 s).1.
Proof. done. Qed.

Lemma reveal_fresh (r : reveal_task) (q : Q) (s : pstate) :
  ps_fresh (page_handle random c (PReveal r) q s).1 = ps_fresh s.
Proof. by destruct r. Qed.

(** A reveal firing moves past a whole run of particle firings. *)
Lemma reveal_past_particles (r : reveal_task * Q) (us : list (particle_task * Q)) (s : pstate) :
  (reveal_target r.1 < ps_fresh s)%nat ->
  run_firings random c (tag_particle <$> us) (page_handle random c (PReveal r.1) r.2 s).1 =
  (page_handle random c (PReveal r.1) r.2 (run_firings random c (tag_particle <$> us) s)).1.
Proof.
  destruct r as [[e] q]. cbn [fst snd reveal_target]. revert s.
  induction us as [|u us IH]; intros s He; [done|]. cbn [fmap list_fmap]. rewrite !run_firings_cons.
  unfold tag_particle at 1 2. cbn [fst snd]. rewrite <- reveal_particle_comm by done. apply IH.
  eapply Nat.lt_le_trans; [exact He|apply particle_fresh_mono].
Qed.

End Commute.

(** ** The interleaving of the page's timers *)

(** C16: whichever way the browser interleaves the reveal timers with the
    particle timers, the page ends in the state in which all particle
    timers fire first and then all reveal timers, each list in its own
    order, provided every revealed element is a node of the page when the
    timers start. *)
Theorem timers_interleaving_irrelevant (random : nat -> Q) (c : nat) (rs : list (reveal_task * Q))
    (us : list (particle_task * Q)) (fs : list (page_task * Q)) (s : pstate) :
  interleaving rs us fs ->
  Forall (fun r => (reveal_target r.1 < ps_fresh s)%nat) rs ->
  run_firings random c fs s =
  run_firings random c (tag_reveal <$> rs) (run_firings random c (tag_particle <$> us) s).
Proof.
  intros Hil. revert s. induction Hil as [|r rs us fs _ IH|u rs us fs _ IH]; intros s Hr; [done|..].
  - apply Forall_cons in Hr as [Hr1 Hr]. cbn [fmap list_fmap]. rewrite !run_firings_cons.
    unfold tag_reveal at 1 2. cbn [fst snd]. rewrite IH, reveal_past_particles by (rewrite ?reveal_fresh; done).
    done.
  - rewrite run_firings_cons, IH; [done|]. eapply Forall_impl; [exact Hr|].
    intros r Hlt. eapply Nat.lt_le_trans; [exact Hlt|apply (particle_fresh_mono random c u.1 u.2 s)].
Qed.

(** The three timers of a particle and a reveal on the hero page, in the
    order created, revealed, removed. *)
Lemma timers_interleaving_irrelevant_witness :
  run_firings (fun _ => 0) 2 [tag_particle (CreateParticle, 0); tag_reveal (RevealVisible 1, 5);
                               tag_particle (RemoveParticle 3, 10000)] (pstate_init hero_page) =
  run_firings (fun _ => 0) 2 (tag_reveal <$> [(RevealVisible 1, 5)])
    (run_firings (fun _ => 0) 2 (tag_particle <$> [(CreateParticle, 0); (RemoveParticle 3, 10000)])
       (pstate_init hero_page)).
Proof.
  apply timers_interleaving_irrelevant.
  - apply il_particle, il_reveal, il_particle, il_nil.
  - constructor; [apply Nat.ltb_lt; vm_compute; reflexivity|constructor].
Defined.

End PageTimers.
