(* ===== verification/Validator.v ===== *)
(** * The HTML validator: [validate] of [src/tests/validate-html.js]

    [validate] (lines 11-58) exits with 1 when [index.html] does not exist.
    Otherwise it reads the file and runs the sixteen checks of lines 23-40
    in order with [check.pattern.test(html)]: a [PASS: name] line on
    standard output for a match, a [FAIL: Missing name] line on standard
    error and one more error otherwise.  It ends with a summary line and
    the exit code, 1 when some check failed and 0 otherwise.

    The file system is the content of [index.html], [None] when it does not
    exist, as the code units the UTF-8 decoding gives.  The output is the
    list of lines written, each on its stream, and [process.exit] ends
    [validate] with its code.  The patterns are [regexp] values of [Regex]
    with the flag [i]: [cat] strings the terms of a pattern together and
    [lits] is a run of pattern characters; the double quote, which a Rocq
    string cannot hold alone, is [Char dq]. *)

From S2P Require Import Prelude JsNum Regex.
From Stdlib Require Import Ascii.
Import Regex.Regex.

Module Validator.

Definition dq : N := 34.

(** [[^>]] *)
Definition not_gt : regex := NotClass [62%N].

(** The negated class of the double quote. *)
Definition not_dq : regex := NotClass [dq].

(** [/id="name"/i] (lines 30-35). *)
Definition id_pat (name : string) : regexp := RegExp (cat [lits "id="; Char dq; lits name; Char dq]) true.

(** [/<title>.+<\/title>/i] (line 28). *)
Definition title_pat : regexp := RegExp (cat [lits "<title>"; Plus Dot; lits "</title>"]) true.

Record check := Check {
  name : string;
  pattern : regexp
}.

(** [checks] (lines 23-40). *)
Definition checks : list check := [
  Check "DOCTYPE" (RegExp (lits "<!DOCTYPE html>") true);
  Check "html lang attribute" (RegExp (cat [lits "<html"; Plus not_gt; lits "lang="; Char dq; Plus not_dq; Char dq]) true);
  Check "meta charset" (RegExp (cat [lits "<meta"; Plus not_gt; lits "charset="; Char dq; lits "UTF-8"; Char dq]) true);
  Check "meta viewport" (RegExp (cat [lits "<meta"; Plus not_gt; lits "viewport"]) true);
  Check "title element" title_pat;
  Check "nav element" (RegExp (cat [lits "<nav"; Star not_gt; lits ">"]) true);
  Check "hero section" (id_pat "hero");
  Check "about section" (id_pat "about");
  Check "skills section" (id_pat "skills");
  Check "experience section" (id_pat "experience");
  Check "awards section" (id_pat "awards");
  Check "contact section" (id_pat "contact");
  Check "CSS stylesheet link" (RegExp (cat [lits "<link"; Plus not_gt; lits "stylesheet"; Plus not_gt; lits "style.css"]) true);
  Check "JS script tag" (RegExp (cat [lits "<script"; Plus not_gt; lits "main.js"]) true);
  Check "footer element" (RegExp (lits "<footer") true);
  Check "aria-label attributes" (RegExp (lits "aria-label") true)
].

Inductive stream := Stdout | Stderr.

(** [console.log] writes on [Stdout], [console.error] on [Stderr]. *)
Abbreviation line := (stream * string)%type.

Definition newline : string := String "010"%char EmptyString.

(** The body of the loop of lines 42-49: the error count and the lines
    written so far. *)
Definition run_check (html : list N) (acc : nat * list line) (c : check) : nat * list line :=
  if regex_test (pattern c) html then (acc.1, acc.2 ++ [(Stdout, "PASS: " +:+ name c)])
  else (S acc.1, acc.2 ++ [(Stderr, "FAIL: Missing " +:+ name c)]).

(** [validate] (lines 11-58): the lines written and the exit code. *)
Definition validate (file : option (list N)) : list line * Z :=
  match file with
  | None => ([(Stderr, "FAIL: index.html does not exist")], 1%Z)
  | Some html =>
      let '(errors, out) := foldl (run_check html) (0%nat, []) checks in
      if (0 <? errors)%nat
      then (out ++ [(Stderr, newline +:+ js_int_to_string (Z.of_nat errors) +:+ " validation error(s) found.")], 1%Z)
      else (out ++ [(Stdout, newline +:+ "All " +:+ js_int_to_string (Z.of_nat (length checks)) +:+ " checks passed.")], 0%Z)
  end.

(** ** What the report says *)

(** The line a check writes. *)
Definition check_line (html : list N) (c : check) : line :=
  if regex_test (pattern c) html then (Stdout, "PASS: " +:+ name c) else (Stderr, "FAIL: Missing " +:+ name c).

Definition failing (html : list N) : list check := filter (fun c => regex_test (pattern c) html = false) checks.

(** Equal up to ASCII case. *)
Definition ci_eq (w v : list N) : Prop := Forall2 (fun x c => canonicalize true x = canonicalize true c) w v.

Definition contains_ci (html w : list N) : Prop := exists pre v post, html = pre ++ v ++ post /\ ci_eq v w.

(** The text [id="name"]. *)
Definition id_attr (name : string) : list N := code_units "id=" ++ [dq] ++ code_units name ++ [dq].

(** The text ["s"]. *)
Definition quoted (s : string) : list N := [dq] ++ code_units s ++ [dq].

(** A page with every part the checks look for but the awards section. *)
Definition page_without_awards : list N :=
  code_units "<!DOCTYPE html><html lang=" ++ quoted "en" ++ code_units "><head><meta charset=" ++ quoted "UTF-8" ++
  code_units "><meta name=" ++ quoted "viewport" ++ code_units "><title>Jane Doe</title><link rel=" ++
  quoted "stylesheet" ++ code_units " href=" ++ quoted "css/style.css" ++ code_units "></head><body><nav aria-label=" ++
  quoted "Main" ++ code_units "></nav><section id=" ++ quoted "hero" ++ code_units "></section><section id=" ++
  quoted "about" ++ code_units "></section><section id=" ++ quoted "skills" ++ code_units "></section><section id=" ++
  quoted "experience" ++ code_units "></section><section id=" ++ quoted "contact" ++
  code_units "></section><footer></footer><script src=" ++ quoted "js/main.js" ++ code_units "></script></body></html>".

(** ** Lemmas *)

Lemma run_check_fold (html : list N) (cs : list check) (n : nat) (out : list line) :
  foldl (run_check html) (n, out) cs =
  (n + length (filter (fun c => regex_test (pattern c) html = false) cs), out ++ (check_line html <$> cs))%nat.
Proof.
  revert n out. induction cs as [|c cs IH]; intros n out; simpl; [by rewrite Nat.add_0_r, app_nil_r|].
  rewrite filter_cons. unfold run_check at 2, check_line at 1.
  destruct (regex_test (pattern c) html); simpl; rewrite IH, <- app_assoc; simpl; f_equal; lia.
Qed.

Lemma validate_Some (html : list N) :
  validate (Some html) =
  if (0 <? length (failing html))%nat
  then ((check_line html <$> checks) ++
          [(Stderr, newline +:+ js_int_to_string (Z.of_nat (length (failing html))) +:+ " validation error(s) found.")], 1%Z)
  else ((check_line html <$> checks) ++
          [(Stdout, newline +:+ "All " +:+ js_int_to_string (Z.of_nat (length checks)) +:+ " checks passed.")], 0%Z).
Proof. unfold validate. rewrite run_check_fold. reflexivity. Qed.

Lemma filter_none {A} (P : A -> Prop) `{!forall x, Decision (P x)} (l : list A) :
  (forall x, x ∈ l -> ~ P x) -> filter P l = [].
Proof.
  induction l as [|x l IH]; intros Hl; [done|].
  rewrite filter_cons, decide_False by (apply Hl; left). apply IH. intros y Hy. apply Hl. by right.
Qed.

Lemma failing_nil (html : list N) :
  failing html = [] <-> forall c, c ∈ checks -> regex_test (pattern c) html = true.
Proof.
  unfold failing. split.
  - intros E c Hc. destruct (regex_test (pattern c) html) eqn:Ec; [done|].
    by destruct (filter_nil_not_elem_of _ _ c E Ec).
  - intros H. apply filter_none. intros c Hc. by rewrite H.
Qed.

Lemma matches_cat_lits (s : string) (r : regex) (w : list N) :
  matches true (Seq (lits s) r) w <-> exists w1 w2, w = w1 ++ w2 /\ ci_eq w1 (code_units s) /\ matches true r w2.
Proof. rewrite matches_seq. by setoid_rewrite matches_lits. Qed.

Lemma ci_eq_app_r (w a b : list N) : ci_eq w (a ++ b) <-> exists w1 w2, w = w1 ++ w2 /\ ci_eq w1 a /\ ci_eq w2 b.
Proof.
  unfold ci_eq. split; [intros H; apply Forall2_app_inv_r in H as (w1 & w2 & ? & ? & ->); eauto|].
  intros (w1 & w2 & -> & ? & ?). by apply Forall2_app.
Qed.

Lemma matches_id_pat (name : string) (v : list N) : re_matches (id_pat name) v <-> ci_eq v (id_attr name).
Proof.
  unfold re_matches, id_pat, cat, id_attr. cbn [foldr re_source re_ignoreCase]. rewrite matches_cat_lits.
  setoid_rewrite matches_seq. setoid_rewrite matches_char. setoid_rewrite matches_cat_lits.
  setoid_rewrite matches_seq. setoid_rewrite matches_char. setoid_rewrite matches_empty.
  repeat setoid_rewrite ci_eq_app_r. unfold ci_eq. split.
  - intros (a & ? & -> & Ha & b & ? & -> & Hb & c & ? & -> & Hc & d & ? & -> & Hd & ->).
    rewrite app_nil_r. exists a, (b ++ c ++ d). split_and!; [done|done|].
    exists b, (c ++ d). split_and!; [done|done|]. by exists c, d.
  - intros (a & ? & -> & Ha & b & ? & -> & Hb & c & d & -> & Hc & Hd).
    exists a, (b ++ c ++ d). split_and!; [done|done|]. exists b, (c ++ d). split_and!; [done|done|].
    exists c, d. split_and!; [done|done|]. exists d, []. split_and!; [by rewrite app_nil_r|done|done].
Qed.

Lemma matches_title (w : list N) :
  re_matches title_pat w <-> exists o t cl, w = o ++ t ++ cl /\ ci_eq o (code_units "<title>") /\
    t <> [] /\ Forall (fun x => line_terminator x = false) t /\ ci_eq cl (code_units "</title>").
Proof.
  unfold re_matches, title_pat, cat. cbn [foldr re_source re_ignoreCase]. rewrite matches_cat_lits.
  setoid_rewrite matches_seq. setoid_rewrite (matches_plus_unit true Dot _ (matches_dot true)). setoid_rewrite matches_cat_lits.
  setoid_rewrite matches_empty. split.
  - intros (o & ? & -> & Ho & t & ? & -> & [Hne Ht] & cl & ? & -> & Hcl & ->). rewrite app_nil_r.
    by exists o, t, cl.
  - intros (o & t & cl & -> & Ho & Hne & Ht & Hcl). exists o, (t ++ cl). split_and!; [done|done|].
    exists t, cl. split_and!; [done|done|done|]. exists cl, []. by rewrite app_nil_r.
Qed.

(** ** The exit code and the report *)

(** C11: [validate] on an existing [index.html] exits with 0 exactly when
    the pattern of every check matches a substring of the page, and with 1
    exactly when the pattern of some check matches none. *)
Theorem validate_exit_code (html : list N) :
  ((validate (Some html)).2 = 0%Z <->
     forall c, c ∈ checks -> exists pre w post, html = pre ++ w ++ post /\ re_matches (pattern c) w) /\
  ((validate (Some html)).2 = 1%Z <->
     exists c, c ∈ checks /\ ~ exists pre w post, html = pre ++ w ++ post /\ re_matches (pattern c) w).
Proof.
  setoid_rewrite <- regex_test_spec. rewrite validate_Some.
  destruct (failing html) as [|c0 cs] eqn:E; cbn [length Nat.ltb Nat.leb snd].
  - rewrite failing_nil in E. split; split; [intros _; exact E|done|discriminate|].
    intros (c & Hc & Hn). by destruct (Hn (E c Hc)).
  - assert (Hf : c0 ∈ failing html) by (rewrite E; left). apply list_elem_of_filter in Hf as [Hf Hc].
    split; split; [discriminate|intros H; by rewrite H in Hf|intros _; exists c0; by rewrite Hf|done].
Qed.

(** C23: [validate] writes one line per check, in the order of [checks]:
    [PASS: name] on standard output when the check's pattern occurs,
    [FAIL: Missing name] on standard error otherwise; then a seventeenth
    line, the count of failed checks on standard error or [All 16 checks
    passed.] on standard output. *)
Theorem validate_report (html : list N) (i : nat) (c : check) :
  checks !! i = Some c ->
  (validate (Some html)).1 !! i =
    Some (if regex_test (pattern c) html then (Stdout, "PASS: " +:+ name c) else (Stderr, "FAIL: Missing " +:+ name c)) /\
  length (validate (Some html)).1 = 17%nat /\
  (validate (Some html)).1 !! 16%nat =
    Some (if bool_decide (failing html = []) then (Stdout, newline +:+ "All 16 checks passed.")
          else (Stderr, newline +:+ js_int_to_string (Z.of_nat (length (failing html))) +:+ " validation error(s) found.")).
Proof.
  intros Hi. assert (Hlt : (i < 16)%nat) by (apply lookup_lt_Some in Hi; exact Hi).
  set (ls := check_line html <$> checks).
  assert (Hl : length ls = 16%nat) by (subst ls; by rewrite length_fmap).
  assert (Hls : ls !! i = Some (check_line html c)) by (subst ls; by rewrite list_lookup_fmap, Hi).
  rewrite validate_Some. fold ls. destruct (failing html) as [|c0 cs]; cbn [length Nat.ltb Nat.leb fst];
    (split_and!; [rewrite lookup_app_l by lia; exact Hls|rewrite length_app, Hl; reflexivity|]);
    rewrite lookup_app_r, Hl by lia; reflexivity.
Qed.

(** C12: the scenario of the specification: on a page without the text
    [id="awards"] (in any case), [validate] writes [FAIL: Missing awards
    section] on standard error and exits with 1. *)
Theorem validate_missing_awards (html : list N) :
  ~ contains_ci html (id_attr "awards") ->
  (Stderr, "FAIL: Missing awards section") ∈ (validate (Some html)).1 /\ (validate (Some html)).2 = 1%Z.
Proof.
  intros Hn. assert (Ht : regex_test (id_pat "awards") html = false).
  { destruct (regex_test (id_pat "awards") html) eqn:E; [|done]. exfalso. apply Hn.
    apply regex_test_spec in E as (pre & v & post & -> & Hv). exists pre, v, post. by rewrite <- matches_id_pat. }
  assert (Hc : Check "awards section" (id_pat "awards") ∈ checks) by (by apply list_elem_of_lookup_2 with 10%nat).
  assert (Hf : Check "awards section" (id_pat "awards") ∈ failing html) by (by apply list_elem_of_filter).
  rewrite validate_Some. destruct (failing html) as [|c0 cs]; [by apply elem_of_nil in Hf|].
  cbn [length Nat.ltb Nat.leb fst snd]. split; [|done]. apply elem_of_app. left.
  apply list_elem_of_fmap. exists (Check "awards section" (id_pat "awards")). split; [|done].
  unfold check_line. cbn [pattern name]. by rewrite Ht.
Qed.

(** C22: each section check (lines 30-35) passes exactly when the text
    [id="name"] occurs in the page, up to case, on any element or even in
    a comment or in a longer attribute such as [data-id="name"]. *)
Theorem section_check_spec (name : string) (html : list N) :
  regex_test (id_pat name) html = true <-> contains_ci html (id_attr name).
Proof. rewrite regex_test_spec. unfold contains_ci. by setoid_rewrite matches_id_pat. Qed.

(** C29: the title check (line 28) passes exactly when the page has
    [<title>], a nonempty run of units without a line terminator and
    [</title>], up to case: a title element with attributes or a title
    broken over lines fails it. *)
Theorem title_check_spec (html : list N) :
  regex_test title_pat html = true <->
  exists pre o t cl post, html = pre ++ o ++ t ++ cl ++ post /\ ci_eq o (code_units "<title>") /\
    t <> [] /\ Forall (fun x => line_terminator x = false) t /\ ci_eq cl (code_units "</title>").
Proof.
  rewrite regex_test_spec. setoid_rewrite matches_title. split.
  - intros (pre & ? & post & -> & o & t & cl & -> & H). exists pre, o, t, cl, post. by rewrite <- !app_assoc.
  - intros (pre & o & t & cl & post & -> & H). exists pre, (o ++ t ++ cl), post. rewrite <- !app_assoc. eauto 10.
Qed.

(** A title broken over lines, as formatters write it, fails the check. *)
Example title_on_two_lines :
  regex_test title_pat (code_units "<title>" ++ [10%N] ++ code_units "Jane Doe" ++ [10%N] ++ code_units "</title>") = false.
Proof. vm_compute. reflexivity. Qed.

(** ** Witnesses *)

Lemma validate_report_witness :
  (validate (Some page_without_awards)).1 !! 10%nat =
    Some (if regex_test (id_pat "awards") page_without_awards then (Stdout, "PASS: awards section")
          else (Stderr, "FAIL: Missing awards section")) /\
  length (validate (Some page_without_awards)).1 = 17%nat /\
  (validate (Some page_without_awards)).1 !! 16%nat =
    Some (if bool_decide (failing page_without_awards = []) then (Stdout, newline +:+ "All 16 checks passed.")
          else (Stderr, newline +:+ js_int_to_string (Z.of_nat (length (failing page_without_awards))) +:+
                " validation error(s) found.")).
Proof. apply (validate_report page_without_awards 10 (Check "awards section" (id_pat "awards"))). reflexivity. Defined.

Lemma validate_missing_awards_witness :
  (Stderr, "FAIL: Missing awards section") ∈ (validate (Some page_without_awards)).1 /\
  (validate (Some page_without_awards)).2 = 1%Z.
Proof.
  apply validate_missing_awards. intros (pre & v & post & E & Hv).
  assert (Ht : regex_test (id_pat "awards") page_without_awards = true).
  { apply regex_test_spec. exists pre, v, post. split; [done|]. by apply matches_id_pat. }
  vm_compute in Ht. discriminate Ht.
Defined.

End Validator.
