(* ===== verification/Jest.v ===== *)
(** * The Jest suite: the tests on the texts (src/tests/profile.test.js)

    [profile.test.js] reads [index.html], [css/style.css] and
    [js/main.js] as strings and runs its tests with Jest.  Most tests
    query the DOM that jsdom builds from [index.html] ([JestDom.v]); the
    others test the texts themselves: the [lang] test of the accessibility
    block (lines 321-325), the CSS block (lines 349-377) and the JavaScript
    block (lines 380-412), modelled here.  A test is the list of its
    expectations, in order: the first that does not hold throws and fails
    the test, so it passes exactly when all hold.
    [expect(s).toContain(t)] on strings is [includes], [toMatch] with a
    RegExp is [RegExp.prototype.test] of [Regex], [css.match(/@media/g)] is
    [string_match_g], and [toBeGreaterThan] compares lengths in code
    units. *)

From S2P Require Import Prelude Regex.
From Stdlib Require Import Ascii.
Import Regex.Regex.

Module Jest.

Inductive outcome := Passed | Failed.

Fixpoint is_prefix (p s : list N) : bool :=
  match p, s with
  | [], _ => true
  | x :: p', y :: s' => (x =? y)%N && is_prefix p' s'
  | _ :: _, [] => false
  end.

(** [s.includes(t)]. *)
Fixpoint includes (s t : list N) : bool :=
  is_prefix t s ||
  match s with
  | [] => false
  | _ :: s' => includes s' t
  end.

(** A test's name and its expectations. *)
Definition jest_test : Type := string * list bool.

Definition run_test (t : jest_test) : string * outcome :=
  (t.1, if forallb id t.2 then Passed else Failed).

(** [/<html[^>]+lang="en"/] (line 324), without the flag [i]. *)
Definition lang_en : regexp :=
  RegExp (cat [lits "<html"; Plus (NotClass [62%N]); lits "lang="; Char 34; lits "en"; Char 34]) false.

Definition lang_test (html : list N) : jest_test :=
  ("has lang attribute on html", [regex_test lang_en html]).

(** Lines 350-358. *)
Definition css_basic_tests (css : list N) : list jest_test := [
  ("CSS file is not empty", [(1000 <? length css)%nat]);
  ("uses the blue/black/red color scheme",
     [includes css (code_units "#3b82f6"); includes css (code_units "#dc2626"); includes css (code_units "#0a0a0f")])
].

(** [/@media/g] (line 361): a literal, without the flag [i]; the flag [g]
    is the one [string_match_g] applies. *)
Definition media : regexp := RegExp (lits "@media") false.

(** Lines 360-363: [css.match(/@media/g)] is [null] when nothing matches,
    and [null.length] throws. *)
Definition css_media_test (css : list N) : jest_test :=
  ("has responsive media queries",
     match string_match_g media css with
     | Some ms => [(3 <=? length ms)%nat]
     | None => [false]
     end).

(** Lines 365-375. *)
Definition css_theme_tests (css : list N) : list jest_test := [
  ("has CSS custom properties",
     [includes css (code_units ":root"); includes css (code_units "--blue"); includes css (code_units "--red");
      includes css (code_units "--black")]);
  ("has animation keyframes", [includes css (code_units "@keyframes")])
].

(** [/\(function\s*\(\)\s*\{/] (line 410). *)
Definition iife : regexp :=
  RegExp (cat [lits "(function"; Star Space; lits "()"; Star Space; lits "{"]) false.

(** Lines 380-412. *)
Definition js_tests (js : list N) : list jest_test := [
  ("JS file is not empty", [(500 <? length js)%nat]);
  ("has navigation initialization", [includes js (code_units "initNavigation")]);
  ("has scroll animation initialization", [includes js (code_units "initScrollAnimations")]);
  ("has counter animation", [includes js (code_units "initCounters")]);
  ("has particle system", [includes js (code_units "initParticles")]);
  ("has smooth scroll", [includes js (code_units "initSmoothScroll")]);
  ("uses IntersectionObserver", [includes js (code_units "IntersectionObserver")]);
  ("has IIFE wrapper for encapsulation", [regex_test iife js])
].

(** The six names the JavaScript block looks for. *)
Definition js_names : list string :=
  ["initNavigation"; "initScrollAnimations"; "initCounters"; "initParticles"; "initSmoothScroll";
   "IntersectionObserver"].

Definition occurs (t s : list N) : Prop := exists pre post, s = pre ++ t ++ post.

(** ** Lemmas *)

Lemma is_prefix_spec (p s : list N) : is_prefix p s = true <-> exists q, s = p ++ q.
Proof.
  revert s. induction p as [|x p IH]; intros [|y s]; simpl; [naive_solver|naive_solver|naive_solver|].
  rewrite andb_true_iff, N.eqb_eq, IH. naive_solver.
Qed.

Lemma includes_spec (s t : list N) : includes s t = true <-> occurs t s.
Proof.
  unfold occurs. induction s as [|y s IH]; simpl; rewrite orb_true_iff, is_prefix_spec.
  - split; [intros [[q E]|?]; [by exists [], q|done]|].
    intros (pre & post & E). symmetry in E. apply app_eq_nil in E as [-> E]. left. exists post. by rewrite E.
  - rewrite IH. split.
    + intros [[q E]|(pre & post & ->)]; [by exists [], q|by exists (y :: pre), post].
    + intros (pre & post & E). destruct pre as [|z pre]; [left; by exists post|].
      injection E as -> ->. right. eauto.
Qed.

Lemma run_single (n : string) (b : bool) : (run_test (n, [b])).2 = Passed <-> b = true.
Proof. by destruct b. Qed.

(** Without the flag [i], a literal matches itself only. *)
Lemma matches_lits_exact (s : string) (w : list N) : matches false (lits s) w <-> w = code_units s.
Proof. rewrite matches_lits, list_eq_Forall2. done. Qed.

Lemma matches_seq_lits (s : string) (r : regex) (w : list N) :
  matches false (Seq (lits s) r) w <-> exists w2, w = code_units s ++ w2 /\ matches false r w2.
Proof. rewrite matches_seq. setoid_rewrite matches_lits_exact. naive_solver. Qed.

Lemma iife_matches (w : list N) :
  re_matches iife w <-> exists a b, w = code_units "(function" ++ a ++ code_units "()" ++ b ++ code_units "{" /\
    Forall (fun x => is_space x = true) a /\ Forall (fun x => is_space x = true) b.
Proof.
  pose proof (matches_star_unit false Space _ (matches_space false)) as Hstar.
  unfold re_matches, iife, cat. cbn [foldr re_source re_ignoreCase].
  setoid_rewrite matches_seq_lits. setoid_rewrite matches_seq. setoid_rewrite Hstar.
  setoid_rewrite matches_seq_lits. setoid_rewrite matches_seq. setoid_rewrite Hstar.
  setoid_rewrite matches_seq_lits. setoid_rewrite matches_empty. split.
  - intros (? & -> & a & ? & -> & Ha & ? & -> & b & ? & -> & Hb & ? & -> & ->).
    exists a, b. by rewrite app_nil_r.
  - intros (a & b & -> & Ha & Hb). eexists. split; [reflexivity|].
    exists a, (code_units "()" ++ b ++ code_units "{"). split_and!; [reflexivity|done|].
    eexists. split; [reflexivity|]. exists b, (code_units "{"). split_and!; [reflexivity|done|].
    exists []. by rewrite app_nil_r.
Qed.

Lemma iife_test (js : list N) :
  regex_test iife js = true <->
  exists pre a b post, js = pre ++ code_units "(function" ++ a ++ code_units "()" ++ b ++ code_units "{" ++ post /\
    Forall (fun x => is_space x = true) a /\ Forall (fun x => is_space x = true) b.
Proof.
  rewrite regex_test_spec. setoid_rewrite iife_matches. split.
  - intros (pre & ? & post & -> & a & b & -> & Ha & Hb). exists pre, a, b, post. by rewrite <- !app_assoc.
  - intros (pre & a & b & post & -> & Ha & Hb). eexists pre, _, post. split; [|by exists a, b].
    by rewrite <- !app_assoc.
Qed.

(** ** The CSS block *)

(** C25: the media-query test passes exactly when [@media] occurs three
    times in the stylesheet, one after the other: the global match finds
    the leftmost occurrences, as many as any disjoint ones. *)
Theorem media_test_spec (css : list N) :
  (run_test (css_media_test css)).2 = Passed <-> occurs_n (code_units "@media") 3 css.
Proof.
  assert (Hne : code_units "@media" <> []) by done.
  unfold css_media_test, string_match_g, media, lits. cbn [re_source re_ignoreCase].
  pose proof (match_all_lit _ Hne (S (length css)) css _ eq_refl) as [_ Ho].
  pose proof (fun k H => match_all_lit_complete _ Hne (S (length css)) k css H ltac:(lia)) as Hc.
  destruct (match_all false _ (S (length css)) css) as [|m ms] eqn:E.
  - split; [done|]. intros H. specialize (Hc 3%nat H). simpl in Hc. lia.
  - rewrite run_single, Nat.leb_le. split; [intros H; by apply (occurs_n_le _ _ _ _ Ho)|]. intros H. by apply Hc.
Qed.

(** ** The JavaScript block *)

(** C24: every test of the JavaScript block passes exactly when [main.js]
    is longer than 500 code units, contains each of the five initialiser
    names and [IntersectionObserver] anywhere (in code, a comment or a
    string alike), and contains [(function], white space, [()], white
    space and a brace. *)
Theorem js_tests_spec (js : list N) :
  Forall (fun r => r.2 = Passed) (run_test <$> js_tests js) <->
  (500 < length js)%nat /\ Forall (fun n => occurs (code_units n) js) js_names /\
  exists pre a b post, js = pre ++ code_units "(function" ++ a ++ code_units "()" ++ b ++ code_units "{" ++ post /\
    Forall (fun x => is_space x = true) a /\ Forall (fun x => is_space x = true) b.
Proof.
  unfold js_tests, js_names. cbn [fmap list_fmap]. rewrite !Forall_cons, !Forall_nil, !run_single.
  rewrite Nat.ltb_lt, !includes_spec, iife_test. tauto.
Qed.

End Jest.
