(* ===== verification/Page.v ===== *)
(** * The page: [init] and the [readyState] dispatch of [src/js/main.js]

    [init] (lines 246-252) calls the five initialisers in order on the same
    document: [initNavigation], [initScrollAnimations], [initCounters],
    [initParticles] and [initSmoothScroll].  What they leave behind is a
    [page]: the document, the navigation closures, the two observers, the
    particle container and its timers, and the links that got the
    smooth-scroll listener.  The document threads through them in that
    order: navigation may mark the navbar [scrolled], the fallbacks of the
    reveal animator and of the counters may write classes and text.

    A click on a menu link reaches two listeners registered on it, the
    navigation's close handler (lines 42-46) first and the smooth-scroll
    listener (line 226) second, on the same live document: [page_click].

    The script's last statement (lines 254-258) runs [init] at once unless
    the document is still loading, in which case it registers [init] for
    [DOMContentLoaded].  The document's lifecycle is a step relation: the
    script runs once, at any ready state, while the parser finishes
    ([loading] to [interactive], then [DOMContentLoaded]) and the page
    loads ([complete]). *)

From S2P Require Import Prelude JsNum Dom Observer Navigation Counter Timers Reveal SmoothScroll Particles.
From Stdlib Require Import Ascii.
Import Navigation.Navigation Counter.Counter Reveal.Reveal SmoothScroll.SmoothScroll Particles.Particles.

Module Page.

Record page := Page {
  pg_doc : document;
  pg_nav : option nav_env;
  pg_reveal : option Observer.io_state;
  pg_counters : option Observer.io_state;
  pg_particles : option nat;
  pg_timers : Timers.loop particle_task;
  pg_smooth : list nat
}.

(** [init] (lines 246-252), with [window.scrollY], whether the browser has
    [IntersectionObserver] and the time it runs. *)
Definition init (hasIO : bool) (scrollY t0 : Q) (d : document) : page :=
  let '(nav, d1) := initNavigation scrollY d in
  let sa := initScrollAnimations hasIO d1 in
  let cs := initCounters hasIO (a_doc sa) in
  let '(c, l) := initParticles (c_doc cs) (Timers.loop_empty t0) in
  Page (c_doc cs) nav (a_io sa) (c_io cs) c l (initSmoothScroll (c_doc cs)).

(** A click on element [a]: the navigation's click handlers, then the
    smooth-scroll listener, on the document the first left. *)
Definition page_click (E : selector_engine) (pg : page) (a : nat) : document * listener_result :=
  let d1 := match pg_nav pg with
            | Some env => nav_handle env (ClickLink a) (pg_doc pg)
            | None => pg_doc pg
            end in
  (d1, smooth_dispatch E (pg_smooth pg) d1 a).

(** ** The lifecycle of the document *)

Inductive ready_state := Loading | Interactive | Complete.

#[export] Instance ready_state_eq_dec : EqDecision ready_state.
Proof. solve_decision. Defined.

Record lifecycle := Lifecycle {
  lc_ready : ready_state;
  lc_ran : bool;                (** the script has run *)
  lc_listener : bool;           (** [init] listens for [DOMContentLoaded] *)
  lc_inits : nat                (** the runs of [init] so far *)
}.

(** Lines 254-258. *)
Definition run_script (s : lifecycle) : lifecycle :=
  if bool_decide (lc_ready s = Loading)
  then Lifecycle (lc_ready s) true true (lc_inits s)
  else Lifecycle (lc_ready s) true (lc_listener s) (S (lc_inits s)).

(** The parser is done: [readyState] becomes [interactive] and
    [DOMContentLoaded] runs its listeners. *)
Definition dom_content_loaded (s : lifecycle) : lifecycle :=
  Lifecycle Interactive (lc_ran s) (lc_listener s) (if lc_listener s then S (lc_inits s) else lc_inits s).

Definition page_loaded (s : lifecycle) : lifecycle :=
  Lifecycle Complete (lc_ran s) (lc_listener s) (lc_inits s).

Inductive lc_step : lifecycle -> lifecycle -> Prop :=
  | lc_run s : lc_ran s = false -> lc_step s (run_script s)
  | lc_parsed s : lc_ready s = Loading -> lc_step s (dom_content_loaded s)
  | lc_load s : lc_ready s = Interactive -> lc_step s (page_loaded s).

Definition lc_start : lifecycle := Lifecycle Loading false false 0.

(** [init] has run once exactly when the script has run and the parser is
    done; while loading, [init] is registered exactly when the script ran. *)
Definition lc_inv (s : lifecycle) : Prop :=
  lc_inits s = (if lc_ran s && negb (bool_decide (lc_ready s = Loading)) then 1 else 0)%nat /\
  (lc_ready s = Loading -> lc_listener s = lc_ran s).

(** ** What a menu link's close handler leaves for the next listener *)

Lemma offsetTop_modify (f : node -> node) (e x : nat) (d : document) :
  (forall nd, offsetTop (f nd) = offsetTop nd) -> offsetTop_of (modify f e d) x = offsetTop_of d x.
Proof.
  intros Hf. unfold offsetTop_of. destruct (decide (e = x)) as [->|Hne].
  - rewrite lookup_modify_eq. destruct (nodes d !! x); simpl; by rewrite ?Hf.
  - by rewrite lookup_modify_ne.
Qed.

Lemma link_click_offsetTop (t l x : nat) (d : document) : offsetTop_of (link_click t l d) x = offsetTop_of d x.
Proof. unfold link_click, setAttribute, classList_remove. by rewrite !offsetTop_modify. Qed.

Lemma link_click_getAttribute (t l x : nat) (a : string) (d : document) :
  a <> "aria-expanded" -> getAttribute (link_click t l d) x a = getAttribute d x a.
Proof.
  intros Ha. unfold link_click. rewrite getAttribute_setAttribute. case_decide; [naive_solver|].
  unfold classList_remove. by rewrite !getAttribute_classList.
Qed.

Lemma getElementById_ext (d d' : document) (id : string) :
  order d' = order d -> (forall e, getAttribute d' e "id" = getAttribute d e "id") ->
  getElementById d' id = getElementById d id.
Proof.
  intros Ho Ha. unfold getElementById. rewrite Ho. clear Ho.
  induction (order d) as [|x l IH]; [done|]. cbn [List.find]. by rewrite Ha, IH.
Qed.

Lemma link_click_getElementById (t l : nat) (id : string) (d : document) :
  getElementById (link_click t l d) id = getElementById d id.
Proof. apply getElementById_ext; [done|]. intros e. by apply link_click_getAttribute. Qed.

(** ** Every handler keeps the class lists duplicate-free *)

Lemma handleScroll_ok (env : nav_env) (y : Q) (d : document) : classlists_ok d -> classlists_ok (handleScroll env y d).
Proof. unfold handleScroll. case_bool_decide; auto with profile. Qed.

Lemma highlightNav_ok (env : nav_env) (y : Q) (d : document) : classlists_ok d -> classlists_ok (highlightNav env y d).
Proof.
  intros Hd. unfold highlightNav. apply foldl_invariant; [done|]. intros d' s _ H. unfold highlight_section.
  destruct (section_in_view d' (y + 200) s); [|done]. unfold mark_links. apply foldl_invariant; [done|].
  intros d'' a _ H'. unfold mark_link. case_bool_decide; auto with profile.
Qed.

Lemma nav_handle_ok (env : nav_env) (ev : nav_event) (d : document) :
  classlists_ok d -> classlists_ok (nav_handle env ev d).
Proof.
  intros Hd. destruct ev as [y| |a]; simpl.
  - by apply highlightNav_ok, handleScroll_ok.
  - destruct (menu env) as [[t l]|]; [|done]. rewrite toggle_click_unfold. auto with profile.
  - destruct (menu env) as [[t l]|]; [|done]. case_bool_decide; [|done]. unfold link_click. auto with profile.
Qed.

Lemma init_ok (hasIO : bool) (y t0 : Q) (d : document) : classlists_ok d -> classlists_ok (pg_doc (init hasIO y t0 d)).
Proof.
  intros Hd. unfold init.
  assert (H1 : classlists_ok (initNavigation y d).2).
  { unfold initNavigation. destruct (getElementById d "navbar"); [by apply handleScroll_ok|done]. }
  destruct (initNavigation y d) as [nav d1]. cbn [snd] in H1.
  assert (H2 : classlists_ok (a_doc (initScrollAnimations hasIO d1))).
  { unfold initScrollAnimations. destruct (querySelectorAll d1 sel_data_animate); [done|].
    destruct hasIO; [done|]. apply foldl_invariant; [done|]. intros; by apply classList_add_ok. }
  assert (H3 : classlists_ok (c_doc (initCounters hasIO (a_doc (initScrollAnimations hasIO d1))))).
  { unfold initCounters. destruct (querySelectorAll _ sel_data_count); [done|].
    destruct hasIO; [done|]. apply foldl_invariant; [done|]. intros; by apply setTextContent_ok. }
  by destruct (initParticles _ _).
Qed.

Lemma step_ok (run : counter_run) (ts : Q) (d : document) : classlists_ok d -> classlists_ok (step run ts d).1.
Proof. intros Hd. unfold step. case_bool_decide; simpl; auto with profile. Qed.

Lemma createParticle_ok (random : nat -> Q) (c : nat) (s : pstate) :
  classlists_ok (ps_doc s) -> classlists_ok (ps_doc (createParticle random c s).1).
Proof. intros Hd. apply appendChild_ok; [apply NoDup_singleton|done]. Qed.

Lemma removeParticle_ok (p : nat) (s : pstate) :
  classlists_ok (ps_doc s) -> classlists_ok (ps_doc (removeParticle p s)).
Proof.
  intros Hd. unfold removeParticle. destruct (nodes (ps_doc s) !! p ≫= parentNode) as [par|]; [|done].
  destruct (removeChild par p (ps_doc s)) eqn:E; [|done]. by apply (removeChild_ok par p (ps_doc s)).
Qed.

(** ** The lifecycle *)

Lemma lc_inv_start : lc_inv lc_start.
Proof. by split. Qed.

Lemma lc_inv_step (s s' : lifecycle) : lc_inv s -> lc_step s s' -> lc_inv s'.
Proof.
  intros [Hn Hl] Hs. destruct Hs as [s Hr|s Hr|s Hr]; destruct s as [[] [] [] n];
    simpl in *; try discriminate; unfold lc_inv, run_script, dom_content_loaded, page_loaded; simpl;
    rewrite ?Hn; try (specialize (Hl eq_refl); discriminate); split; try done; by intros.
Qed.

(** ** Properties of the page *)

(** C14: the composition of navigation and smooth scroll: after [init], a
    click on a link of the menu whose [href] is ["#" + id], [id] an
    identifier naming an element, closes the menu (close handler, run
    first) and makes the smooth-scroll listener, which reads the document
    the close handler left, prevent the jump and scroll to 80 pixels above
    that element. *)
Theorem menu_link_click (E : selector_engine) `{!engine_laws E} (hasIO : bool) (y t0 : Q) (d : document)
    (env : nav_env) (t l a tgt : nat) (id : string) :
  let pg := init hasIO y t0 d in
  pg_nav pg = Some env -> menu env = Some (t, l) -> a ∈ menu_links env -> a ∈ pg_smooth pg ->
  is_Some (nodes (pg_doc pg) !! t) -> css_ident id = true ->
  getAttribute (pg_doc pg) a "href" = Some (String "#" id) -> getElementById (pg_doc pg) id = Some tgt ->
  menu_closed t l (page_click E pg a).1 /\
  (page_click E pg a).2 = Returned true [ScrollOptions (offsetTop_of (pg_doc pg) tgt - 80) "smooth"].
Proof.
  intros pg Hnav Hm Ha Hs Ht Hid Hh Htgt. unfold page_click. rewrite Hnav. cbn [nav_handle].
  rewrite Hm, bool_decide_eq_true_2 by done. cbn [fst snd]. split; [by apply link_click_spec|].
  unfold smooth_dispatch. rewrite bool_decide_eq_true_2 by done.
  rewrite (smooth_click_ident E _ a id Hid) by (rewrite link_click_getAttribute; done).
  by rewrite link_click_getElementById, Htgt, link_click_offsetTop.
Qed.

(** The class lists stay duplicate-free (the DOMTokenList ordered
    set): if they are in the page, they are after [init], whatever its
    arguments, and after any navigation handler, reveal timer, counter
    frame or particle timer. *)
Theorem handlers_keep_classlists (d : document) :
  classlists_ok d ->
  (forall hasIO y t0, classlists_ok (pg_doc (init hasIO y t0 d))) /\
  (forall env ev, classlists_ok (nav_handle env ev d)) /\
  (forall t q, classlists_ok (reveal_handle t q d).1) /\
  (forall run ts, classlists_ok (step run ts d).1) /\
  (forall random c t q st fr dr, classlists_ok (ps_doc (particle_handle random c t q (PState d st fr dr)).1)).
Proof.
  intros Hd. split_and!; intros.
  - by apply init_ok.
  - by apply nav_handle_ok.
  - destruct t as [e]. by apply classList_add_ok.
  - by apply step_ok.
  - destruct t as [| |p]; unfold particle_handle; [by apply createParticle_ok| |by apply removeParticle_ok].
    destruct (createParticle random c (PState d st fr dr)) as [s' r] eqn:E. cbn [fst].
    replace s' with (createParticle random c (PState d st fr dr)).1 by (by rewrite E). by apply createParticle_ok.
Qed.

(** C15: whatever the ready state when the script runs, [init] runs at most
    once, and exactly once as soon as the script has run and the document
    is no longer loading. *)
Theorem init_runs_once (s : lifecycle) :
  rtc lc_step lc_start s ->
  (lc_inits s <= 1)%nat /\ (lc_ran s = true -> lc_ready s <> Loading -> lc_inits s = 1%nat).
Proof.
  intros Hr. assert (H : lc_inv s).
  { pose proof lc_inv_start as H0. induction Hr as [|x y z Hxy _ IH]; [done|]. apply IH. by apply (lc_inv_step x). }
  destruct H as [Hn _]. rewrite Hn. split; [destruct (lc_ran s && _); lia|].
  intros -> Hl. by rewrite bool_decide_eq_false_2.
Qed.

(** ** Witnesses *)

Lemma menu_link_click_witness :
  menu_closed 2 3 (page_click id_engine (init true 0 0 demo_page) 4).1 /\
  (page_click id_engine (init true 0 0 demo_page) 4).2 = Returned true [ScrollOptions (0 - 80) "smooth"].
Proof.
  apply (menu_link_click id_engine true 0 0 demo_page demo_env 2 3 4 6 "about");
    try (vm_compute; reflexivity).
  - decide_by_eval.
  - decide_by_eval.
  - vm_compute. eexists. reflexivity.
Defined.

Lemma init_runs_once_witness :
  let s := page_loaded (dom_content_loaded (run_script lc_start)) in
  (lc_inits s <= 1)%nat /\ (lc_ran s = true -> lc_ready s <> Loading -> lc_inits s = 1%nat).
Proof.
  apply init_runs_once. eapply rtc_l; [by apply lc_run|]. eapply rtc_l; [by apply lc_parsed|].
  eapply rtc_l; [by apply lc_load|]. apply rtc_refl.
Defined.

Lemma handlers_keep_classlists_witness :
  (forall hasIO y t0, classlists_ok (pg_doc (init hasIO y t0 demo_page))) /\
  (forall env ev, classlists_ok (nav_handle env ev demo_page)) /\
  (forall t q, classlists_ok (reveal_handle t q demo_page).1) /\
  (forall run ts, classlists_ok (step run ts demo_page).1) /\
  (forall random c t q st fr dr, classlists_ok (ps_doc (particle_handle random c t q (PState demo_page st fr dr)).1)).
Proof. apply handlers_keep_classlists. decide_by_eval. Defined.

End Page.
