(* ===== verification/JestDom.v ===== *)
(** * The Jest suite: the tests on the DOM (src/tests/profile.test.js)

    Before each test, [document.documentElement.innerHTML = html] (line 14)
    gives jsdom the document of [index.html]; the tests of lines 20-344
    query it.  Here that document is any [document] of [Dom.v], and the
    queries are those of the CSS engine of [Css.v] on the suite's selector
    strings: [document.querySelector(s)], [querySelectorAll] and their
    element-scoped forms, a string that does not parse throwing a
    [SyntaxError].

    A test is the list of its expectations, in order ([Jest.jest_test]).
    An exception ends the test as a failed one: a [SyntaxError], or the
    [TypeError] of reading a property of [null]; it is the expectation
    [false].  [expect(x).not.toBeNull()] is [not_null]; [toContain] on a
    string is [String.prototype.includes] on code units and on an array is
    membership under [===]; [toBeTruthy] on [getAttribute] is a non-null,
    non-empty string; [forEach] runs the expectations of each element in
    turn.  [tagName] is the upper-case local name of an HTML element, and
    [textContent] the element's text as the document model holds it.

    The theorems connect the suite to the script: what the tests check is
    what the handlers of [main.js] need (the menu's elements, the
    counters, the animated sections), and where it is not enough. *)

From S2P Require Import Prelude JsNum Regex Dom Navigation Counter Reveal SmoothScroll Css Jest.
From Stdlib Require Import Ascii.
Import Regex.Regex Navigation.Navigation Counter.Counter Reveal.Reveal Css.Css Jest.Jest.

Module JestDom.

(** ** Queries and expectations *)

Definition qs (d : document) (s : string) : option (option nat) := Css.querySelector d <$> parse_selector s.
Definition qsa (d : document) (s : string) : option (list nat) := Css.querySelectorAll d <$> parse_selector s.
Definition el_qs (d : document) (e : nat) (s : string) : option (option nat) :=
  el_querySelector d e <$> parse_selector s.
Definition el_qsa (d : document) (e : nat) (s : string) : option (list nat) :=
  el_querySelectorAll d e <$> parse_selector s.

(** [expect(x).not.toBeNull()]. *)
Definition not_null {A} (o : option A) : bool := match o with Some _ => true | None => false end.

(** The rest of a test after a call that may throw. *)
Definition on {A} (o : option A) (k : A -> list bool) : list bool :=
  match o with Some x => k x | None => [false] end.

(** The attribute selector [[a op "v"]] of a selector string, its quotes
    spelled out. *)
Definition attr_sel (a op v : string) : string := "[" +:+ a +:+ op +:+ quoted v +:+ "]".

Definition text (d : document) (e : nat) : string := default "" (textOf d e).

(** [s.includes(t)] on code units. *)
Definition contains (s t : string) : bool := includes (code_units s) (code_units t).

(** [expect(x).toContain(t)] on what [getAttribute] returned: a null
    receiver fails the matcher. *)
Definition attr_contains (o : option string) (t : string) : bool :=
  match o with Some s => contains s t | None => false end.

Definition truthy (o : option string) : bool :=
  match o with Some s => negb (String.eqb s "") | None => false end.

Definition upcase_char (c : ascii) : ascii :=
  let n := nat_of_ascii c in if (97 <=? n)%nat && (n <=? 122)%nat then ascii_of_nat (n - 32) else c.

Fixpoint upcase (s : string) : string :=
  match s with String c s' => String (upcase_char c) (upcase s') | EmptyString => EmptyString end.

(** [element.tagName] of an HTML element. *)
Definition tagName_of (d : document) (e : nat) : option string := upcase <$> tag_of d e.

(** [s.trim()]: white space off both ends. *)
Definition js_trim (s : string) : string :=
  String.rev (trim_start (String.rev (trim_start s))).

(** [expect(parseInt(v)).toBeGreaterThan(0)]: [NaN] is not. *)
Definition gt_zero (n : jsint) : bool := match n with Some z => (0 <? z)%Z | None => false end.

(** ** The tests, block by block *)

(** [describe('HTML Structure')] (lines 20-48). *)
Definition structure_tests (d : document) : list jest_test := [
  ("has correct document title",
     on (qs d "title") (fun t => [not_null t] ++ on t (fun t => [contains (text d t) "Alex Morgan"])));
  ("has meta viewport tag for responsiveness",
     on (qs d ("meta" +:+ attr_sel "name" "=" "viewport")) (fun v =>
       [not_null v] ++ on v (fun v => [attr_contains (getAttribute d v "content") "width=device-width"])));
  ("has meta description",
     on (qs d ("meta" +:+ attr_sel "name" "=" "description")) (fun v =>
       [not_null v] ++ on v (fun v => on (getAttribute d v "content") (fun c => [(10 <? String.length c)%nat]))));
  ("links CSS stylesheet",
     on (qs d ("link" +:+ attr_sel "rel" "=" "stylesheet" +:+ attr_sel "href" "*=" "style.css")) (fun l => [not_null l]));
  ("links JavaScript file", on (qs d ("script" +:+ attr_sel "src" "*=" "main.js")) (fun s => [not_null s]))
].

(** [describe('Navigation')] (lines 53-91). *)
Definition navigation_tests (d : document) : list jest_test := [
  ("has navigation bar", [not_null (getElementById d "navbar")]);
  ("has navigation role attribute", on (qs d ("nav" +:+ attr_sel "role" "=" "navigation")) (fun n => [not_null n]));
  ("has logo link",
     on (qs d ".nav-logo") (fun l => [not_null l] ++ on l (fun l => [bool_decide (tagName_of d l = Some "A")])));
  ("has mobile toggle button",
     let t := getElementById d "nav-toggle" in
     [not_null t] ++ on t (fun t => [truthy (getAttribute d t "aria-label");
                                  bool_decide (getAttribute d t "aria-expanded" = Some "false")]));
  ("has all navigation links",
     on (qsa d "#nav-links a") (fun ls =>
       let hrefs := (fun l => getAttribute d l "href") <$> ls in
       (fun h => bool_decide (Some h ∈ hrefs)) <$> ["#about"; "#skills"; "#experience"; "#projects"; "#contact"]));
  ("navigation links have menuitem role",
     on (qsa d ("#nav-links a" +:+ attr_sel "role" "=" "menuitem")) (fun ls => [(length ls =? 5)%nat]))
].

(** ['stats have data-count attributes'] (lines 125-132): the value is
    read by [parseInt] without a radix. *)
Definition data_count_test (d : document) : jest_test :=
  ("stats have data-count attributes",
     on (qsa d "[data-count]") (fun cs =>
       (length cs =? 3)%nat :: ((fun c => gt_zero (parseInt (attr_string (getAttribute d c "data-count")))) <$> cs))).

(** [describe('Hero Section')] (lines 96-138). *)
Definition hero_tests (d : document) : list jest_test := [
  ("has hero section", [not_null (getElementById d "hero")]);
  ("displays name",
     on (qs d ".hero-name") (fun n => [not_null n] ++ on n (fun n => [contains (text d n) "Alex"; contains (text d n) "Morgan"])));
  ("displays title",
     on (qs d ".hero-title") (fun t => [not_null t] ++ on t (fun t => [contains (text d t) "Senior Software Engineer"])));
  ("has call-to-action buttons", on (qsa d ".hero-cta .btn") (fun bs => [(2 <=? length bs)%nat]));
  ("has statistics section", on (qsa d ".stat") (fun ss => [(length ss =? 3)%nat]));
  data_count_test d;
  ("has particle container", [not_null (getElementById d "hero-particles")])
].

(** [describe('About Section')] (lines 143-171), with [about()] (lines
    173-175). *)
Definition about_tests (d : document) : list jest_test := [
  ("has about section", [not_null (getElementById d "about")]);
  ("has section title with number",
     on (getElementById d "about") (fun a => on (el_qs d a ".section-number") (fun n =>
       [not_null n] ++ on n (fun n => [contains (text d n) "01"]))));
  ("has profile image area", on (qs d ".about-image") (fun i => [not_null i]));
  ("has about text content",
     on (qs d ".about-text") (fun t => [not_null t] ++ on t (fun t => on (el_qsa d t "p") (fun ps => [(2 <=? length ps)%nat]))));
  ("has detail items", on (qsa d ".about-details .detail") (fun ds => [(3 <=? length ds)%nat]))
].

(** [describe('Skills Section')] (lines 180-208). *)
Definition skills_tests (d : document) : list jest_test := [
  ("has skills section", [not_null (getElementById d "skills")]);
  ("has skill categories", on (qsa d ".skill-category") (fun cs => [(4 <=? length cs)%nat]));
  ("each category has title and tags",
     on (qsa d ".skill-category") (fun cs => cs ≫= fun c =>
       on (el_qs d c "h3") (fun t => [not_null t] ++ on t (fun t =>
         (0 <? String.length (js_trim (text d t)))%nat :: on (el_qsa d c ".skill-tag") (fun ts => [(0 <? length ts)%nat])))));
  ("has icons for each category",
     on (qsa d ".skill-icon") (fun its => on (qsa d ".skill-category") (fun cs => [(length its =? length cs)%nat])))
].

(** [describe('Experience Section')] (lines 213-233). *)
Definition experience_tests (d : document) : list jest_test := [
  ("has experience section", [not_null (getElementById d "experience")]);
  ("has timeline items", on (qsa d ".timeline-item") (fun its => [(3 <=? length its)%nat]));
  ("each timeline item has required content",
     on (qsa d ".timeline-item") (fun its => its ≫= fun i =>
       on (el_qs d i "h3") (fun h => [not_null h]) ++ on (el_qs d i ".timeline-company") (fun x => [not_null x]) ++
       on (el_qs d i ".timeline-date") (fun x => [not_null x]) ++
       on (el_qsa d i ".timeline-details li") (fun ls => [(0 <? length ls)%nat])))
].

(** [describe('Projects Section')] (lines 238-271). *)
Definition projects_tests (d : document) : list jest_test := [
  ("has projects section", [not_null (getElementById d "projects")]);
  ("has project cards", on (qsa d ".project-card") (fun cs => [(4 <=? length cs)%nat]));
  ("project cards are article elements", on (qsa d "article.project-card") (fun cs => [(4 <=? length cs)%nat]));
  ("each project has title, description, and tech stack",
     on (qsa d ".project-card") (fun cs => cs ≫= fun c =>
       on (el_qs d c ".project-title") (fun x => [not_null x]) ++
       on (el_qs d c ".project-description") (fun x => [not_null x]) ++
       on (el_qsa d c ".project-tech span") (fun ts => [(0 <? length ts)%nat])));
  ("each project has GitHub and demo links",
     on (qsa d ".project-card") (fun cs => cs ≫= fun c => on (el_qsa d c ".project-link") (fun ls => [(length ls =? 2)%nat])))
].

(** [describe('Contact Section')] (lines 276-299). *)
Definition contact_tests (d : document) : list jest_test := [
  ("has contact section", [not_null (getElementById d "contact")]);
  ("has email CTA button",
     on (qs d ".contact .btn") (fun b => [not_null b] ++ on b (fun b => [attr_contains (getAttribute d b "href") "mailto:"])));
  ("has social links", on (qsa d ".social-link") (fun ls => [(4 <=? length ls)%nat]));
  ("social links have aria-labels",
     on (qsa d ".social-link") (fun ls => (fun l => truthy (getAttribute d l "aria-label")) <$> ls))
].

(** [describe('Footer')] (lines 304-315). *)
Definition footer_tests (d : document) : list jest_test := [
  ("has footer element", on (qs d "footer") (fun f => [not_null f]));
  ("has copyright text",
     on (qs d ".footer-sub") (fun t => [not_null t] ++ on t (fun t => [contains (text d t) "2025"])))
].

(** ['all sections have data-animate attributes for scroll animations']
    (lines 340-343). *)
Definition data_animate_test (d : document) : jest_test :=
  ("all sections have data-animate attributes for scroll animations",
     on (qsa d "[data-animate]") (fun l => [(10 <? length l)%nat])).

(** [describe('Accessibility')] (lines 320-344): the [lang] test reads the
    markup's text ([Jest.lang_test]), the others the document. *)
Definition accessibility_tests (html : list N) (d : document) : list jest_test := [
  lang_test html;
  ("nav has aria-label", on (qs d "nav[aria-label]") (fun n => [not_null n]));
  ("decorative elements have aria-hidden",
     on (qs d ".hero-bg-grid") (fun g => on g (fun g =>
       bool_decide (getAttribute d g "aria-hidden" = Some "true") ::
       on (qs d ".hero-particles") (fun p => on p (fun p => [bool_decide (getAttribute d p "aria-hidden" = Some "true")])))));
  data_animate_test d
].

(** The whole suite on the markup's text, the stylesheet, the script and
    the document built from the markup, in the order of the file. *)
Definition suite (html css js : list N) (d : document) : list jest_test :=
  structure_tests d ++ navigation_tests d ++ hero_tests d ++ about_tests d ++ skills_tests d ++
  experience_tests d ++ projects_tests d ++ contact_tests d ++ footer_tests d ++ accessibility_tests html d ++
  css_basic_tests css ++ [css_media_test css] ++ css_theme_tests css ++ js_tests js.

(** A test passes. *)
Definition passes (t : jest_test) : Prop := (run_test t).2 = Passed.

(** Every element of a document built from markup is in its tree. *)
Definition connected (d : document) : Prop := forall x nd, nodes d !! x = Some nd -> x ∈ order d.

#[export] Instance outcome_eq_dec : EqDecision outcome.
Proof. solve_decision. Defined.

(** ** Pages *)

(** A navigation bar as the markup of the page has it: the logo, the
    toggle and five menu links. *)
Definition nav_page : document :=
  let link (h : string) := mkNode "a" (list_to_map [("href", h); ("role", "menuitem")]) [] "" (Some 4%nat) 0 0 in
  mkDocument (list_to_map [
    (1%nat, element "nav" [("id", "navbar"); ("role", "navigation"); ("aria-label", "Main")] None 0 70);
    (2%nat, mkNode "a" (list_to_map [("href", "#hero")]) ["nav-logo"] "AM" (Some 1%nat) 0 0);
    (3%nat, element "button" [("id", "nav-toggle"); ("aria-label", "Toggle menu"); ("aria-expanded", "false")] (Some 1%nat) 0 0);
    (4%nat, element "ul" [("id", "nav-links")] (Some 1%nat) 0 0);
    (5%nat, link "#about"); (6%nat, link "#skills"); (7%nat, link "#experience");
    (8%nat, link "#projects"); (9%nat, link "#contact")])
    [1; 2; 3; 4; 5; 6; 7; 8; 9]%nat.

(** Three statistics whose [data-count] is written in hexadecimal. *)
Definition hex_counter_page : document :=
  let stat (e : nat) := (e, element "span" [("data-count", "0x10")] None 0 20) in
  mkDocument (list_to_map [stat 1%nat; stat 2%nat; stat 3%nat]) [1; 2; 3]%nat.

(** Three statistics in decimal. *)
Definition stats_page : document :=
  mkDocument (list_to_map [(1%nat, element "div" [("data-count", "50")] None 0 20);
                           (2%nat, element "div" [("data-count", "120")] None 0 20);
                           (3%nat, element "div" [("data-count", "15")] None 0 20)]) [1; 2; 3]%nat.

(** ** Lemmas *)

Lemma passes_iff (n : string) (l : list bool) : passes (n, l) <-> forallb id l = true.
Proof. unfold passes, run_test. simpl. destruct (forallb id l); naive_solver. Qed.

Lemma on_holds {A} (o : option A) (k : A -> list bool) :
  forallb id (on o k) = true <-> exists x, o = Some x /\ forallb id (k x) = true.
Proof. destruct o; simpl; naive_solver. Qed.

Lemma forallb_id_app (l1 l2 : list bool) : forallb id (l1 ++ l2) = true <-> forallb id l1 = true /\ forallb id l2 = true.
Proof. by rewrite forallb_app, andb_true_iff. Qed.

Lemma forallb_id_cons (b : bool) (l : list bool) : forallb id (b :: l) = true <-> b = true /\ forallb id l = true.
Proof. simpl. by rewrite andb_true_iff. Qed.

#[export] Hint Rewrite forallb_id_app forallb_id_cons : profile_rw.

Lemma forallb_id_fmap_intro {A} (f : A -> bool) (l : list A) :
  (forall x, x ∈ l -> f x = true) -> forallb id (f <$> l) = true.
Proof.
  induction l as [|y l IH]; intros H; [done|]. cbn [fmap list_fmap]. rewrite forallb_id_cons.
  split; [apply H, elem_of_cons; by left|]. apply IH. intros x Hx. apply H, elem_of_cons. by right.
Qed.

Lemma forallb_id_fmap {A} (f : A -> bool) (l : list A) (x : A) :
  forallb id (f <$> l) = true -> x ∈ l -> f x = true.
Proof.
  induction l as [|y l IH]; [by intros _ ?%elem_of_nil|]. cbn [fmap list_fmap]. rewrite forallb_id_cons.
  intros [Hy Hl] [->|Hx]%elem_of_cons; [done|by apply IH].
Qed.

Lemma connected_by_eval (d : document) :
  forallb (fun kv : nat * node => bool_decide (kv.1 ∈ order d)) (map_to_list (nodes d)) = true -> connected d.
Proof.
  intros H x nd Hx. rewrite <- elem_of_map_to_list in Hx. rewrite forallb_forall in H.
  apply list_elem_of_In in Hx. specialize (H (x, nd) Hx). by apply bool_decide_eq_true_1 in H.
Qed.

Lemma passes_by_eval (ts : list jest_test) :
  forallb (fun t => bool_decide ((run_test t).2 = Passed)) ts = true -> Forall passes ts.
Proof.
  intros H. apply Forall_forall. intros t Ht. rewrite forallb_forall in H.
  apply list_elem_of_In in Ht. specialize (H t Ht). by apply bool_decide_eq_true_1 in H.
Qed.

Lemma qsa_data_count (d : document) : qsa d "[data-count]" = Some (Dom.querySelectorAll d sel_data_count).
Proof.
  unfold qsa. change (parse_selector "[data-count]") with (Some (of_dom sel_data_count)).
  cbn [fmap option_fmap option_map]. f_equal. by apply qsa_of_dom.
Qed.

Lemma qsa_data_animate (d : document) : qsa d "[data-animate]" = Some (Dom.querySelectorAll d sel_data_animate).
Proof.
  unfold qsa. change (parse_selector "[data-animate]") with (Some (of_dom sel_data_animate)).
  cbn [fmap option_fmap option_map]. f_equal. by apply qsa_of_dom.
Qed.

Lemma getElementById_attr (d : document) (id : string) (e : nat) :
  getElementById d id = Some e -> getAttribute d e "id" = Some id.
Proof. unfold getElementById. intros H. apply find_some in H as [_ H]. by apply bool_decide_eq_true_1 in H. Qed.

Lemma getElementById_found (d : document) (id : string) (x : nat) :
  x ∈ order d -> getAttribute d x "id" = Some id -> exists e, getElementById d id = Some e.
Proof.
  intros Hx Ha. unfold getElementById. destruct (List.find _ (order d)) as [e|] eqn:E; [by exists e|].
  apply list_elem_of_In in Hx. pose proof (find_none _ _ E x Hx) as H. simpl in H. by rewrite bool_decide_eq_false in H.
Qed.

(** An element matching [#id] is in a connected document, so
    [getElementById] finds one. *)
Lemma id_match_found (d : document) (id : string) (x : nat) :
  connected d -> compound_matches d [SId id] x = true -> exists e, getElementById d id = Some e.
Proof.
  intros Hc Hm. unfold compound_matches in Hm. destruct (nodes d !! x) as [nd|] eqn:E; [|done].
  apply (getElementById_found d id x); [by eapply Hc|]. unfold getAttribute. rewrite E. simpl in Hm.
  rewrite andb_true_r in Hm. by apply bool_decide_eq_true_1 in Hm.
Qed.

Lemma menu_inv_handleScroll (env : nav_env) (y : Q) (t l : nat) (d : document) :
  menu_inv t l d -> menu_inv t l (handleScroll env y d).
Proof.
  pose proof (handleScroll_layout env y d) as H. intros (Ht & Hl & Htag & Hol & Har).
  unfold menu_inv. rewrite !handleScroll_hasClass_other by done.
  by rewrite (layout_is_Some _ d t H), (layout_is_Some _ d l H), (tag_of_layout _ d t H), (getAttribute_layout _ d t _ H).
Qed.

Lemma parse_nav_links_a : parse_selector "#nav-links a" = Some [[SId "nav-links"]; [SType "a"]].
Proof. reflexivity. Qed.

(** The elements the navigation tests require: the bar, the toggle with
    [aria-expanded="false"], and the list of links. *)
Lemma navigation_tests_elements (d : document) :
  connected d -> Forall passes (navigation_tests d) ->
  (exists nb, getElementById d "navbar" = Some nb) /\
  (exists t, getElementById d "nav-toggle" = Some t /\ getAttribute d t "aria-expanded" = Some "false") /\
  (exists l, getElementById d "nav-links" = Some l).
Proof.
  intros Hc Hp. unfold navigation_tests in Hp. rewrite !Forall_cons in Hp.
  destruct Hp as (H1 & _ & _ & H4 & H5 & _). rewrite passes_iff in H1, H4, H5. split_and!.
  - simpl in H1. destruct (getElementById d "navbar"); [by eexists|done].
  - cbn beta iota in H4. destruct (getElementById d "nav-toggle") as [t|]; [|done].
    exists t. split; [done|]. simpl in H4. rewrite !andb_true_iff in H4. destruct_and!. by case_bool_decide.
  - apply on_holds in H5 as (ls & Hls & H5). unfold qsa in Hls. rewrite parse_nav_links_a in Hls.
    injection Hls as <-. cbn [fmap list_fmap] in H5. simpl in H5. rewrite andb_true_iff in H5.
    destruct H5 as [H5 _]. apply bool_decide_eq_true_1, list_elem_of_fmap in H5 as (e & _ & He).
    unfold Css.querySelectorAll in He. apply list_elem_of_filter in He as [He _].
    destruct (sel_matches_two d _ _ e He) as (_ & x & _ & Hx). by eapply id_match_found.
Qed.

(** ** The navigation tests and the menu invariant *)

(** C17: on a connected document that passes the navigation tests of the
    suite, [initNavigation] registers the menu handlers, and when the
    markup's toggle is not [active] and not a link and its list is not
    [open] (what the tests do not check), every document reachable by
    scroll events, toggle clicks and menu-link clicks satisfies the menu
    invariant. *)
Theorem nav_tests_menu_invariant (d : document) (y : Q) :
  connected d -> Forall passes (navigation_tests d) ->
  (forall t, getElementById d "nav-toggle" = Some t -> hasClass d t "active" = false /\ tag_of d t <> Some "a") ->
  (forall l, getElementById d "nav-links" = Some l -> hasClass d l "open" = false) ->
  exists env t l, (initNavigation y d).1 = Some env /\ menu env = Some (t, l) /\
    forall d', nav_reach env (initNavigation y d).2 d' -> menu_inv t l d'.
Proof.
  intros Hc Hp Ht Hl. destruct (navigation_tests_elements d Hc Hp) as ([nb Hnb] & (t & Het & Har) & [l Hel]).
  destruct (Ht t Het) as [Hta Htag]. pose proof (Hl l Hel) as Hlo.
  assert (Htl : t <> l).
  { intros ->. apply getElementById_attr in Het, Hel. congruence. }
  unfold initNavigation. rewrite Hnb, Het, Hel. cbn [fst snd].
  eexists _, t, l. split; [done|]. split; [done|]. intros d' Hr.
  induction Hr as [|d' ev _ IH]; [|by apply menu_inv_step].
  apply menu_inv_handleScroll. split_and!; [by eapply getElementById_exists..|done|by rewrite Hlo, Hta|by rewrite Har, Hlo].
Qed.

(** ** The statistics and the counters *)

(** C18: when the test of the statistics passes and no [data-count] is
    written with a [0x] prefix, the page has exactly three counters and
    the counter [main.js] starts on each animates to a positive integer:
    the test's [parseInt(v)] and the script's [parseInt(v, 10)] agree. *)
Theorem data_count_targets (d : document) :
  passes (data_count_test d) ->
  (forall e, e ∈ Dom.querySelectorAll d sel_data_count ->
     hex_prefixed (attr_string (getAttribute d e "data-count")) = false) ->
  length (Dom.querySelectorAll d sel_data_count) = 3%nat /\
  forall e, e ∈ Dom.querySelectorAll d sel_data_count ->
    exists z, cr_target (animateCounter d e) = Some z /\ (0 < z)%Z.
Proof.
  unfold data_count_test. rewrite passes_iff, qsa_data_count. cbn [on]. rewrite forallb_id_cons.
  intros [Hlen Hall] Hhex. split; [by apply Nat.eqb_eq|]. intros e He.
  pose proof (forallb_id_fmap _ _ e Hall He) as H. cbn beta in H. rewrite parseInt_decimal in H by auto.
  cbn [animateCounter cr_target]. destruct (parseInt10 _) as [z|]; [|done]. exists z. split; [done|]. by apply Z.ltb_lt.
Qed.

(** C19: the test of the statistics accepts counters written in
    hexadecimal, which its [parseInt] without a radix reads as positive
    numbers, while each counter of [main.js], reading them with radix 10,
    animates to 0: on every page with three [data-count] attributes of the
    form [0x] followed by digits of positive value, the test passes and
    every counter's target is 0. *)
Theorem data_count_test_accepts_hex (d : document) :
  length (Dom.querySelectorAll d sel_data_count) = 3%nat ->
  (forall e, e ∈ Dom.querySelectorAll d sel_data_count ->
     exists h, getAttribute d e "data-count" = Some (String "0" (String "x" h)) /\ (0 < hex_value (hex_digits h))%N) ->
  passes (data_count_test d) /\
  forall e, e ∈ Dom.querySelectorAll d sel_data_count -> cr_target (animateCounter d e) = Some 0%Z.
Proof.
  intros Hlen Hhex. unfold data_count_test. rewrite passes_iff, qsa_data_count. cbn [on]. rewrite forallb_id_cons.
  split; [split; [by apply Nat.eqb_eq|]|].
  - apply forallb_id_fmap_intro. intros e He. destruct (Hhex e He) as (h & Ha & Hh).
    rewrite Ha. cbn [attr_string]. rewrite parseInt_hex by done. apply Z.ltb_lt. lia.
  - intros e He. destruct (Hhex e He) as (h & Ha & _). cbn [animateCounter cr_target].
    rewrite Ha. apply parseInt10_hex.
Qed.

(** ** Witnesses *)

Lemma nav_tests_menu_invariant_witness :
  exists env t l, (initNavigation 0 nav_page).1 = Some env /\ menu env = Some (t, l) /\
    forall d', nav_reach env (initNavigation 0 nav_page).2 d' -> menu_inv t l d'.
Proof.
  apply nav_tests_menu_invariant.
  - apply connected_by_eval. by vm_compute.
  - apply passes_by_eval. by vm_compute.
  - intros t Ht. vm_compute in Ht. injection Ht as <-. split; [by vm_compute|]. vm_compute. congruence.
  - intros l Hl. vm_compute in Hl. injection Hl as <-. by vm_compute.
Defined.

Lemma data_count_targets_witness :
  length (Dom.querySelectorAll stats_page sel_data_count) = 3%nat /\
  forall e, e ∈ Dom.querySelectorAll stats_page sel_data_count ->
    exists z, cr_target (animateCounter stats_page e) = Some z /\ (0 < z)%Z.
Proof.
  apply data_count_targets; [by vm_compute|]. apply Forall_forall. vm_compute. repeat constructor.
Defined.

Lemma data_count_test_accepts_hex_witness :
  passes (data_count_test hex_counter_page) /\
  forall e, e ∈ Dom.querySelectorAll hex_counter_page sel_data_count -> cr_target (animateCounter hex_counter_page e) = Some 0%Z.
Proof.
  apply data_count_test_accepts_hex; [by vm_compute|]. apply Forall_forall. vm_compute.
  repeat (constructor; [exists "10"; split; reflexivity|]). constructor.
Defined.

End JestDom.
